(** * One-Facile-AI: the stdio protocol client and the session manager

    A shallow embedding of [src/mcp/stdioClient.ts] (class [StdioMcpClient])
    and [src/mcp/sessionManager.ts] (class [SessionManager]).

    Conventions of the embedding.
    - A JavaScript string is the list of its UTF-16 code units.
    - A JavaScript value is a [jsval]; the values the client handles come
      out of [JSON.parse].
    - The builtins that the classes call but do not define ([JSON.parse],
      [JSON.stringify], string conversion in template literals, [uuid()],
      [process.env], [os.tmpdir()]) are the fields of the class [Runtime];
      every definition and theorem is parametric in it.
    - Promises, timers and event callbacks are written as explicit state:
      an [async] function is cut at each [await] into the pieces the event
      loop runs; a closure is the record of the variables it captured.
    - Objects that are shared by reference (sessions, clients, sockets) live
      in stores indexed by their reference. *)

From Stdlib Require Import ZArith NArith List Bool Ascii String Lia.
From Stdlib.Strings Require Import Byte.
From stdpp Require Import base option list gmap strings pretty.

#[local] Set Warnings "-register-all".

#[local] Open Scope N_scope.

(** ** JavaScript strings *)

(** A string is its sequence of UTF-16 code units. *)
Abbreviation jsstring := (list N).

(** The code units of an ASCII literal. *)
Definition js (s : string) : jsstring :=
  map N_of_ascii (list_ascii_of_string s).

(** JSON text written with apostrophes for its double quotes. *)
Definition wire (s : string) : jsstring :=
  map (fun c => if c =? 39 then 34 else c) (js s).

(** The octets of a literal, for chunks read from a pipe. *)
Definition octets (s : string) : list byte := list_byte_of_string s.

(** ** [Buffer.prototype.toString('utf8')]

    The decoder of the WHATWG Encoding Standard, which Node implements: a
    well-formed sequence gives its code point, every maximal ill-formed
    prefix gives one U+FFFD, and so does a sequence the end of the buffer
    cuts short.  A code point above U+FFFF is written as its surrogate
    pair. *)

Record Utf8State := {
  u_cp : N;          (* code point under construction *)
  u_needed : nat;    (* continuation bytes still expected *)
  u_lower : N;       (* bounds on the next continuation byte *)
  u_upper : N
}.

Definition utf8_idle : Utf8State :=
  {| u_cp := 0; u_needed := 0; u_lower := 0x80; u_upper := 0xBF |}.

Definition REPLACEMENT : N := 0xFFFD.

Definition code_units (cp : N) : jsstring :=
  if cp <? 0x10000 then [cp]
  else [0xD800 + N.shiftr (cp - 0x10000) 10;
        0xDC00 + N.land (cp - 0x10000) 0x3FF].

(** A byte met when no sequence is open. *)
Definition utf8_lead (b : N) : jsstring * Utf8State :=
  if b <=? 0x7F then ([b], utf8_idle)
  else if (0xC2 <=? b) && (b <=? 0xDF) then
    ([], {| u_cp := N.land b 0x1F; u_needed := 1;
            u_lower := 0x80; u_upper := 0xBF |})
  else if (0xE0 <=? b) && (b <=? 0xEF) then
    ([], {| u_cp := N.land b 0xF; u_needed := 2;
            u_lower := (if b =? 0xE0 then 0xA0 else 0x80);
            u_upper := (if b =? 0xED then 0x9F else 0xBF) |})
  else if (0xF0 <=? b) && (b <=? 0xF4) then
    ([], {| u_cp := N.land b 0x7; u_needed := 3;
            u_lower := (if b =? 0xF0 then 0x90 else 0x80);
            u_upper := (if b =? 0xF4 then 0x8F else 0xBF) |})
  else ([REPLACEMENT], utf8_idle).

Definition utf8_step (s : Utf8State) (b : N) : jsstring * Utf8State :=
  match u_needed s with
  | O => utf8_lead b
  | S n =>
      if (u_lower s <=? b) && (b <=? u_upper s) then
        let cp := N.lor (N.shiftl (u_cp s) 6) (N.land b 0x3F) in
        match n with
        | O => (code_units cp, utf8_idle)
        | _ => ([], {| u_cp := cp; u_needed := n;
                       u_lower := 0x80; u_upper := 0xBF |})
        end
      else
        (* the open sequence is ill-formed; the byte is read again *)
        let '(out, s') := utf8_lead b in (REPLACEMENT :: out, s')
  end.

Fixpoint utf8_run (s : Utf8State) (bs : list N) : jsstring :=
  match bs with
  | [] => match u_needed s with O => [] | S _ => [REPLACEMENT] end
  | b :: bs' => let '(out, s') := utf8_step s b in out ++ utf8_run s' bs'
  end.

Definition toString_utf8 (chunk : list byte) : jsstring :=
  utf8_run utf8_idle (map Byte.to_N chunk).

(** ** [String.prototype.split(/\n/)] and [String.prototype.trim] *)

Definition LF : N := 10.

(** [s.split(/\n/)]: the pieces between line feeds; never empty. *)
Fixpoint split_nl (s : jsstring) : list jsstring :=
  match s with
  | [] => [[]]
  | c :: s' =>
      if c =? LF then [] :: split_nl s'
      else match split_nl s' with
           | p :: ps => (c :: p) :: ps
           | [] => [[c]]
           end
  end.

(** White space and line terminators of ECMAScript, as [trim] strips them. *)
Definition is_js_space (c : N) : bool :=
  (c =? 9) || (c =? 10) || (c =? 11) || (c =? 12) || (c =? 13) || (c =? 32)
  || (c =? 0xA0) || (c =? 0x1680) || ((0x2000 <=? c) && (c <=? 0x200A))
  || (c =? 0x2028) || (c =? 0x2029) || (c =? 0x202F) || (c =? 0x205F)
  || (c =? 0x3000) || (c =? 0xFEFF).

Fixpoint trim_start (s : jsstring) : jsstring :=
  match s with
  | c :: s' => if is_js_space c then trim_start s' else s
  | [] => []
  end.

Definition trim (s : jsstring) : jsstring :=
  rev (trim_start (rev (trim_start s))).

(** The truth value of a string: the empty string is falsy. *)
Definition str_truthy (s : jsstring) : bool :=
  match s with [] => false | _ => true end.

(** ** JavaScript values *)

(** Numbers are carried as opaque payload; the ones the source writes
    ([-32601], [-32603]) are integers. *)
Inductive jsval :=
| VUndefined
| VNull
| VBool (b : bool)
| VNum (n : Z)
| VStr (s : jsstring)
| VArr (items : list jsval)
| VObj (props : list (jsstring * jsval)).

(** An exception value: [new Error(message)], or the [TypeError] the engine
    raises. *)
Inductive JsError :=
| Error (message : jsstring)
| TypeError (message : jsstring).

Definition error_message (e : JsError) : jsstring :=
  match e with Error m => m | TypeError m => m end.

(** How a promise ends. *)
Inductive Outcome :=
| Resolved (v : jsval)
| Rejected (e : JsError).

(** Own properties of an object literal, in insertion order. *)
Fixpoint lookup_prop (k : jsstring) (ps : list (jsstring * jsval)) : option jsval :=
  match ps with
  | [] => None
  | (k', v) :: ps' => if decide (k' = k) then Some v else lookup_prop k ps'
  end.

Fixpoint set_prop (k : jsstring) (v : jsval) (ps : list (jsstring * jsval))
  : list (jsstring * jsval) :=
  match ps with
  | [] => [(k, v)]
  | (k', v') :: ps' =>
      if decide (k' = k) then (k, v) :: ps' else (k', v') :: set_prop k v ps'
  end.

(** [{...a, ...b}] *)
Definition spread (a b : list (jsstring * jsval)) : list (jsstring * jsval) :=
  fold_left (fun acc kv => set_prop (fst kv) (snd kv) acc) b a.

(** [v.k] for a receiver that is neither [null] nor [undefined], and a key
    that no prototype defines (the source reads [id], [method], [params],
    [result], [error], [code], [message], [tools]). *)
Definition get (v : jsval) (k : string) : jsval :=
  match v with
  | VObj ps => default VUndefined (lookup_prop (js k) ps)
  | _ => VUndefined
  end.

(** [v?.k] *)
Definition opt_get (v : jsval) (k : string) : jsval :=
  match v with
  | VUndefined | VNull => VUndefined
  | _ => get v k
  end.

(** [a ?? b] *)
Definition nullish (a b : jsval) : jsval :=
  match a with
  | VUndefined | VNull => b
  | _ => a
  end.

(** ['k' in v]: [None] is the [TypeError] that [in] raises on a primitive.
    An array has none of the keys the source asks for. *)
Definition has_in (k : string) (v : jsval) : option bool :=
  match v with
  | VObj ps => Some (bool_decide (is_Some (lookup_prop (js k) ps)))
  | VArr _ => Some false
  | _ => None
  end.

(** Truthiness, as [if (v)] tests it. *)
Definition truthy (v : jsval) : bool :=
  match v with
  | VUndefined | VNull => false
  | VBool b => b
  | VNum n => negb (n =? 0)%Z
  | VStr s => str_truthy s
  | VArr _ | VObj _ => true
  end.

(** [v === 'literal'] *)
Definition strict_eq_str (v : jsval) (s : string) : bool :=
  match v with
  | VStr t => bool_decide (t = js s)
  | _ => false
  end.

(** A value used as the key of a [Map] whose keys are strings finds an entry
    only when it is a string. *)
Definition msg_key (v : jsval) : option jsstring :=
  match v with
  | VStr s => Some s
  | _ => None
  end.

(** An object literal with string keys. *)
Definition obj (ps : list (string * jsval)) : jsval :=
  VObj (map (fun kv => (js (fst kv), snd kv)) ps).

Definition str (s : string) : jsval := VStr (js s).

(** ** The builtins the classes rely on *)

Class Runtime := {
  (** [JSON.parse]; [None] when it throws [SyntaxError]. *)
  JSON_parse : jsstring -> option jsval;
  (** [JSON.stringify] of an object. *)
  JSON_stringify : jsval -> jsstring;
  (** String conversion of a value that is not a string, when the
      conversion does not throw (see [converts]). *)
  ToString : jsval -> jsstring;
  (** The value of the [k]-th call of [uuid()] made by client [c]. *)
  uuid : nat -> nat -> jsstring;
  process_env : list (jsstring * jsval);
  (** [path.join(os.tmpdir(), 'mcp-sessions', sessionId)] *)
  session_dir : jsstring -> jsstring
}.

(** The string of a substitution [${v}] of a template literal whose
    conversion does not throw. *)
Definition tpl `{Runtime} (v : jsval) : jsstring :=
  match v with
  | VStr s => s
  | _ => ToString v
  end.

(** String conversion can throw.  No value out of [JSON.parse] is callable:
    on an object with an own property [toString] the conversion skips that
    property, gets the object itself from [Object.prototype.valueOf] and
    ends in [TypeError]; an object without one is converted by
    [Object.prototype.toString].  An array is converted by joining the
    conversions of its elements, and throws when one of them does. *)
Fixpoint converts (v : jsval) : bool :=
  match v with
  | VObj ps => negb (bool_decide (is_Some (lookup_prop (js "toString") ps)))
  | VArr items => forallb converts items
  | _ => true
  end.

Definition cannot_convert : JsError :=
  TypeError (js "Cannot convert object to primitive value").

(** A substitution [${v}] of a template literal: the string, or the
    exception the conversion throws. *)
Definition template `{Runtime} (v : jsval) : jsstring + JsError :=
  if converts v then inl (tpl v) else inr cannot_convert.

(** Whether the error of a response, when there is one, has a code and a
    message that convert to strings, as the number and the string of
    [JsonRpcResponse] do. *)
Definition error_converts (res : jsval) : bool :=
  negb (truthy (get res "error"))
  || (converts (get (get res "error") "code")
      && converts (get (get res "error") "message")).

(** The callbacks [SessionManager.initializeMcpClient] hands to a client,
    each with the [sessionId] it captured. *)
Inductive Callback :=
| PromptForSession (sessionId : jsstring)
| ResourceStub (sessionId : jsstring).

(** ** [StdioMcpClient] *)

Module StdioMcpClient.

(** A response-schema validator ([ZodSchema.parse]): the parsed value, or
    the exception it throws. *)
Definition Schema := jsval -> jsval + JsError.

(** Who awaits the promise that [sendRequest] returned.  The two awaits of
    [initialize] continue inside the client; every other caller is outside. *)
Inductive Kont :=
| KCaller
| KInitHandshake
| KInitTools.

(** The closure stored in [pending]: the schema it captured and the
    continuation of the promise it settles. *)
Record PendingCall := {
  pc_schema : option Schema;
  pc_kont : Kont
}.

(** What the promise of a request is at the moment [sendRequest] returns it:
    registered under a correlation id, or already rejected. *)
Inductive Ticket :=
| Waiting (id : jsstring)
| Failed (e : JsError).

(** What the client does to the outside, in order. *)
Inductive Effect :=
| Spawned (command : jsstring) (args : list jsstring)
          (cwd : option jsstring) (env : list (jsstring * jsval))
| StdinWrite (proc : nat) (data : jsstring)
| Settled (id : jsstring) (o : Outcome)
| Invoked (cb : Callback) (req_id : jsval) (params : jsval)
| InitializeDone.

Record McpClientOptions := {
  command : jsstring;
  args : option (list jsstring);
  env : option (list (jsstring * jsval));
  workingDirectory : option jsstring;
  initCapabilities : option (list (jsstring * jsval));
  onPrompt : option Callback;
  onResourceRequest : option Callback
}.

Record Client := {
  cid : nat;                          (* which client this is *)
  opts : McpClientOptions;
  child : option nat;                 (* the process attached, if any *)
  pending : gmap jsstring PendingCall;
  buffer : jsstring;
  tools : jsval;
  initialized : bool;
  uuids : nat;                        (* calls of uuid() so far *)
  microtasks : list (Kont * Outcome); (* promise reactions not yet run *)
  effects : list Effect;              (* history of effects *)
  parsed : list jsval                 (* history of the messages parsed *)
}.

(** [new StdioMcpClient(opts)] *)
Definition new_client (c : nat) (o : McpClientOptions) : Client :=
  {| cid := c; opts := o; child := None; pending := ∅; buffer := [];
     tools := VArr []; initialized := false; uuids := 0%nat;
     microtasks := []; effects := []; parsed := [] |}.

Definition set_child (x : option nat) (st : Client) : Client :=
  {| cid := cid st; opts := opts st; child := x; pending := pending st;
     buffer := buffer st; tools := tools st; initialized := initialized st;
     uuids := uuids st; microtasks := microtasks st; effects := effects st;
     parsed := parsed st |}.

Definition set_pending (x : gmap jsstring PendingCall) (st : Client) : Client :=
  {| cid := cid st; opts := opts st; child := child st; pending := x;
     buffer := buffer st; tools := tools st; initialized := initialized st;
     uuids := uuids st; microtasks := microtasks st; effects := effects st;
     parsed := parsed st |}.

Definition set_buffer (x : jsstring) (st : Client) : Client :=
  {| cid := cid st; opts := opts st; child := child st; pending := pending st;
     buffer := x; tools := tools st; initialized := initialized st;
     uuids := uuids st; microtasks := microtasks st; effects := effects st;
     parsed := parsed st |}.

Definition set_tools (x : jsval) (st : Client) : Client :=
  {| cid := cid st; opts := opts st; child := child st; pending := pending st;
     buffer := buffer st; tools := x; initialized := initialized st;
     uuids := uuids st; microtasks := microtasks st; effects := effects st;
     parsed := parsed st |}.

Definition set_initialized (x : bool) (st : Client) : Client :=
  {| cid := cid st; opts := opts st; child := child st; pending := pending st;
     buffer := buffer st; tools := tools st; initialized := x;
     uuids := uuids st; microtasks := microtasks st; effects := effects st;
     parsed := parsed st |}.

Definition set_uuids (x : nat) (st : Client) : Client :=
  {| cid := cid st; opts := opts st; child := child st; pending := pending st;
     buffer := buffer st; tools := tools st; initialized := initialized st;
     uuids := x; microtasks := microtasks st; effects := effects st;
     parsed := parsed st |}.

Definition set_microtasks (x : list (Kont * Outcome)) (st : Client) : Client :=
  {| cid := cid st; opts := opts st; child := child st; pending := pending st;
     buffer := buffer st; tools := tools st; initialized := initialized st;
     uuids := uuids st; microtasks := x; effects := effects st;
     parsed := parsed st |}.

Definition emit (e : Effect) (st : Client) : Client :=
  {| cid := cid st; opts := opts st; child := child st; pending := pending st;
     buffer := buffer st; tools := tools st; initialized := initialized st;
     uuids := uuids st; microtasks := microtasks st;
     effects := effects st ++ [e]; parsed := parsed st |}.

Definition note_parsed (msg : jsval) (st : Client) : Client :=
  {| cid := cid st; opts := opts st; child := child st; pending := pending st;
     buffer := buffer st; tools := tools st; initialized := initialized st;
     uuids := uuids st; microtasks := microtasks st; effects := effects st;
     parsed := parsed st ++ [msg] |}.

(** A promise reaction is queued; the event loop runs it once the current
    callback has returned. *)
Definition enqueue (k : Kont) (o : Outcome) (st : Client) : Client :=
  set_microtasks (microtasks st ++ [(k, o)]) st.

(** What [processBuffer] takes for a response: a message with an [id] and
    with a [result] or an [error]. *)
Definition is_response (msg : jsval) : Prop :=
  has_in "id" msg = Some true
  /\ (has_in "result" msg = Some true \/ has_in "error" msg = Some true).

(** What it takes for a request of the child: a message with a [method] and
    an [id], and with neither [result] nor [error]. *)
Definition is_request (msg : jsval) : Prop :=
  has_in "method" msg = Some true
  /\ has_in "id" msg = Some true
  /\ has_in "result" msg = Some false
  /\ has_in "error" msg = Some false.

(** And for a notification: a [method], and none of the other three. *)
Definition is_notification (msg : jsval) : Prop :=
  has_in "method" msg = Some true
  /\ has_in "id" msg = Some false
  /\ has_in "result" msg = Some false
  /\ has_in "error" msg = Some false.

(** The branch [handleServerRequest] takes: the callback of
    [req.method === 'prompts/get' && this.opts.onPrompt], else that of
    [req.method === 'resources/read' && this.opts.onResourceRequest], else
    none. *)
Definition handler_for (method : jsval) (o : McpClientOptions) : option Callback :=
  match (if strict_eq_str method "prompts/get" then onPrompt o else None) with
  | Some cb => Some cb
  | None => if strict_eq_str method "resources/read" then onResourceRequest o else None
  end.

(** A line of the stream: not blank, and no line feed inside. *)
Definition one_line (line : jsstring) : Prop :=
  Forall (fun c => c <> LF) line /\ str_truthy (trim line) = true.

Section WithRuntime.
Context `{RT : Runtime}.

(** [start()], given what [fs.existsSync(this.opts.command)] answers.  The
    process spawned is named by the place of its spawn in the history. *)
Definition start (binary_exists : bool) (st : Client) : Client + JsError :=
  match child st with
  | Some _ => inl st
  | None =>
      if negb binary_exists then
        inr (Error (js "MCP server binary not found at path: " ++ command (opts st)))
      else
        let p := length (effects st) in
        inl (set_child (Some p)
               (emit (Spawned (command (opts st))
                              (default [] (args (opts st)))
                              (workingDirectory (opts st))
                              (spread process_env (default [] (env (opts st)))))
                     st))
  end.

(** The ['exit'] listener of the child. *)
Definition on_exit (st : Client) : Client := set_child None st.

(** [sendResponse(id, result, error)] *)
Definition sendResponse (id result error : jsval) (st : Client) : Client :=
  match child st with
  | None => st
  | Some p =>
      let res := obj [("jsonrpc", str "2.0"); ("id", id);
                      ("result", result); ("error", error)] in
      emit (StdinWrite p (JSON_stringify res ++ [LF])) st
  end.

(** [handleServerRequest(req)] up to its first [await]: a supported method
    calls the registered callback, whose promise the function then awaits;
    any other method is answered at once.  The template literal of the
    answer is inside the [try]: when the method does not convert to a
    string, the [catch] answers with the message of the exception. *)
Definition handleServerRequest (req : jsval) (st : Client) : Client :=
  match handler_for (get req "method") (opts st) with
  | Some cb => emit (Invoked cb (get req "id") (get req "params")) st
  | None =>
      (* Method not supported *)
      match template (get req "method") with
      | inl method =>
          sendResponse (get req "id") VUndefined
            (obj [("code", VNum (-32601));
                  ("message", VStr (js "Method not found: " ++ method))])
            st
      | inr error =>
          sendResponse (get req "id") VUndefined
            (obj [("code", VNum (-32603)); ("message", VStr (error_message error))])
            st
      end
  end.

(** The rest of [handleServerRequest], run when the promise of the callback
    settles: the result is sent back, a rejection becomes error [-32603]. *)
Definition reply_inbound (req_id : jsval) (o : Outcome) (st : Client) : Client :=
  match o with
  | Resolved result => sendResponse req_id result VUndefined st
  | Rejected error =>
      sendResponse req_id VUndefined
        (obj [("code", VNum (-32603)); ("message", VStr (error_message error))])
        st
  end.

(** The closure [sendRequest] stores in [pending], applied to a response:
    how it settles the promise, or the exception it throws.  The template
    literal of the error is evaluated before [reject] is called and outside
    any [try]: when the code or the message does not convert to a string,
    the closure throws and the promise is never settled. *)
Definition handler_outcome (schema : option Schema) (res : jsval) : Outcome + JsError :=
  if truthy (get res "error") then
    match template (get (get res "error") "code") with
    | inr e => inr e
    | inl code =>
        match template (get (get res "error") "message") with
        | inr e => inr e
        | inl message => inl (Rejected (Error (code ++ js ": " ++ message)))
        end
    end
  else
    inl match schema with
        | Some parse =>
            match parse (get res "result") with
            | inl v => Resolved v
            | inr e => Rejected e
            end
        | None => Resolved (get res "result")
        end.

(** [sendRequest(method, params, schema)], with the continuation [k] of the
    promise it returns. *)
Definition sendRequest (method : string) (params : jsval) (schema : option Schema)
    (k : Kont) (st : Client) : Client * Ticket :=
  match child st with
  | None =>
      (enqueue k (Rejected (Error (js "MCP process not started"))) st,
       Failed (Error (js "MCP process not started")))
  | Some p =>
      let id := uuid (cid st) (uuids st) in
      let req := obj [("jsonrpc", str "2.0"); ("id", VStr id);
                      ("method", str method); ("params", params)] in
      (emit (StdinWrite p (JSON_stringify req ++ [LF]))
         (set_pending (<[id := {| pc_schema := schema; pc_kont := k |}]> (pending st))
            (set_uuids (S (uuids st)) st)),
       Waiting id)
  end.

(** The body of the loop of [processBuffer] for one parsed message.  The
    second component is the exception that leaves the loop, if any. *)
Definition dispatch (msg : jsval) (st : Client) : Client * option JsError :=
  match has_in "id" msg, has_in "result" msg, has_in "error" msg, has_in "method" msg with
  | Some has_id, Some has_result, Some has_error, Some has_method =>
      if has_id && (has_result || has_error) then
        match msg_key (get msg "id") with
        | Some id =>
            match pending st !! id with
            | Some handler =>
                (* this.pending.delete(msg.id); handler(msg) *)
                match handler_outcome (pc_schema handler) msg with
                | inl o =>
                    (enqueue (pc_kont handler) o
                       (emit (Settled id o) (set_pending (delete id (pending st)) st)),
                     None)
                | inr e => (set_pending (delete id (pending st)) st, Some e)
                end
            | None => (st, None)
            end
        | None => (st, None)
        end
      else if has_method && negb (has_result || has_error) then
        if has_id then (handleServerRequest msg st, None)
        else if strict_eq_str (get msg "method") "tools/list" then
          (set_tools (nullish (opt_get (get msg "params") "tools") (VArr [])) st, None)
        else (st, None)
      else (st, None)
  | _, _, _, _ =>
      (st, Some (TypeError (js "Cannot use 'in' operator to search for 'id' in "
                            ++ tpl msg)))
  end.

(** The loop of [processBuffer] over the complete lines. *)
Fixpoint process_parts (parts : list jsstring) (st : Client) : Client * option JsError :=
  match parts with
  | [] => (st, None)
  | raw :: rest =>
      if negb (str_truthy (trim raw)) then process_parts rest st
      else match JSON_parse raw with
           | None => process_parts rest st       (* Failed to parse MCP chunk *)
           | Some msg =>
               match dispatch msg (note_parsed msg st) with
               | (st', None) => process_parts rest st'
               | (st', Some e) => (st', Some e)
               end
           end
  end.

(** [processBuffer()] *)
Definition processBuffer (st : Client) : Client * option JsError :=
  let parts := split_nl (buffer st) in
  (* this.buffer = parts.pop() || '' *)
  process_parts (removelast parts) (set_buffer (List.last parts []) st).

(** [this.tools = result?.tools ?? []], then [this.initialized = true]: what
    [initialize] does once its [tools/list] request has settled. *)
Definition init_after_tools (o : Outcome) (st : Client) : Client :=
  emit InitializeDone
    (set_initialized true
       match o with
       | Resolved result => set_tools (nullish (opt_get result "tools") (VArr [])) st
       | Rejected _ => st                         (* Tool listing failed *)
       end).

(** What [initialize] does once the handshake has settled, either way. *)
Definition init_after_handshake (st : Client) : Client :=
  fst (sendRequest "tools/list" VUndefined None KInitTools st).

Definition run_microtask (t : Kont * Outcome) (st : Client) : Client :=
  match t with
  | (KCaller, _) => st
  | (KInitHandshake, _) => init_after_handshake st
  | (KInitTools, o) => init_after_tools o st
  end.

(** The longest chain of reactions a queued reaction can start. *)
Definition weight (t : Kont * Outcome) : nat :=
  match fst t with
  | KCaller => 1
  | KInitTools => 1
  | KInitHandshake => 2
  end.

Fixpoint drain (fuel : nat) (st : Client) : Client :=
  match fuel, microtasks st with
  | S fuel', t :: q => drain fuel' (run_microtask t (set_microtasks q st))
  | _, _ => st
  end.

(** The microtask checkpoint after a callback: the queue is run, first in
    first out, until it is empty. *)
Definition run_microtasks (st : Client) : Client :=
  drain (list_sum (map weight (microtasks st))) st.

(** The ['data'] listener of the child's stdout on the text of a chunk,
    then the checkpoint.  An exception leaves the listener uncaught. *)
Definition on_text (text : jsstring) (st : Client) : Client * option JsError :=
  match processBuffer (set_buffer (buffer st ++ text) st) with
  | (st', None) => (run_microtasks st', None)
  | (st', Some e) => (st', Some e)
  end.

(** [this.buffer += chunk.toString('utf8'); this.processBuffer()] *)
Definition on_data (chunk : list byte) (st : Client) : Client * option JsError :=
  on_text (toString_utf8 chunk) st.

(** Chunks delivered one after the other.  Nothing in the program handles
    an uncaught exception: the first one ends the process. *)
Fixpoint feed (chunks : list (list byte)) (st : Client) : Client * option JsError :=
  match chunks with
  | [] => (st, None)
  | c :: cs =>
      match on_data c st with
      | (st', None) => feed cs st'
      | (st', Some e) => (st', Some e)
      end
  end.

Fixpoint feed_text (chunks : list jsstring) (st : Client) : Client * option JsError :=
  match chunks with
  | [] => (st, None)
  | c :: cs =>
      match on_text c st with
      | (st', None) => feed_text cs st'
      | (st', Some e) => (st', Some e)
      end
  end.

(** [initialize()], given what [fs.existsSync] answers: up to the first
    [await], then the checkpoint.  [Some e] is the rejection of the promise
    when [start] throws. *)
Definition initialize (binary_exists : bool) (st : Client) : Client * option JsError :=
  if initialized st then (st, None)
  else
    match start binary_exists st with
    | inr e => (st, Some e)
    | inl st1 =>
        let capabilities :=
          VObj (set_prop (js "resources")
                  (match onResourceRequest (opts st) with
                   | Some _ => obj [("subscribe", VBool false)]
                   | None => VUndefined
                   end)
                  (set_prop (js "prompts")
                     (match onPrompt (opts st) with
                      | Some _ => obj []
                      | None => VUndefined
                      end)
                     (default [] (initCapabilities (opts st))))) in
        let params :=
          obj [("clientInfo", obj [("name", str "mcp-admin-agent"); ("version", str "0.1.0")]);
               ("capabilities", capabilities)] in
        (run_microtasks (fst (sendRequest "initialize" params None KInitHandshake st1)), None)
    end.

(** [listTools()] *)
Definition listTools (st : Client) : jsval := tools st.

(** [callTool(name, args)] *)
Definition callTool (name : jsval) (args : jsval) (st : Client) : Client * Ticket :=
  let '(st', t) :=
    sendRequest "tools/call" (obj [("name", name); ("arguments", args)]) None KCaller st in
  (run_microtasks st', t).

End WithRuntime.
End StdioMcpClient.

(** ** [Map] and [Set] in insertion order *)

Module JsMap.
Section Defs.
Context {K V : Type} `{EqDecision K}.

Fixpoint get (k : K) (m : list (K * V)) : option V :=
  match m with
  | [] => None
  | (k', v) :: m' => if decide (k' = k) then Some v else get k m'
  end.

(** [m.set(k, v)]: an existing key keeps its place. *)
Fixpoint set (k : K) (v : V) (m : list (K * V)) : list (K * V) :=
  match m with
  | [] => [(k, v)]
  | (k', v') :: m' =>
      if decide (k' = k) then (k, v) :: m' else (k', v') :: set k v m'
  end.

Fixpoint delete (k : K) (m : list (K * V)) : list (K * V) :=
  match m with
  | [] => []
  | (k', v') :: m' =>
      if decide (k' = k) then delete k m' else (k', v') :: delete k m'
  end.

Definition keys (m : list (K * V)) : list K := map fst m.

End Defs.
End JsMap.

Module JsSet.
Section Defs.
Context {K : Type} `{EqDecision K}.

Definition add (k : K) (s : list K) : list K :=
  if bool_decide (k ∈ s) then s else s ++ [k].

Definition delete (k : K) (s : list K) : list K :=
  filter (fun k' => k' ≠ k) s.

End Defs.
End JsSet.

(** ** [SessionManager] *)

Module SessionManager.
Import StdioMcpClient.

Record Config := {
  environmentId : jsval;
  clientId : jsval;
  region : jsval;
  topLevelDomain : jsval
}.

(** An entry of [promptResolvers]: [resolve] and [reject] are those of one
    promise, [timeout] is the handle [setTimeout] returned. *)
Record PromptResolver := {
  promise : nat;
  timeout : nat
}.

Record UserSession := {
  sessionId : jsstring;
  mcpClient : option nat;                          (* reference into [clients] *)
  wsConnections : list nat;                        (* references into [sockets] *)
  lastActivity : Z;
  promptResolvers : list (jsstring * PromptResolver);
  workDir : jsstring;
  pingoneConfig : option Config
}.

(** A [WebSocket] as the manager sees it. *)
Record WebSocket := {
  readyState : nat;                  (* 0 CONNECTING, 1 OPEN, 2 CLOSING, 3 CLOSED *)
  send_throws : bool;                (* whether [send] raises *)
  sent : list jsstring;              (* what [send] was given *)
  closes : list (Z * jsstring)       (* the calls of [close] *)
}.

Definition OPEN : nat := 1.

(** The callback given to [setTimeout], with what it captured. *)
Inductive Timer :=
| PromptTimeout (session : nat) (promptId : jsstring) (promise : nat) (delay : Z)
| LoginTimeout (login : nat) (delay : Z).

(** A call of [initializeMcpClient] suspended at
    [await mcpClient.initialize()], with what it captured. *)
Record Configuring := {
  cf_client : nat;
  cf_session : nat;
  cf_sessionId : jsstring;
  cf_config : Config
}.

Record Manager := {
  mcpOptions : McpClientOptions;
  sessions : list (jsstring * nat);       (* [Map<string, UserSession>] *)
  store : list UserSession;               (* the session objects, by reference *)
  clients : list Client;                  (* every client constructed *)
  sockets : list WebSocket;
  promises : list (option Outcome);       (* the promises of prompts *)
  timers : gmap nat Timer;                (* the timeouts that are armed *)
  timer_count : nat;
  logins : list (jsstring * list (jsstring * jsval));  (* login processes spawned: cwd, env *)
  configuring : list Configuring;
  awaiting : list (nat * nat * jsval);    (* prompt promise, client, request id:
                                             the calls of [handleServerRequest]
                                             suspended on a prompt *)
  cleanupInterval : bool;                 (* whether the reaper is scheduled *)
  made_dirs : list jsstring
}.

Definition IDLE_TIMEOUT : Z := 30 * 60 * 1000.

(** [new SessionManager(mcpOptions)] *)
Definition new_manager (o : McpClientOptions) : Manager :=
  {| mcpOptions := o; sessions := []; store := []; clients := []; sockets := [];
     promises := []; timers := ∅; timer_count := 0%nat; logins := [];
     configuring := []; awaiting := []; cleanupInterval := true; made_dirs := [] |}.

Definition set_sessions (x : list (jsstring * nat)) (m : Manager) : Manager :=
  {| mcpOptions := mcpOptions m; sessions := x; store := store m;
     clients := clients m; sockets := sockets m; promises := promises m;
     timers := timers m; timer_count := timer_count m; logins := logins m;
     configuring := configuring m; awaiting := awaiting m;
     cleanupInterval := cleanupInterval m;
     made_dirs := made_dirs m |}.

Definition set_store (x : list UserSession) (m : Manager) : Manager :=
  {| mcpOptions := mcpOptions m; sessions := sessions m; store := x;
     clients := clients m; sockets := sockets m; promises := promises m;
     timers := timers m; timer_count := timer_count m; logins := logins m;
     configuring := configuring m; awaiting := awaiting m;
     cleanupInterval := cleanupInterval m;
     made_dirs := made_dirs m |}.

Definition set_clients (x : list Client) (m : Manager) : Manager :=
  {| mcpOptions := mcpOptions m; sessions := sessions m; store := store m;
     clients := x; sockets := sockets m; promises := promises m;
     timers := timers m; timer_count := timer_count m; logins := logins m;
     configuring := configuring m; awaiting := awaiting m;
     cleanupInterval := cleanupInterval m;
     made_dirs := made_dirs m |}.

Definition set_sockets (x : list WebSocket) (m : Manager) : Manager :=
  {| mcpOptions := mcpOptions m; sessions := sessions m; store := store m;
     clients := clients m; sockets := x; promises := promises m;
     timers := timers m; timer_count := timer_count m; logins := logins m;
     configuring := configuring m; awaiting := awaiting m;
     cleanupInterval := cleanupInterval m;
     made_dirs := made_dirs m |}.

Definition set_promises (x : list (option Outcome)) (m : Manager) : Manager :=
  {| mcpOptions := mcpOptions m; sessions := sessions m; store := store m;
     clients := clients m; sockets := sockets m; promises := x;
     timers := timers m; timer_count := timer_count m; logins := logins m;
     configuring := configuring m; awaiting := awaiting m;
     cleanupInterval := cleanupInterval m;
     made_dirs := made_dirs m |}.

Definition set_timers (x : gmap nat Timer) (n : nat) (m : Manager) : Manager :=
  {| mcpOptions := mcpOptions m; sessions := sessions m; store := store m;
     clients := clients m; sockets := sockets m; promises := promises m;
     timers := x; timer_count := n; logins := logins m;
     configuring := configuring m; awaiting := awaiting m;
     cleanupInterval := cleanupInterval m;
     made_dirs := made_dirs m |}.

Definition set_logins (x : list (jsstring * list (jsstring * jsval))) (m : Manager) : Manager :=
  {| mcpOptions := mcpOptions m; sessions := sessions m; store := store m;
     clients := clients m; sockets := sockets m; promises := promises m;
     timers := timers m; timer_count := timer_count m; logins := x;
     configuring := configuring m; awaiting := awaiting m;
     cleanupInterval := cleanupInterval m;
     made_dirs := made_dirs m |}.

Definition set_configuring (x : list Configuring) (m : Manager) : Manager :=
  {| mcpOptions := mcpOptions m; sessions := sessions m; store := store m;
     clients := clients m; sockets := sockets m; promises := promises m;
     timers := timers m; timer_count := timer_count m; logins := logins m;
     configuring := x; awaiting := awaiting m; cleanupInterval := cleanupInterval m;
     made_dirs := made_dirs m |}.

Definition set_awaiting (x : list (nat * nat * jsval)) (m : Manager) : Manager :=
  {| mcpOptions := mcpOptions m; sessions := sessions m; store := store m;
     clients := clients m; sockets := sockets m; promises := promises m;
     timers := timers m; timer_count := timer_count m; logins := logins m;
     configuring := configuring m; awaiting := x;
     cleanupInterval := cleanupInterval m; made_dirs := made_dirs m |}.

Definition set_cleanupInterval (x : bool) (m : Manager) : Manager :=
  {| mcpOptions := mcpOptions m; sessions := sessions m; store := store m;
     clients := clients m; sockets := sockets m; promises := promises m;
     timers := timers m; timer_count := timer_count m; logins := logins m;
     configuring := configuring m; awaiting := awaiting m; cleanupInterval := x;
     made_dirs := made_dirs m |}.

Definition set_made_dirs (x : list jsstring) (m : Manager) : Manager :=
  {| mcpOptions := mcpOptions m; sessions := sessions m; store := store m;
     clients := clients m; sockets := sockets m; promises := promises m;
     timers := timers m; timer_count := timer_count m; logins := logins m;
     configuring := configuring m; awaiting := awaiting m;
     cleanupInterval := cleanupInterval m;
     made_dirs := x |}.

(** Updates of one field of a session object. *)
Definition with_mcpClient (x : option nat) (s : UserSession) : UserSession :=
  {| sessionId := sessionId s; mcpClient := x; wsConnections := wsConnections s;
     lastActivity := lastActivity s; promptResolvers := promptResolvers s;
     workDir := workDir s; pingoneConfig := pingoneConfig s |}.

Definition with_wsConnections (x : list nat) (s : UserSession) : UserSession :=
  {| sessionId := sessionId s; mcpClient := mcpClient s; wsConnections := x;
     lastActivity := lastActivity s; promptResolvers := promptResolvers s;
     workDir := workDir s; pingoneConfig := pingoneConfig s |}.

Definition with_lastActivity (x : Z) (s : UserSession) : UserSession :=
  {| sessionId := sessionId s; mcpClient := mcpClient s;
     wsConnections := wsConnections s; lastActivity := x;
     promptResolvers := promptResolvers s; workDir := workDir s;
     pingoneConfig := pingoneConfig s |}.

Definition with_promptResolvers (x : list (jsstring * PromptResolver)) (s : UserSession)
  : UserSession :=
  {| sessionId := sessionId s; mcpClient := mcpClient s;
     wsConnections := wsConnections s; lastActivity := lastActivity s;
     promptResolvers := x; workDir := workDir s;
     pingoneConfig := pingoneConfig s |}.

Definition with_pingoneConfig (x : option Config) (s : UserSession) : UserSession :=
  {| sessionId := sessionId s; mcpClient := mcpClient s;
     wsConnections := wsConnections s; lastActivity := lastActivity s;
     promptResolvers := promptResolvers s; workDir := workDir s;
     pingoneConfig := x |}.

(** A mutation of the session object behind a reference. *)
Definition update_session (r : nat) (f : UserSession -> UserSession) (m : Manager) : Manager :=
  match store m !! r with
  | Some s => set_store (<[r := f s]> (store m)) m
  | None => m
  end.

(** [this.sessions.get(sessionId)], with the object behind the reference. *)
Definition find_session (sid : jsstring) (m : Manager) : option (nat * UserSession) :=
  match JsMap.get sid (sessions m) with
  | Some r => match store m !! r with
              | Some s => Some (r, s)
              | None => None
              end
  | None => None
  end.

(** [resolve(v)] and [reject(e)]: a promise settles once. *)
Definition settle (p : nat) (o : Outcome) (m : Manager) : Manager :=
  match promises m !! p with
  | Some None => set_promises (<[p := Some o]> (promises m)) m
  | _ => m
  end.

(** [new Promise(...)]: the reference of the new promise is [length (promises m)]. *)
Definition new_promise (m : Manager) : Manager :=
  set_promises (promises m ++ [None]) m.

(** [setTimeout(cb, delay)]: the handle is [timer_count m]. *)
Definition setTimeout (cb : Timer) (m : Manager) : Manager :=
  set_timers (<[timer_count m := cb]> (timers m)) (S (timer_count m)) m.

Definition clearTimeout (t : nat) (m : Manager) : Manager :=
  set_timers (delete t (timers m)) (timer_count m) m.

Definition with_sent (data : jsstring) (w : WebSocket) : WebSocket :=
  {| readyState := readyState w; send_throws := send_throws w;
     sent := sent w ++ [data]; closes := closes w |}.

(** [ws.close(code, reason)] starts the closing handshake of a socket that
    is not closed yet. *)
Definition with_close (code : Z) (reason : jsstring) (w : WebSocket) : WebSocket :=
  {| readyState := (if (readyState w <? 2)%nat then 2%nat else readyState w);
     send_throws := send_throws w; sent := sent w;
     closes := closes w ++ [(code, reason)] |}.

(** How far an [async] method got when it gave control back. *)
Inductive Async :=
| Returned
| Threw (e : JsError)
| Suspended.

Section WithRuntime.
Context `{RT : Runtime}.

(** [getOrCreateSession(sessionId)], at time [now]; [dir_exists] is what
    [fs.existsSync(sessionWorkDir)] answers.  The result is the reference of
    the session object. *)
Definition getOrCreateSession (sid : jsstring) (now : Z) (dir_exists : bool) (m : Manager)
  : Manager * nat :=
  match find_session sid m with
  | Some (r, _) => (update_session r (with_lastActivity now) m, r)
  | None =>
      let sessionWorkDir := session_dir sid in
      let m1 := if dir_exists then m
                else set_made_dirs (made_dirs m ++ [sessionWorkDir]) m in
      let r := length (store m1) in
      let session :=
        {| sessionId := sid; mcpClient := None; wsConnections := [];
           lastActivity := now; promptResolvers := [];
           workDir := sessionWorkDir; pingoneConfig := None |} in
      (set_sessions (JsMap.set sid r (sessions m1))
         (set_store (store m1 ++ [session]) m1), r)
  end.

(** The four variables [initializeMcpClient] and [triggerLogin] put in the
    environment of the processes they spawn. *)
Definition pingone_env (config : Config) : list (jsstring * jsval) :=
  [(js "PINGONE_MCP_ENVIRONMENT_ID", environmentId config);
   (js "PINGONE_AUTHORIZATION_CODE_CLIENT_ID", clientId config);
   (js "PINGONE_REGION_CODE", region config);
   (js "PINGONE_TOP_LEVEL_DOMAIN", topLevelDomain config)].

(** [initializeMcpClient(sessionId, config)] up to
    [await mcpClient.initialize()]. *)
Definition initializeMcpClient (sid : jsstring) (config : Config) (binary_exists : bool)
    (m : Manager) : Manager * Async :=
  match find_session sid m with
  | None => (m, Threw (Error (js "Session " ++ sid ++ js " not found")))
  | Some (r, session) =>
      match mcpClient session with
      | Some _ => (m, Returned)                  (* MCP client already initialized *)
      | None =>
          let m1 := update_session r (with_pingoneConfig (Some config)) m in
          let mcpEnv := spread (default [] (env (mcpOptions m))) (pingone_env config) in
          let c := length (clients m1) in
          let mcpClient :=
            new_client c
              {| command := command (mcpOptions m);
                 args := args (mcpOptions m);
                 env := Some mcpEnv;
                 workingDirectory := Some (workDir session);
                 initCapabilities := initCapabilities (mcpOptions m);
                 onPrompt := Some (PromptForSession sid);
                 onResourceRequest := Some (ResourceStub sid) |} in
          match initialize binary_exists mcpClient with
          | (client', Some e) => (set_clients (clients m1 ++ [client']) m1, Threw e)
          | (client', None) =>
              (set_configuring
                 (configuring m1 ++
                    [{| cf_client := c; cf_session := r;
                        cf_sessionId := sid; cf_config := config |}])
                 (set_clients (clients m1 ++ [client']) m1),
               Suspended)
          end
      end
  end.

(** [triggerLogin(sessionId, config)] up to the promise it returns. *)
Definition triggerLogin (sid : jsstring) (config : Config) (m : Manager) : Manager * Async :=
  match find_session sid m with
  | None => (m, Threw (Error (js "Session " ++ sid ++ js " not found")))
  | Some (_, session) =>
      let login := length (logins m) in
      let env := spread process_env
                   (pingone_env config ++
                    [(js "PINGONE_AUTHORIZATION_CODE_SCOPES", str "openid")]) in
      (setTimeout (LoginTimeout login (5 * 60 * 1000))
         (set_logins (logins m ++ [(workDir session, env)]) m),
       Suspended)
  end.

(** The rest of [initializeMcpClient], run when [mcpClient.initialize()] has
    resolved: the client is stored in the session object the call captured,
    then the login is triggered. *)
Definition resume_initializeMcpClient (cf : Configuring) (m : Manager) : Manager * Async :=
  triggerLogin (cf_sessionId cf) (cf_config cf)
    (update_session (cf_session cf) (with_mcpClient (Some (cf_client cf))) m).

(** The loop of [handlePromptForSession] over [session.wsConnections]. *)
Fixpoint broadcast (promptMsg : jsstring) (conns : list nat) (sentCount : nat) (m : Manager)
  : Manager * nat :=
  match conns with
  | [] => (m, sentCount)
  | ws :: rest =>
      match sockets m !! ws with
      | Some w =>
          if (readyState w =? OPEN)%nat then
            if send_throws w then broadcast promptMsg rest sentCount m
            else broadcast promptMsg rest (S sentCount)
                   (set_sockets (<[ws := with_sent promptMsg w]> (sockets m)) m)
          else broadcast promptMsg rest sentCount m
      | None => broadcast promptMsg rest sentCount m
      end
  end.

(** The prompt id at time [now]: [`${sessionId}-${Date.now()}`]. *)
Definition prompt_id (sid : jsstring) (now : Z) : jsstring :=
  sid ++ js "-" ++ js (pretty now).

(** [handlePromptForSession(sessionId, params)] at time [now].  The result
    is the reference of the promise it returns. *)
Definition handlePromptForSession (sid : jsstring) (params : jsval) (now : Z) (m : Manager)
  : Manager * nat :=
  let p := length (promises m) in
  let m0 := new_promise m in
  match find_session sid m0 with
  | None =>
      (settle p (Rejected (Error (js "Session " ++ sid ++ js " not found for prompt handling")))
         m0, p)
  | Some (r, session) =>
      let promptId := prompt_id sid now in
      let t := timer_count m0 in
      let m1 := setTimeout (PromptTimeout r promptId p 120000) m0 in
      let m2 := update_session r
                  (fun s => with_promptResolvers
                              (JsMap.set promptId {| promise := p; timeout := t |}
                                 (promptResolvers s)) s) m1 in
      let promptMsg :=
        JSON_stringify (obj [("type", str "prompt"); ("id", VStr promptId);
                             ("params", params)]) in
      let '(m3, sentCount) := broadcast promptMsg (wsConnections session) 0 m2 in
      if (sentCount =? 0)%nat then
        (settle p (Rejected (Error (js "No connected clients to handle prompt")))
           (update_session r
              (fun s => with_promptResolvers (JsMap.delete promptId (promptResolvers s)) s)
              (clearTimeout t m3)),
         p)
      else (m3, p)
  end.

(** A timeout that is armed fires. *)
Definition fire_timer (t : nat) (m : Manager) : Manager :=
  match timers m !! t with
  | Some (PromptTimeout r promptId p _) =>
      settle p (Rejected (Error (js "Prompt timeout - no client response")))
        (update_session r
           (fun s => with_promptResolvers (JsMap.delete promptId (promptResolvers s)) s)
           (clearTimeout t m))
  | Some (LoginTimeout _ _) => clearTimeout t m
  | None => m
  end.

(** [handlePromptResponse(sessionId, promptId, response)] *)
Definition handlePromptResponse (sid promptId : jsstring) (response : jsval) (m : Manager)
  : Manager :=
  match find_session sid m with
  | None => m                                    (* Prompt response for unknown session *)
  | Some (r, session) =>
      match JsMap.get promptId (promptResolvers session) with
      | Some resolver =>
          settle (promise resolver) (Resolved response)
            (update_session r
               (fun s => with_promptResolvers (JsMap.delete promptId (promptResolvers s)) s)
               (clearTimeout (timeout resolver) m))
      | None => m                                (* Unknown prompt ID *)
      end
  end.

(** [addWebSocketConnection(sessionId, ws)] at time [now] *)
Definition addWebSocketConnection (sid : jsstring) (ws : nat) (now : Z) (m : Manager) : Manager :=
  match find_session sid m with
  | Some (r, _) =>
      update_session r
        (fun s => with_lastActivity now (with_wsConnections (JsSet.add ws (wsConnections s)) s)) m
  | None => m
  end.

(** [removeWebSocketConnection(sessionId, ws)] at time [now] *)
Definition removeWebSocketConnection (sid : jsstring) (ws : nat) (now : Z) (m : Manager)
  : Manager :=
  match find_session sid m with
  | Some (r, _) =>
      update_session r
        (fun s => with_lastActivity now
                    (with_wsConnections (JsSet.delete ws (wsConnections s)) s)) m
  | None => m
  end.

Definition reject_prompt (m : Manager) (entry : jsstring * PromptResolver) : Manager :=
  settle (promise (snd entry)) (Rejected (Error (js "Session terminated")))
    (clearTimeout (timeout (snd entry)) m).

Definition close_socket (m : Manager) (ws : nat) : Manager :=
  match sockets m !! ws with
  | Some w => set_sockets (<[ws := with_close 1000 (js "Session terminated") w]> (sockets m)) m
  | None => m
  end.

(** [destroySession(sessionId)] *)
Definition destroySession (sid : jsstring) (m : Manager) : Manager :=
  match find_session sid m with
  | None => m
  | Some (r, session) =>
      let m1 := fold_left reject_prompt (promptResolvers session) m in
      let m2 := update_session r (with_promptResolvers []) m1 in
      let m3 := fold_left close_socket (wsConnections session) m2 in
      let m4 := update_session r (with_wsConnections []) m3 in
      set_sessions (JsMap.delete sid (sessions m4)) m4
  end.

(** The test of the reaper on one entry of [sessions]. *)
Definition reapable (now : Z) (session : UserSession) : bool :=
  (now - lastActivity session >? IDLE_TIMEOUT)%Z
  && (length (wsConnections session) =? 0)%nat.

Definition reap_entry (now : Z) (m : Manager) (entry : jsstring * nat) : Manager :=
  match store m !! snd entry with
  | Some session => if reapable now session then destroySession (fst entry) m else m
  | None => m
  end.

(** Whether the reaper, at time [now], destroys the session behind [r]. *)
Definition reaped (now : Z) (m : Manager) (r : nat) : bool :=
  match store m !! r with
  | Some session => reapable now session
  | None => false
  end.

(** [cleanupIdleSessions()] at time [now] *)
Definition cleanupIdleSessions (now : Z) (m : Manager) : Manager :=
  fold_left (reap_entry now) (sessions m) m.

(** [shutdown()] *)
Definition shutdown (m : Manager) : Manager :=
  fold_left (fun m sid => destroySession sid m) (JsMap.keys (sessions m))
    (set_cleanupInterval false m).

(** [getSessionMcpClient(sessionId)] *)
Definition getSessionMcpClient (sid : jsstring) (m : Manager) : option nat :=
  match find_session sid m with
  | Some (_, session) => mcpClient session
  | None => None
  end.

(** [touchSession(sessionId)] at time [now] *)
Definition touchSession (sid : jsstring) (now : Z) (m : Manager) : Manager :=
  match find_session sid m with
  | Some (r, _) => update_session r (with_lastActivity now) m
  | None => m
  end.

(** The server processes started for the clients of the manager. *)
Definition is_spawn (e : Effect) : bool :=
  match e with
  | Spawned _ _ _ _ => true
  | _ => false
  end.

Definition spawn_count (m : Manager) : nat :=
  list_sum (map (fun c => length (filter (fun e => is_spawn e = true) (effects c))) (clients m)).

(** *** The callbacks, wired to the clients

    The manager gives each client two callbacks and awaits its
    [initialize()].  What follows runs a callback of a client and then what
    the manager attached to it.  Inside one checkpoint the reply to a
    resource request goes first (its promise is resolved when the client
    awaits it), the replies to prompts follow in the order of the prompts. *)

Definition update_client (c : nat) (f : Client -> Client) (m : Manager) : Manager :=
  match clients m !! c with
  | Some st => set_clients (<[c := f st]> (clients m)) m
  | None => m
  end.

(** The calls of [initializeMcpClient] that await the [initialize()] of
    client [c] go on. *)
Definition resume_configuring (c : nat) (m : Manager) : Manager :=
  fold_left (fun m cf => fst (resume_initializeMcpClient cf m))
    (filter (fun cf => cf_client cf = c) (configuring m))
    (set_configuring (filter (fun cf => cf_client cf <> c) (configuring m)) m).

(** What the manager does for the effects [es] of client [c], at time [now]:
    [onPrompt] is [handlePromptForSession], whose promise the client awaits;
    [onResourceRequest] resolves with [{ contents: [] }]. *)
Fixpoint react (c : nat) (now : Z) (es : list Effect) (m : Manager) : Manager :=
  match es with
  | [] => m
  | Invoked (PromptForSession sid) req_id params :: es' =>
      let '(m1, p) := handlePromptForSession sid params now m in
      react c now es' (set_awaiting (awaiting m1 ++ [(p, c, req_id)]) m1)
  | Invoked (ResourceStub _) req_id _ :: es' =>
      react c now es'
        (update_client c (reply_inbound req_id (Resolved (obj [("contents", VArr [])]))) m)
  | InitializeDone :: es' => react c now es' (resume_configuring c m)
  | _ :: es' => react c now es' m
  end.

Definition prompt_outcome (m : Manager) (a : nat * nat * jsval) : option Outcome :=
  match promises m !! fst (fst a) with
  | Some (Some o) => Some o
  | _ => None
  end.

(** The checkpoint of the manager: every call of [handleServerRequest]
    whose prompt promise has settled sends its reply. *)
Definition checkpoint (m : Manager) : Manager :=
  fold_left
    (fun m' a =>
       match prompt_outcome m a with
       | Some o => update_client (snd (fst a)) (reply_inbound (snd a) o) m'
       | None => m'
       end)
    (awaiting m)
    (set_awaiting (filter (fun a => prompt_outcome m a = None) (awaiting m)) m).

(** What the manager has done for the effects [es] of client [c] when an
    exception leaves the listener.  The callbacks are called inside the
    loop of [processBuffer]: every prompt asked for before the exception was
    registered and sent to the connections.  Nothing that waits for a
    microtask has run. *)
Fixpoint react_sync (c : nat) (now : Z) (es : list Effect) (m : Manager) : Manager :=
  match es with
  | [] => m
  | Invoked (PromptForSession sid) req_id params :: es' =>
      let '(m1, p) := handlePromptForSession sid params now m in
      react_sync c now es' (set_awaiting (awaiting m1 ++ [(p, c, req_id)]) m1)
  | _ :: es' => react_sync c now es' m
  end.

(** The child of client [c] writes [chunk] on its stdout, at time [now].
    The callbacks run inside the listener, the promise reactions at the
    checkpoint after it.  An exception that leaves the listener ends the
    process: no reaction is run. *)
Definition child_data (c : nat) (chunk : list byte) (now : Z) (m : Manager)
  : Manager * option JsError :=
  match clients m !! c with
  | None => (m, None)
  | Some st =>
      match on_data chunk st with
      | (st', Some e) =>
          (react_sync c now (drop (length (effects st)) (effects st'))
             (set_clients (<[c := st']> (clients m)) m),
           Some e)
      | (st', None) =>
          (checkpoint
             (react c now (drop (length (effects st)) (effects st'))
                (set_clients (<[c := st']> (clients m)) m)),
           None)
      end
  end.

(** A connection sends [{type: 'promptResponse', id, response}]. *)
Definition prompt_response (sid promptId : jsstring) (response : jsval) (m : Manager) : Manager :=
  checkpoint (handlePromptResponse sid promptId response m).

(** A timeout fires. *)
Definition timer_fires (t : nat) (m : Manager) : Manager :=
  checkpoint (fire_timer t m).

(** A connection opens for a session: [new WebSocket], then
    [addWebSocketConnection]. *)
Definition connect (sid : jsstring) (now : Z) (m : Manager) : Manager :=
  addWebSocketConnection sid (length (sockets m)) now
    (set_sockets
       (sockets m ++ [{| readyState := OPEN; send_throws := false; sent := []; closes := [] |}])
       m).

(** The calls and the events that drive a manager. *)
Inductive Op :=
| OpGetOrCreate (sid : jsstring) (now : Z) (dir_exists : bool)
| OpConfigure (sid : jsstring) (config : Config) (binary_exists : bool)
| OpChildData (c : nat) (chunk : list byte) (now : Z)
| OpChildExit (c : nat)
| OpConnect (sid : jsstring) (now : Z)
| OpDisconnect (sid : jsstring) (ws : nat) (now : Z)
| OpPromptResponse (sid promptId : jsstring) (response : jsval)
| OpTimer (t : nat)
| OpTouch (sid : jsstring) (now : Z)
| OpReap (now : Z)
| OpShutdown.

Definition exec (op : Op) (m : Manager) : Manager :=
  match op with
  | OpGetOrCreate sid now dir_exists => fst (getOrCreateSession sid now dir_exists m)
  | OpConfigure sid config binary_exists => fst (initializeMcpClient sid config binary_exists m)
  | OpChildData c chunk now => fst (child_data c chunk now m)
  | OpChildExit c => update_client c on_exit m
  | OpConnect sid now => connect sid now m
  | OpDisconnect sid ws now => removeWebSocketConnection sid ws now m
  | OpPromptResponse sid promptId response => prompt_response sid promptId response m
  | OpTimer t => timer_fires t m
  | OpTouch sid now => touchSession sid now m
  | OpReap now => checkpoint (cleanupIdleSessions now m)
  | OpShutdown => checkpoint (shutdown m)
  end.

Definition run (ops : list Op) (m : Manager) : Manager :=
  fold_left (fun m op => exec op m) ops m.

(** A step that leaves the registry and the allocation of session objects
    as they are. *)
Definition frame (m m' : Manager) : Prop :=
  sessions m' = sessions m /\ length (store m') = length (store m).

(** Whether a socket takes a message: it is open and its [send] does not
    throw. *)
Definition accepts (m : Manager) (ws : nat) : bool :=
  match sockets m !! ws with
  | Some w => (readyState w =? OPEN)%nat && negb (send_throws w)
  | None => false
  end.

(** No session object has a socket twice among its connections. *)
Definition connections_wf (m : Manager) : Prop :=
  Forall (fun s => NoDup (wsConnections s)) (store m).

(** The registry is well formed: a session id occurs once, no session
    object is registered twice, and every reference is allocated. *)
Definition registry_wf (m : Manager) : Prop :=
  NoDup (map fst (sessions m))
  /\ NoDup (map snd (sessions m))
  /\ Forall (fun e => (snd e < length (store m))%nat) (sessions m).

End WithRuntime.
End SessionManager.

(** ** A concrete runtime

    An instance of [Runtime] on which the model runs: a JSON reader and
    writer for the values of [jsval] (integer numerals only), the string
    conversion of ECMAScript, and distinct request ids. *)

Module Sample.

Definition is_json_ws (c : N) : bool :=
  (c =? 32) || (c =? 9) || (c =? 10) || (c =? 13).

Fixpoint skip_ws (s : jsstring) : jsstring :=
  match s with
  | c :: s' => if is_json_ws c then skip_ws s' else s
  | [] => []
  end.

Definition is_digit (c : N) : bool := (48 <=? c) && (c <=? 57).

Definition hex_value (c : N) : option N :=
  if is_digit c then Some (c - 48)
  else if (97 <=? c) && (c <=? 102) then Some (c - 87)
  else if (65 <=? c) && (c <=? 70) then Some (c - 55)
  else None.

(** The characters of a string literal after its opening quote. *)
Fixpoint read_string (s : jsstring) (acc : jsstring) : option (jsstring * jsstring) :=
  match s with
  | [] => None
  | c :: rest =>
      if c =? 34 then Some (rev acc, rest)
      else if c =? 92 then
        match rest with
        | e :: rest' =>
            if e =? 117 then
              match rest' with
              | h1 :: h2 :: h3 :: h4 :: rest'' =>
                  match hex_value h1, hex_value h2, hex_value h3, hex_value h4 with
                  | Some a, Some b, Some c', Some d =>
                      read_string rest'' (((a * 16 + b) * 16 + c') * 16 + d :: acc)
                  | _, _, _, _ => None
                  end
              | _ => None
              end
            else
              match (if e =? 34 then Some 34 else if e =? 92 then Some 92
                     else if e =? 47 then Some 47 else if e =? 98 then Some 8
                     else if e =? 102 then Some 12 else if e =? 110 then Some 10
                     else if e =? 114 then Some 13 else if e =? 116 then Some 9
                     else None) with
              | Some x => read_string rest' (x :: acc)
              | None => None
              end
        | [] => None
        end
      else if c <? 32 then None
      else read_string rest (c :: acc)
  end.

Fixpoint read_digits (s : jsstring) (acc : Z) : Z * jsstring :=
  match s with
  | c :: rest => if is_digit c then read_digits rest (acc * 10 + Z.of_N (c - 48))%Z
                 else (acc, s)
  | [] => (acc, [])
  end.

(** An integer numeral; a fraction or an exponent is not read. *)
Definition read_int (s : jsstring) : option (Z * jsstring) :=
  match s with
  | c :: rest =>
      if negb (is_digit c) then None
      else if (c =? 48) && (match rest with d :: _ => is_digit d | [] => false end) then None
      else
        let '(n, rest') := read_digits s 0%Z in
        match rest' with
        | d :: _ => if (d =? 46) || (d =? 101) || (d =? 69) then None else Some (n, rest')
        | [] => Some (n, rest')
        end
  | [] => None
  end.

Fixpoint starts_with (p s : jsstring) : option jsstring :=
  match p, s with
  | [], _ => Some s
  | a :: p', b :: s' => if a =? b then starts_with p' s' else None
  | _ :: _, [] => None
  end.

Fixpoint read_value (fuel : nat) (s : jsstring) : option (jsval * jsstring) :=
  match fuel with
  | O => None
  | S fuel' =>
      match skip_ws s with
      | [] => None
      | c :: rest =>
          if c =? 34 then
            match read_string rest [] with
            | Some (str, rest') => Some (VStr str, rest')
            | None => None
            end
          else if c =? 91 then
            match skip_ws rest with
            | d :: rest' => if d =? 93 then Some (VArr [], rest')
                            else read_items fuel' rest []
            | [] => None
            end
          else if c =? 123 then
            match skip_ws rest with
            | d :: rest' => if d =? 125 then Some (VObj [], rest')
                            else read_members fuel' rest []
            | [] => None
            end
          else if c =? 45 then
            match read_int rest with
            | Some (n, rest') => Some (VNum (- n), rest')
            | None => None
            end
          else if is_digit c then
            match read_int (c :: rest) with
            | Some (n, rest') => Some (VNum n, rest')
            | None => None
            end
          else
            match starts_with (js "null") (c :: rest) with
            | Some rest' => Some (VNull, rest')
            | None =>
                match starts_with (js "true") (c :: rest) with
                | Some rest' => Some (VBool true, rest')
                | None =>
                    match starts_with (js "false") (c :: rest) with
                    | Some rest' => Some (VBool false, rest')
                    | None => None
                    end
                end
            end
      end
  end
with read_items (fuel : nat) (s : jsstring) (acc : list jsval) : option (jsval * jsstring) :=
  match fuel with
  | O => None
  | S fuel' =>
      match read_value fuel' s with
      | Some (v, rest) =>
          match skip_ws rest with
          | d :: rest' =>
              if d =? 44 then read_items fuel' rest' (acc ++ [v])
              else if d =? 93 then Some (VArr (acc ++ [v]), rest')
              else None
          | [] => None
          end
      | None => None
      end
  end
with read_members (fuel : nat) (s : jsstring) (acc : list (jsstring * jsval))
  : option (jsval * jsstring) :=
  match fuel with
  | O => None
  | S fuel' =>
      match skip_ws s with
      | q :: rest =>
          if q =? 34 then
            match read_string rest [] with
            | Some (k, rest1) =>
                match skip_ws rest1 with
                | colon :: rest2 =>
                    if colon =? 58 then
                      match read_value fuel' rest2 with
                      | Some (v, rest3) =>
                          match skip_ws rest3 with
                          | d :: rest4 =>
                              if d =? 44 then read_members fuel' rest4 (set_prop k v acc)
                              else if d =? 125 then Some (VObj (set_prop k v acc), rest4)
                              else None
                          | [] => None
                          end
                      | None => None
                      end
                    else None
                | [] => None
                end
            | None => None
            end
          else None
      | [] => None
      end
  end.

Definition parse (s : jsstring) : option jsval :=
  match read_value (S (length s)) s with
  | Some (v, rest) => match skip_ws rest with [] => Some v | _ => None end
  | None => None
  end.

Definition hex_digit (n : N) : N := if n <? 10 then 48 + n else 87 + n.

Definition quote_char (c : N) : jsstring :=
  if c =? 34 then [92; 34]
  else if c =? 92 then [92; 92]
  else if c =? 10 then [92; 110]
  else if c =? 13 then [92; 114]
  else if c =? 9 then [92; 116]
  else if c =? 8 then [92; 98]
  else if c =? 12 then [92; 102]
  else if c <? 32 then js "\u00" ++ [hex_digit (c / 16); hex_digit (c mod 16)]
  else [c].

Definition quote (s : jsstring) : jsstring :=
  [34] ++ concat (map quote_char s) ++ [34].

Fixpoint join (sep : jsstring) (l : list jsstring) : jsstring :=
  match l with
  | [] => []
  | [x] => x
  | x :: l' => x ++ sep ++ join sep l'
  end.

Definition is_undefined (v : jsval) : bool :=
  match v with VUndefined => true | _ => false end.

Fixpoint stringify (v : jsval) : jsstring :=
  match v with
  | VUndefined | VNull => js "null"
  | VBool true => js "true"
  | VBool false => js "false"
  | VNum n => js (pretty n)
  | VStr s => quote s
  | VArr items => js "[" ++ join (js ",") (map stringify items) ++ js "]"
  | VObj props =>
      js "{" ++
      join (js ",")
        ((fix members (ps : list (jsstring * jsval)) : list jsstring :=
            match ps with
            | [] => []
            | (k, x) :: ps' =>
                if is_undefined x then members ps'
                else (quote k ++ js ":" ++ stringify x) :: members ps'
            end) props)
      ++ js "}"
  end.

Fixpoint to_string (v : jsval) : jsstring :=
  match v with
  | VUndefined => js "undefined"
  | VNull => js "null"
  | VBool true => js "true"
  | VBool false => js "false"
  | VNum n => js (pretty n)
  | VStr s => s
  | VArr items =>
      join (js ",")
        (map (fun x => match x with VUndefined | VNull => [] | _ => to_string x end) items)
  | VObj _ => js "[object Object]"
  end.

Definition runtime : Runtime :=
  {| JSON_parse := parse;
     JSON_stringify := stringify;
     ToString := to_string;
     uuid := fun c k => js ("req-" +:+ pretty c +:+ "-" +:+ pretty k);
     process_env := [(js "PATH", str "/usr/bin")];
     session_dir := fun sid => js "/tmp/mcp-sessions/" ++ sid |}.

End Sample.

(** ** Concrete states

    States reached by running the model on the concrete runtime; the
    instances of the theorems below are taken at them. *)

Module Scenario.
Import StdioMcpClient SessionManager.

#[local] Existing Instance Sample.runtime.

(** Octets of JSON text written with apostrophes for its double quotes. *)
Definition wire_octets (s : string) : list byte :=
  map (fun b => if Byte.to_N b =? 39 then x22 else b) (octets s).

Definition S1 : jsstring := js "S1".
Definition S2 : jsstring := js "S2".

(** The options [main] gives the manager. *)
Definition options : McpClientOptions :=
  {| command := js "/app/bin/pingone-mcp-server";
     args := Some [js "run"; js "--disable-read-only"];
     env := Some [(js "PINGONE_MCP_INTERACTIVE", str "true")];
     workingDirectory := None;
     initCapabilities := Some [(js "tools", obj [("list", VBool true); ("call", VBool true)])];
     onPrompt := None;
     onResourceRequest := None |}.

Definition config : Config :=
  {| environmentId := str "e1"; clientId := str "c1";
     region := str "NA"; topLevelDomain := str ".com" |}.

(** *** A client on its own, without callbacks *)

Definition client_new : Client := new_client 0 options.

(** after [initialize()] has sent the handshake *)
Definition client_started : Client := fst (initialize true client_new).

Definition handshake_response : jsstring :=
  wire "{'jsonrpc':'2.0','id':'req-0-0','result':{}}".

(** after the handshake response: the [tools/list] request is out *)
Definition client_listing : Client :=
  fst (on_text (handshake_response ++ [LF]) client_started).

Definition tools_response : jsstring :=
  wire "{'jsonrpc':'2.0','id':'req-0-1','result':{'tools':[{'name':'list-x'}]}}".

(** after the response to [tools/list]: [initialize()] has resolved *)
Definition client_ready : Client :=
  fst (on_text (tools_response ++ [LF]) client_listing).

Definition tools_notification : jsstring :=
  wire "{'jsonrpc':'2.0','method':'tools/list','params':{'tools':[{'name':'a'},{'name':'b'}]}}".

(** after [callTool('list-x', {})]: request [req-0-2] is outstanding *)
Definition client_calling : Client :=
  fst (callTool (str "list-x") (obj []) client_ready).

(** then a second call, [req-0-3] *)
Definition client_calling_twice : Client :=
  fst (callTool (str "list-y") (obj []) client_calling).

Definition call_response : jsstring :=
  wire "{'jsonrpc':'2.0','id':'req-0-2','result':{'items':[1,2]}}".

Definition call_response_second : jsstring :=
  wire "{'jsonrpc':'2.0','id':'req-0-3','result':{'items':[]}}".

Definition call_error : jsstring :=
  wire "{'jsonrpc':'2.0','id':'req-0-2','error':{'code':-32000,'message':'denied'}}".

(** a request of the child for a method the client does not serve *)
Definition unknown_request : jsstring :=
  wire "{'jsonrpc':'2.0','id':7,'method':'sampling/createMessage','params':{}}".

(** a message with a [method], an [id] and a [result] *)
Definition request_with_result : jsstring :=
  wire "{'jsonrpc':'2.0','id':7,'method':'sampling/createMessage','result':1}".

Definition parsed_or_null (s : jsstring) : jsval := default VNull (JSON_parse s).

(** The response to [req-0-2] whose result is the word "caf" followed by
    U+00E9, which UTF-8 writes as the two octets C3 A9; the line feed ends
    the line. *)
Definition accented_response : list byte :=
  wire_octets "{'jsonrpc':'2.0','id':'req-0-2','result':'caf"
  ++ [xc3; xa9] ++ wire_octets "'}" ++ [x0a].

(** The number of octets up to and including C3. *)
Definition inside_character : nat :=
  S (length (wire_octets "{'jsonrpc':'2.0','id':'req-0-2','result':'caf")).

(** *** A manager *)

Definition manager_new : Manager := new_manager options.

(** session [S1] exists, at time 1000 *)
Definition manager_created : Manager :=
  fst (getOrCreateSession S1 1000 false manager_new).

(** [initializeMcpClient('S1', config)] has been called and awaits *)
Definition manager_configuring : Manager :=
  fst (initializeMcpClient S1 config true manager_created).

(** the child of client 0 has answered the handshake and [tools/list] *)
Definition manager_ready : Manager :=
  fst (child_data 0 (wire_octets "{'jsonrpc':'2.0','id':'req-0-1','result':{'tools':[{'name':'list-x'}]}}" ++ [x0a]) 2000
         (fst (child_data 0 (wire_octets "{'jsonrpc':'2.0','id':'req-0-0','result':{}}" ++ [x0a]) 2000
                 manager_configuring))).

(** a connection is attached to [S1], at time 3000 *)
Definition manager_attached : Manager := connect S1 3000 manager_ready.

Definition prompt_time : Z := 1700000000000.

(** the child has asked for a prompt, which the connection was sent *)
Definition manager_prompting : Manager :=
  fst (handlePromptForSession S1 (obj [("name", str "login")]) prompt_time manager_attached).

(** two sessions: [S1] without a connection, [S2] with one, both last
    active at time 1000 *)
Definition manager_two_sessions : Manager :=
  addWebSocketConnection S2 0 1000
    (set_sockets [{| readyState := OPEN; send_throws := false; sent := []; closes := [] |}]
       (fst (getOrCreateSession S2 1000 false manager_created))).

(** the connection asks for tool [list-x]; the result comes back *)
Definition manager_calling : Manager :=
  update_client 0 (fun st => fst (callTool (str "list-x") (obj []) st)) manager_attached.

Definition one_prompt : list byte :=
  wire_octets "{'jsonrpc':'2.0','id':'p1','method':'prompts/get','params':{'name':'login'}}" ++ [x0a].

(** the response to [tools/list] and, behind it in the same chunk, a
    notification of another catalog *)
Definition response_then_notification : jsstring :=
  tools_response ++ [LF] ++ tools_notification ++ [LF].

(** two requests for a prompt in one chunk of the child's output *)
Definition two_prompts : list byte :=
  wire_octets "{'jsonrpc':'2.0','id':'p1','method':'prompts/get','params':{'name':'login'}}" ++ [x0a]
  ++ wire_octets "{'jsonrpc':'2.0','id':'p2','method':'prompts/get','params':{'name':'consent'}}" ++ [x0a].

End Scenario.

(** ** The framing of the read path, seen from outside

    What the loop of [processBuffer] does to the history of parsed messages
    depends on the lines alone: a blank line and a line that does not parse
    are skipped, a line that parses is recorded, and a message that is not
    an object stops the loop with the [TypeError] of [in]. *)

Module Framing.
Section WithRuntime.
Context `{RT : Runtime}.

Definition is_primitive (v : jsval) : bool :=
  match v with
  | VObj _ | VArr _ => false
  | _ => true
  end.

(** The messages a list of lines yields, and whether the loop was left by
    an exception. *)
Fixpoint frames (parts : list jsstring) : list jsval * bool :=
  match parts with
  | [] => ([], false)
  | raw :: rest =>
      if negb (str_truthy (trim raw)) then frames rest
      else match JSON_parse raw with
           | None => frames rest
           | Some msg =>
               if is_primitive msg then ([msg], true)
               else (msg :: fst (frames rest), snd (frames rest))
           end
  end.

(** The reader: the partial line kept, the messages parsed so far, and
    whether an exception has ended the process. *)
Record Reader := {
  r_buffer : jsstring;
  r_parsed : list jsval;
  r_dead : bool
}.

Definition read (text : jsstring) (r : Reader) : Reader :=
  if r_dead r then r
  else
    let parts := split_nl (r_buffer r ++ text) in
    {| r_buffer := List.last parts [];
       r_parsed := r_parsed r ++ fst (frames (removelast parts));
       r_dead := snd (frames (removelast parts)) |}.

Definition read_all (chunks : list jsstring) (r : Reader) : Reader :=
  fold_left (fun r c => read c r) chunks r.

(** The view of a client, as the read path leaves it, as a reader. *)
Definition reader_of (res : StdioMcpClient.Client * option JsError) : Reader :=
  {| r_buffer := StdioMcpClient.buffer (fst res);
     r_parsed := StdioMcpClient.parsed (fst res);
     r_dead := bool_decide (is_Some (snd res)) |}.

(** No complete line of [text] is a message on which the closure of a
    pending call would throw. *)
Definition line_converts (raw : jsstring) : bool :=
  match JSON_parse raw with
  | Some msg => error_converts msg
  | None => true
  end.

Definition lines_convert (text : jsstring) : bool :=
  forallb line_converts (removelast (split_nl text)).

(** Two readers that parsed the same messages and are both dead, or both
    alive with the same partial line. *)
Definition agree (r1 r2 : Reader) : Prop :=
  r_parsed r1 = r_parsed r2
  /\ r_dead r1 = r_dead r2
  /\ (r_dead r1 = false -> r_buffer r1 = r_buffer r2).

(** The decoder state a run of bytes ends in. *)
Fixpoint utf8_state (s : Utf8State) (bs : list N) : Utf8State :=
  match bs with
  | [] => s
  | b :: bs' => utf8_state (snd (utf8_step s b)) bs'
  end.

(** A chunk ends on a character boundary when no sequence is left open. *)
Definition ends_on_boundary (chunk : list byte) : Prop :=
  utf8_state utf8_idle (map Byte.to_N chunk) = utf8_idle.

End WithRuntime.
End Framing.

(** ** The calls and the events that drive a client *)

Module ClientRun.
Import StdioMcpClient.

Inductive Op :=
| OpInitialize (binary_exists : bool)
| OpCallTool (name args : jsval)
| OpData (chunk : list byte)
| OpExit
| OpReply (req_id : jsval) (o : Outcome).   (* the promise of a callback settles *)

Section WithRuntime.
Context `{RT : Runtime}.

(** One step.  The second component is the exception that leaves the
    ['data'] listener uncaught; a rejection of [initialize()] or of
    [callTool()] is the caller's to handle. *)
Definition exec (op : Op) (st : Client) : Client * option JsError :=
  match op with
  | OpInitialize binary_exists => (fst (initialize binary_exists st), None)
  | OpCallTool name args => (fst (callTool name args st), None)
  | OpData chunk => on_data chunk st
  | OpExit => (on_exit st, None)
  | OpReply req_id o => (reply_inbound req_id o st, None)
  end.

(** The steps in order, up to the first uncaught exception. *)
Fixpoint run (ops : list Op) (st : Client) : Client * option JsError :=
  match ops with
  | [] => (st, None)
  | op :: ops' =>
      match exec op st with
      | (st', None) => run ops' st'
      | (st', Some e) => (st', Some e)
      end
  end.

(** Every correlation id in [pending] is one this client drew from
    [uuid()]. *)
Definition ids_issued (st : Client) : Prop :=
  forall id, is_Some (pending st !! id) ->
             exists k, (k < uuids st)%nat /\ id = uuid (cid st) k.

(** The client is client [c], and its outstanding ids are its own. *)
Definition issued_by (c : nat) (st : Client) : Prop :=
  cid st = c /\ ids_issued st.

(** From [st] to [st'] the client is the same, no id was given back, and
    every outstanding call is still outstanding, with its closure. *)
Definition grows (st st' : Client) : Prop :=
  cid st' = cid st
  /\ (uuids st <= uuids st')%nat
  /\ forall id h, pending st !! id = Some h -> pending st' !! id = Some h.

End WithRuntime.
End ClientRun.

(** ** [ChatService]: the tools of a client, as the chat model is given them *)

Module ChatService.
Section WithRuntime.
Context `{RT : Runtime}.

(** The schema given for a tool that has none. *)
Definition no_parameters : jsval :=
  obj [("type", str "object"); ("properties", obj []); ("required", VArr [])].

(** [tool.description || `Execute ${tool.name}`]: the template literal is
    evaluated only when the description is falsy, and throws when the name
    does not convert to a string. *)
Definition description_of (tool : jsval) : jsval + JsError :=
  if truthy (get tool "description") then inl (get tool "description")
  else match template (get tool "name") with
       | inl name => inl (VStr (js "Execute " ++ name))
       | inr e => inr e
       end.

(** The body of the arrow function of [convertMcpToolsToOpenAI] on one
    element; [None] is the [TypeError] of a property read on [null] or
    [undefined], or that of the template literal. *)
Definition convert_tool (tool : jsval) : option jsval :=
  match tool with
  | VUndefined | VNull => None
  | _ =>
      match description_of tool with
      | inl description =>
          Some (obj [("type", str "function");
                     ("function",
                      obj [("name", get tool "name");
                           ("description", description);
                           ("parameters",
                            if truthy (get tool "inputSchema") then get tool "inputSchema"
                            else no_parameters)])])
      | inr _ => None
      end
  end.

(** [convertMcpToolsToOpenAI(mcpTools)]: [mcpTools.map(...)]; a value that
    is not an array has no [map]. *)
Definition convertMcpToolsToOpenAI (mcpTools : jsval) : option (list jsval) :=
  match mcpTools with
  | VArr items => mapM convert_tool items
  | _ => None
  end.

End WithRuntime.
End ChatService.

(** * Properties *)

Import StdioMcpClient.

(** ** Lines *)

Lemma split_nl_nonempty (s : jsstring) : split_nl s <> [].
Proof.
  destruct s as [|c s]; simpl; [discriminate|].
  destruct (c =? LF); [discriminate|].
  destruct (split_nl s); discriminate.
Qed.

(** Splitting the text in two splits the last line of the first half. *)
Lemma split_nl_app (a b : jsstring) :
  split_nl (a ++ b) =
  removelast (split_nl a) ++ split_nl (List.last (split_nl a) [] ++ b).
Proof.
  induction a as [|c a IH]; [reflexivity|].
  pose proof (split_nl_nonempty a) as Hne.
  cbn [app split_nl]. destruct (c =? LF) eqn:Hc.
  - rewrite IH. destruct (split_nl a) as [|p ps]; [congruence|]. reflexivity.
  - rewrite IH. destruct (split_nl a) as [|p [|q ps]]; [congruence| |reflexivity].
    cbn [removelast List.last app split_nl]. rewrite Hc. reflexivity.
Qed.

Lemma removelast_app_nonempty {A} (l1 l2 : list A) :
  l2 <> [] -> removelast (l1 ++ l2) = l1 ++ removelast l2.
Proof. intros H. now apply removelast_app. Qed.

Lemma last_app_nonempty {A} (l1 l2 : list A) (d : A) :
  l2 <> [] -> List.last (l1 ++ l2) d = List.last l2 d.
Proof.
  intros H. induction l1 as [|x l1 IH]; [reflexivity|].
  cbn [app List.last]. destruct (l1 ++ l2) eqn:E; [|exact IH].
  destruct l1; simpl in E; congruence.
Qed.

(** ** The reader refines the client *)

Section FramingFacts.
Context `{RT : Runtime}.
Import Framing.

Lemma frames_app (l1 l2 : list jsstring) :
  frames (l1 ++ l2) =
  if snd (frames l1) then frames l1
  else (fst (frames l1) ++ fst (frames l2), snd (frames l2)).
Proof.
  induction l1 as [|raw l1 IH]; cbn [app frames].
  - now destruct (frames l2).
  - destruct (negb (str_truthy (trim raw))); [exact IH|].
    destruct (JSON_parse raw) as [msg|]; [|exact IH].
    destruct (is_primitive msg); [reflexivity|].
    rewrite IH. destruct (frames l1) as [m1 [|]]; reflexivity.
Qed.

Lemma sendRequest_reader method params schema k (st : Client) :
  buffer (fst (sendRequest method params schema k st)) = buffer st
  /\ parsed (fst (sendRequest method params schema k st)) = parsed st.
Proof. unfold sendRequest. destruct (child st); split; reflexivity. Qed.

Lemma run_microtask_reader t (st : Client) :
  buffer (run_microtask t st) = buffer st /\ parsed (run_microtask t st) = parsed st.
Proof.
  destruct t as [[| |] o]; cbn [run_microtask].
  - split; reflexivity.
  - apply sendRequest_reader.
  - unfold init_after_tools. destruct o; split; reflexivity.
Qed.

Lemma drain_reader fuel (st : Client) :
  buffer (drain fuel st) = buffer st /\ parsed (drain fuel st) = parsed st.
Proof.
  revert st. induction fuel as [|fuel IH]; intros st; [split; reflexivity|].
  cbn [drain]. destruct (microtasks st) as [|t q]; [split; reflexivity|].
  destruct (IH (run_microtask t (set_microtasks q st))) as [-> ->].
  destruct (run_microtask_reader t (set_microtasks q st)) as [-> ->].
  split; reflexivity.
Qed.

Lemma run_microtasks_reader (st : Client) :
  buffer (run_microtasks st) = buffer st /\ parsed (run_microtasks st) = parsed st.
Proof. apply drain_reader. Qed.

Lemma sendResponse_reader id result error (st : Client) :
  buffer (sendResponse id result error st) = buffer st
  /\ parsed (sendResponse id result error st) = parsed st.
Proof. unfold sendResponse. destruct (child st); split; reflexivity. Qed.

Lemma handleServerRequest_reader req (st : Client) :
  buffer (handleServerRequest req st) = buffer st
  /\ parsed (handleServerRequest req st) = parsed st.
Proof.
  unfold handleServerRequest.
  repeat match goal with
         | |- context [match ?x with _ => _ end] => destruct x
         end; try (split; reflexivity); apply sendResponse_reader.
Qed.

(** On a response whose error converts the closure of the call does not
    throw. *)
Lemma handler_outcome_converts schema res :
  error_converts res = true -> exists o, handler_outcome schema res = inl o.
Proof.
  unfold error_converts, handler_outcome, template.
  destruct (truthy (get res "error")); cbn [negb orb]; [|eauto].
  intros H. apply andb_true_iff in H as [-> ->]. eauto.
Qed.

(** One message: the histories are kept; when the closure of a call does
    not throw on it, the loop is left exactly on a message that is not an
    object. *)
Lemma dispatch_reader msg (st : Client) :
  buffer (fst (dispatch msg st)) = buffer st
  /\ parsed (fst (dispatch msg st)) = parsed st
  /\ (error_converts msg = true ->
      (is_Some (snd (dispatch msg st)) <-> is_primitive msg = true)).
Proof.
  unfold dispatch.
  destruct msg; cbn [has_in is_primitive fst snd];
    try (split; [reflexivity|split; [reflexivity|intros _; split; [reflexivity|eauto]]]).
  - cbn. split; [reflexivity|split; [reflexivity|]]. intros _.
    split; [intros [? ?]|]; discriminate.
  - assert (Hno : forall A (x : A), is_Some (@None A) <-> false = true)
      by (intros; split; [intros [? ?]|]; discriminate).
    repeat match goal with
           | |- context [if ?b then _ else _] => destruct b
           | |- context [match msg_key ?x with _ => _ end] => destruct (msg_key x)
           | |- context [match pending ?x !! ?y with _ => _ end] => destruct (pending x !! y) as [h|]
           end; cbn [fst snd];
      try (split; [reflexivity|split; [reflexivity|intros _; split; [intros [? ?]|]; discriminate]]).
    all: try (split; [apply handleServerRequest_reader|
                      split; [apply handleServerRequest_reader|
                              intros _; split; [intros [? ?]|]; discriminate]]).
    all: destruct (handler_outcome (pc_schema h) (VObj props)) as [o|e] eqn:E; cbn [fst snd].
    all: try (split; [reflexivity|
                      split; [reflexivity|intros _; split; [intros [? ?]|]; discriminate]]).
    all: split; [reflexivity|split; [reflexivity|]]; intros Hc;
      destruct (handler_outcome_converts (pc_schema h) (VObj props) Hc) as [o Ho]; congruence.
Qed.

Lemma process_parts_buffer parts : forall st : Client,
  buffer (fst (process_parts parts st)) = buffer st.
Proof.
  induction parts as [|raw rest IH]; intros st; cbn [process_parts]; [reflexivity|].
  destruct (negb (str_truthy (trim raw))); [apply IH|].
  destruct (JSON_parse raw) as [msg|]; [|apply IH].
  destruct (dispatch_reader msg (note_parsed msg st)) as (Hb & _).
  destruct (dispatch msg (note_parsed msg st)) as [st' [e|]]; cbn [fst snd] in *;
    [exact Hb|]. now rewrite IH, Hb.
Qed.

Lemma process_parts_reader parts (st : Client) :
  forallb line_converts parts = true ->
  buffer (fst (process_parts parts st)) = buffer st
  /\ parsed (fst (process_parts parts st)) = parsed st ++ fst (frames parts)
  /\ bool_decide (is_Some (snd (process_parts parts st))) = snd (frames parts).
Proof.
  revert st. induction parts as [|raw rest IH]; intros st Hall; cbn [process_parts frames].
  - rewrite app_nil_r. split; [reflexivity|split; [reflexivity|]].
    apply bool_decide_eq_false_2. intros [? ?]; discriminate.
  - cbn [forallb] in Hall. apply andb_true_iff in Hall as [Hraw Hrest].
    destruct (negb (str_truthy (trim raw))); [now apply IH|].
    unfold line_converts in Hraw.
    destruct (JSON_parse raw) as [msg|]; [|now apply IH].
    destruct (dispatch_reader msg (note_parsed msg st)) as (Hb & Hp & Ht).
    specialize (Ht Hraw).
    destruct (dispatch msg (note_parsed msg st)) as [st' [e|]]; cbn [fst snd] in *.
    + assert (Hprim : is_primitive msg = true) by (apply Ht; eauto).
      rewrite Hprim. cbn [fst snd].
      split; [exact Hb|split; [exact Hp|]]. apply bool_decide_eq_true_2. eauto.
    + destruct (is_primitive msg) eqn:Hprim.
      { destruct Ht as [_ Ht]. destruct (Ht eq_refl); discriminate. }
      destruct (IH st' Hrest) as (Hb' & Hp' & Ht'). cbn [fst snd].
      split; [now rewrite Hb', Hb|]. split; [|exact Ht'].
      rewrite Hp', Hp. cbn [parsed note_parsed]. now rewrite <- app_assoc.
Qed.

(** The listener does to the reader view what [read] does. *)
Lemma on_text_reader text (st : Client) :
  lines_convert (buffer st ++ text) = true ->
  reader_of (on_text text st) = read text (reader_of (st, None)).
Proof.
  intros Hall.
  assert (Hlive : r_dead (reader_of (st, None)) = false)
    by (apply bool_decide_eq_false_2; intros [? H]; cbn in H; discriminate).
  unfold read. rewrite Hlive. unfold on_text, processBuffer.
  cbn [reader_of r_buffer r_parsed fst snd buffer set_buffer].
  unfold lines_convert in Hall.
  set (parts := split_nl (buffer st ++ text)) in *.
  set (st0 := set_buffer (List.last parts []) (set_buffer (buffer st ++ text) st)).
  destruct (process_parts_reader (removelast parts) st0 Hall) as (Hb & Hp & Ht).
  destruct (process_parts (removelast parts) st0) as [st' [e|]]; cbn [fst snd] in *.
  - unfold reader_of. cbn [fst snd]. rewrite Hb, Hp, Ht. reflexivity.
  - unfold reader_of. cbn [fst snd].
    destruct (run_microtasks_reader st') as [-> ->]. rewrite Hb, Hp, <- Ht.
    reflexivity.
Qed.

(** The complete lines of a text read in two pieces are those of the first
    piece, then those of what the first piece left followed by the
    second. *)
Lemma lines_convert_app (a b : jsstring) :
  lines_convert (a ++ b)
  = lines_convert a && lines_convert (List.last (split_nl a) [] ++ b).
Proof.
  unfold lines_convert. rewrite (split_nl_app a b).
  rewrite removelast_app_nonempty by apply split_nl_nonempty.
  apply forallb_app.
Qed.

Lemma feed_text_reader chunks (st : Client) :
  lines_convert (buffer st ++ concat chunks) = true ->
  reader_of (feed_text chunks st) = read_all chunks (reader_of (st, None)).
Proof.
  revert st. induction chunks as [|c cs IH]; intros st Hall; [reflexivity|].
  cbn [concat] in Hall. rewrite app_assoc, lines_convert_app in Hall.
  apply andb_true_iff in Hall as [Hc Hcs].
  cbn [feed_text read_all fold_left]. rewrite <- (on_text_reader c st Hc).
  destruct (on_text c st) as [st' [e|]] eqn:E.
  - assert (Hdead : r_dead (reader_of (st', Some e)) = true)
      by (apply bool_decide_eq_true_2; eauto).
    clear -Hdead. induction cs as [|c' cs IH]; [reflexivity|].
    cbn [fold_left]. unfold read at 2. rewrite Hdead. exact IH.
  - apply IH.
    assert (Hb : buffer st' = List.last (split_nl (buffer st ++ c)) []).
    { unfold on_text, processBuffer in E. cbn [buffer set_buffer] in E.
      match type of E with context [process_parts ?ps ?s0] =>
        pose proof (process_parts_buffer ps s0) as Hpb;
        destruct (process_parts ps s0) as [s1 [e1|]]; [discriminate|]
      end.
      injection E as <-. destruct (run_microtasks_reader s1) as [-> _]. exact Hpb. }
    now rewrite Hb.
Qed.

Lemma agree_refl r : agree r r.
Proof. now repeat split. Qed.

Lemma agree_trans r1 r2 r3 : agree r1 r2 -> agree r2 r3 -> agree r1 r3.
Proof.
  intros (Hp & Hd & Hb) (Hp' & Hd' & Hb'). repeat split; try congruence.
  intros H. rewrite Hb by exact H. apply Hb'. congruence.
Qed.

Lemma read_agree text r1 r2 : agree r1 r2 -> agree (read text r1) (read text r2).
Proof.
  intros (Hp & Hd & Hb). unfold read. rewrite <- Hd.
  destruct (r_dead r1) eqn:E; [repeat split; congruence|].
  rewrite <- Hb, <- Hp by reflexivity. apply agree_refl.
Qed.

(** A partial line is kept and prefixed to the text that follows: reading
    a text in two pieces parses what reading it at once parses. *)
Lemma read_app t1 t2 r : agree (read t2 (read t1 r)) (read (t1 ++ t2) r).
Proof.
  unfold read. destruct (r_dead r) eqn:Hdead; [rewrite Hdead; apply agree_refl|].
  cbn [r_dead r_buffer r_parsed].
  rewrite (app_assoc (r_buffer r) t1 t2), (split_nl_app (r_buffer r ++ t1) t2).
  set (parts1 := removelast (split_nl (r_buffer r ++ t1))).
  set (lines2 := split_nl (List.last (split_nl (r_buffer r ++ t1)) [] ++ t2)).
  assert (Hne : lines2 <> []) by apply split_nl_nonempty.
  rewrite (removelast_app_nonempty parts1 lines2 Hne), (last_app_nonempty parts1 lines2 [] Hne).
  rewrite frames_app.
  destruct (snd (frames parts1)) eqn:Hcrash.
  - repeat split; cbn [r_parsed r_dead r_buffer]; congruence.
  - cbn [fst snd]. rewrite app_assoc. apply agree_refl.
Qed.

Lemma read_all_concat chunks r :
  chunks <> [] -> agree (read_all chunks r) (read (concat chunks) r).
Proof.
  destruct chunks as [|c cs]; [congruence|intros _].
  revert c r. induction cs as [|c' cs IH]; intros c r.
  - cbn [read_all fold_left concat]. rewrite app_nil_r. apply agree_refl.
  - change (read_all (c :: c' :: cs) r) with (read_all (c' :: cs) (read c r)).
    eapply agree_trans; [apply IH|]. cbn [concat]. apply read_app.
Qed.

Lemma utf8_run_app s a b :
  utf8_state s a = utf8_idle ->
  utf8_run s (a ++ b) = utf8_run s a ++ utf8_run utf8_idle b.
Proof.
  revert s. induction a as [|x a IH]; intros s H.
  - cbn in H. subst s. reflexivity.
  - cbn [app utf8_run utf8_state] in *. destruct (utf8_step s x) as [out s'].
    cbn [snd] in H. rewrite (IH s' H). now rewrite app_assoc.
Qed.

(** Decoding two chunks one by one is decoding them together when the first
    ends on a character boundary. *)
Lemma toString_utf8_app c1 c2 :
  ends_on_boundary c1 ->
  toString_utf8 (c1 ++ c2) = toString_utf8 c1 ++ toString_utf8 c2.
Proof.
  intros H. unfold toString_utf8. rewrite map_app. now apply utf8_run_app.
Qed.

Lemma feed_as_text chunks (st : Client) :
  feed chunks st = feed_text (map toString_utf8 chunks) st.
Proof.
  revert st. induction chunks as [|c cs IH]; intros st; [reflexivity|].
  cbn [feed feed_text map]. unfold on_data.
  destruct (on_text (toString_utf8 c) st) as [st' [e|]]; [reflexivity|apply IH].
Qed.

(** On decoded text the read path does not see where the chunks were cut,
    as long as no complete line makes the closure of a call throw. *)
Theorem text_chunking_invariant chunks (st : Client) :
  chunks <> [] ->
  lines_convert (buffer st ++ concat chunks) = true ->
  agree (reader_of (feed_text chunks st)) (reader_of (on_text (concat chunks) st)).
Proof.
  intros H Hall. rewrite (feed_text_reader _ _ Hall), (on_text_reader _ _ Hall).
  now apply read_all_concat.
Qed.

(** Nor does it on bytes, when the cut falls between two characters. *)
Theorem chunking_on_character_boundary c1 c2 (st : Client) :
  ends_on_boundary c1 ->
  lines_convert (buffer st ++ toString_utf8 (c1 ++ c2)) = true ->
  agree (reader_of (feed [c1; c2] st)) (reader_of (feed [c1 ++ c2] st)).
Proof.
  intros H Hall. rewrite !feed_as_text. cbn [map].
  rewrite (toString_utf8_app c1 c2 H) in *.
  eapply agree_trans.
  - apply (text_chunking_invariant [_; _]); [discriminate|].
    cbn [concat]. now rewrite app_nil_r.
  - cbn [concat feed_text]. rewrite app_nil_r.
    destruct (on_text _ st) as [st' [e|]]; apply agree_refl.
Qed.

End FramingFacts.

(** ** Correlation of responses *)

Section ClientFacts.
Context `{RT : Runtime}.

Lemma is_response_object msg :
  is_response msg -> exists props, msg = VObj props.
Proof. intros [Hid _]. destruct msg; try discriminate. eauto. Qed.

Lemma dispatch_response msg id handler (st : Client) :
  is_response msg ->
  get msg "id" = VStr id ->
  pending st !! id = Some handler ->
  dispatch msg st =
  match handler_outcome (pc_schema handler) msg with
  | inl o =>
      (enqueue (pc_kont handler) o
         (emit (Settled id o) (set_pending (delete id (pending st)) st)),
       None)
  | inr e => (set_pending (delete id (pending st)) st, Some e)
  end.
Proof.
  intros [Hid Hres] Hget Hpending. unfold dispatch. rewrite Hid.
  destruct (is_response_object msg (conj Hid Hres)) as [props ->].
  cbn [has_in] in *.
  assert (Hor : bool_decide (is_Some (lookup_prop (js "result") props))
                || bool_decide (is_Some (lookup_prop (js "error") props)) = true).
  { destruct Hres as [H|H]; injection H as ->; [reflexivity|apply orb_true_r]. }
  rewrite Hor. cbn [andb]. rewrite Hget. cbn [msg_key]. rewrite Hpending. reflexivity.
Qed.


Lemma run_microtasks_idle (st : Client) :
  microtasks st = [] -> run_microtasks st = st.
Proof. intros H. unfold run_microtasks. rewrite H. reflexivity. Qed.

Lemma set_microtasks_id (st : Client) :
  set_microtasks (microtasks st) st = st.
Proof. now destruct st. Qed.

(** A reaction of an outside caller leaves the client as it is. *)
Lemma run_microtasks_caller o (st : Client) :
  microtasks st = [] -> run_microtasks (enqueue KCaller o st) = st.
Proof.
  intros H. destruct st. cbn in H. subst. reflexivity.
Qed.

(** *** The checkpoint empties the queue *)

Lemma microtasks_sendRequest method params schema k (st : Client) :
  microtasks (fst (sendRequest method params schema k st)) = microtasks st
  \/ exists o, microtasks (fst (sendRequest method params schema k st))
               = microtasks st ++ [(k, o)].
Proof. unfold sendRequest. destruct (child st); [left|right; eexists]; reflexivity. Qed.

Lemma weight_run_microtask t q (st : Client) :
  microtasks st = q ->
  (list_sum (map weight (microtasks (run_microtask t st))) + 1
   <= list_sum (map weight q) + weight t)%nat.
Proof.
  intros Hq. destruct t as [[| |] o]; cbn [run_microtask weight fst].
  - rewrite Hq. lia.
  - unfold init_after_handshake.
    destruct (microtasks_sendRequest "tools/list" VUndefined None KInitTools st) as [->|[o' ->]].
    + rewrite Hq. lia.
    + rewrite Hq, map_app, list_sum_app.
      change (list_sum (map weight [(KInitTools, o')])) with 1%nat. lia.
  - assert (Hm : microtasks (init_after_tools o st) = microtasks st)
      by (destruct o; reflexivity).
    rewrite Hm, Hq. lia.
Qed.

Lemma weight_cons t q :
  list_sum (map weight (t :: q)) = (weight t + list_sum (map weight q))%nat.
Proof. reflexivity. Qed.

Lemma weight_pos t : (1 <= weight t)%nat.
Proof. destruct t as [[| |] o]; cbn; lia. Qed.

Lemma drain_empties fuel : forall st : Client,
  (list_sum (map weight (microtasks st)) <= fuel)%nat -> microtasks (drain fuel st) = [].
Proof.
  induction fuel as [|fuel IH]; intros st Hfuel.
  - cbn [drain]. destruct (microtasks st) as [|t q]; [reflexivity|].
    rewrite weight_cons in Hfuel. pose proof (weight_pos t). lia.
  - cbn [drain]. destruct (microtasks st) as [|t q] eqn:Hq; [exact Hq|].
    apply IH. rewrite weight_cons in Hfuel.
    pose proof (weight_run_microtask t q (set_microtasks q st) eq_refl). lia.
Qed.

(** After the checkpoint no reaction is left to run. *)
Lemma run_microtasks_quiescent (st : Client) : microtasks (run_microtasks st) = [].
Proof. apply drain_empties. reflexivity. Qed.

Lemma on_text_quiescent text (st st' : Client) :
  on_text text st = (st', None) -> microtasks st' = [].
Proof.
  unfold on_text. destruct (processBuffer _) as [st1 [e|]]; [discriminate|].
  intros [= <-]. apply run_microtasks_quiescent.
Qed.

Lemma callTool_quiescent name args (st : Client) :
  microtasks (fst (callTool name args st)) = [].
Proof.
  unfold callTool. destruct (sendRequest _ _ _ _ st) as [st' t]. cbn [fst].
  apply run_microtasks_quiescent.
Qed.

Lemma initialize_quiescent binary_exists (st : Client) :
  microtasks st = [] -> microtasks (fst (initialize binary_exists st)) = [].
Proof.
  intros H. unfold initialize. destruct (initialized st); [exact H|].
  destruct (start binary_exists st); [|exact H]. cbn [fst].
  apply run_microtasks_quiescent.
Qed.

Lemma split_nl_line line rest :
  Forall (fun c => c <> LF) line -> split_nl (line ++ LF :: rest) = line :: split_nl rest.
Proof.
  induction 1 as [|c line Hc _ IH]; cbn [app split_nl].
  - now rewrite N.eqb_refl.
  - apply N.eqb_neq in Hc. rewrite Hc, IH. reflexivity.
Qed.

(** The listener on one whole line that parses. *)
Lemma on_text_line line msg (st : Client) :
  buffer st = [] -> one_line line -> JSON_parse line = Some msg ->
  on_text (line ++ [LF]) st =
  match dispatch msg (note_parsed msg (set_buffer [] st)) with
  | (st', None) => (run_microtasks st', None)
  | (st', Some e) => (st', Some e)
  end.
Proof.
  intros Hbuf [Hlf Hblank] Hparse. unfold on_text, processBuffer.
  cbn [buffer set_buffer]. rewrite Hbuf. cbn [app].
  rewrite (split_nl_line line [] Hlf). cbn [split_nl removelast List.last process_parts].
  rewrite Hblank, Hparse. cbn [negb].
  change (set_buffer [] (set_buffer (line ++ [LF]) st)) with (set_buffer [] st).
  destruct (dispatch msg (note_parsed msg (set_buffer [] st))) as [st' [e|]]; reflexivity.
Qed.

(** The listener on a chunk that completes one line that parses. *)
Lemma on_text_completes_line text line msg (st : Client) :
  buffer st ++ text = line ++ [LF] -> one_line line -> JSON_parse line = Some msg ->
  on_text text st =
  match dispatch msg (note_parsed msg (set_buffer [] st)) with
  | (st', None) => (run_microtasks st', None)
  | (st', Some e) => (st', Some e)
  end.
Proof.
  intros Hbuf [Hlf Hblank] Hparse. unfold on_text, processBuffer.
  cbn [buffer set_buffer]. rewrite Hbuf.
  rewrite (split_nl_line line [] Hlf). cbn [split_nl removelast List.last process_parts].
  rewrite Hblank, Hparse. cbn [negb].
  change (set_buffer [] (set_buffer (line ++ [LF]) st)) with (set_buffer [] st).
  destruct (dispatch msg (note_parsed msg (set_buffer [] st))) as [st' [e|]]; reflexivity.
Qed.

(** The listener on a chunk that completes the response to an outstanding
    call. *)
Lemma on_data_response chunk line res id handler (st : Client) :
  buffer st ++ toString_utf8 chunk = line ++ [LF] -> one_line line ->
  JSON_parse line = Some res ->
  is_response res -> get res "id" = VStr id ->
  pending st !! id = Some handler ->
  on_data chunk st =
  match handler_outcome (pc_schema handler) res with
  | inl o =>
      (run_microtasks
         (enqueue (pc_kont handler) o
            (emit (Settled id o)
               (set_pending (delete id (pending st)) (note_parsed res (set_buffer [] st))))),
       None)
  | inr e =>
      (set_pending (delete id (pending st)) (note_parsed res (set_buffer [] st)), Some e)
  end.
Proof.
  intros Hbuf Hone Hparse Hres Hid Hp.
  unfold on_data. rewrite (on_text_completes_line _ line res st Hbuf Hone Hparse).
  rewrite (dispatch_response res id handler (note_parsed res (set_buffer [] st)) Hres Hid Hp).
  now destruct (handler_outcome (pc_schema handler) res).
Qed.

(** C9, as the code has it. [callTool(name, args)]: with no process
    attached the call fails with "MCP process not started" and nothing is
    sent; with a process attached one [tools/call] request goes out whose
    params are [{name, arguments: args}].  When the child's output then
    completes a line that is the response with the id of that request, the
    listener ends the call: with the result as the child sent it when the
    response has no error; with an error made of the code and the message
    of the child when the response carries an error object whose code and
    message convert to strings (the number and the string of
    [JsonRpcResponse]).  On an error object whose code or message does not
    convert the call is never settled: its entry is removed and the
    exception of the conversion leaves the listener. *)
Theorem callTool_contract name args (st : Client) :
  microtasks st = [] ->
  (child st = None ->
     callTool name args st = (st, Failed (Error (js "MCP process not started"))))
  /\ (forall p, child st = Some p ->
       let id := uuid (cid st) (uuids st) in
       let st' := fst (callTool name args st) in
       snd (callTool name args st) = Waiting id
       /\ effects st' =
          effects st ++
          [StdinWrite p
             (JSON_stringify
                (obj [("jsonrpc", str "2.0"); ("id", VStr id);
                      ("method", str "tools/call");
                      ("params", obj [("name", name); ("arguments", args)])])
              ++ [LF])]
       /\ pending st' = <[id := {| pc_schema := None; pc_kont := KCaller |}]> (pending st)
       /\ (forall chunk line res,
            buffer st ++ toString_utf8 chunk = line ++ [LF] -> one_line line ->
            JSON_parse line = Some res ->
            is_response res -> get res "id" = VStr id ->
            (truthy (get res "error") = false ->
             snd (on_data chunk st') = None
             /\ effects (fst (on_data chunk st')) =
                effects st' ++ [Settled id (Resolved (get res "result"))])
            /\ (forall e, get res "error" = VObj e -> error_converts res = true ->
                 snd (on_data chunk st') = None
                 /\ effects (fst (on_data chunk st')) =
                    effects st' ++
                    [Settled id
                       (Rejected (Error (tpl (get (VObj e) "code") ++ js ": "
                                         ++ tpl (get (VObj e) "message"))))])
            /\ (error_converts res = false ->
                 snd (on_data chunk st') = Some cannot_convert
                 /\ effects (fst (on_data chunk st')) = effects st'
                 /\ pending (fst (on_data chunk st')) !! id = None))).
Proof.
  intros Hidle. split.
  - intros Hchild. unfold callTool, sendRequest. rewrite Hchild.
    now rewrite run_microtasks_caller.
  - intros p Hchild id st'.
    assert (Hcall : callTool name args st =
              (emit (StdinWrite p
                       (JSON_stringify
                          (obj [("jsonrpc", str "2.0"); ("id", VStr id);
                                ("method", str "tools/call");
                                ("params", obj [("name", name); ("arguments", args)])])
                        ++ [LF]))
                 (set_pending (<[id := {| pc_schema := None; pc_kont := KCaller |}]> (pending st))
                    (set_uuids (S (uuids st)) st)),
               Waiting id)).
    { unfold callTool, sendRequest. rewrite Hchild. fold id.
      rewrite run_microtasks_idle by exact Hidle. reflexivity. }
    subst st'. rewrite Hcall. cbn [fst snd].
    split; [reflexivity|]. split; [reflexivity|]. split; [reflexivity|].
    intros chunk line res Hline Hone Hparse Hres Hid.
    match goal with |- context [on_data chunk ?s] => set (st1 := s) end.
    assert (Hbuf : buffer st1 ++ toString_utf8 chunk = line ++ [LF]) by exact Hline.
    assert (Hp : pending st1 !! id = Some {| pc_schema := None; pc_kont := KCaller |})
      by apply lookup_insert_eq.
    rewrite (on_data_response chunk line res id _ st1 Hbuf Hone Hparse Hres Hid Hp).
    cbn [pc_schema pc_kont]. unfold handler_outcome, error_converts, template.
    split; [|split].
    + intros ->. rewrite run_microtasks_caller by exact Hidle. split; reflexivity.
    + intros e He. rewrite He. cbn [truthy negb orb]. intros Hc.
      apply andb_true_iff in Hc as [-> ->].
      rewrite run_microtasks_caller by exact Hidle. split; reflexivity.
    + destruct (truthy (get res "error")); cbn [negb orb]; [|discriminate].
      intros Hc. apply andb_false_iff in Hc.
      destruct (converts (get (get res "error") "code")).
      * destruct Hc as [Hc|Hc]; [discriminate|]. rewrite Hc. cbn [fst snd].
        split; [reflexivity|]. split; [reflexivity|]. apply lookup_delete_eq.
      * cbn [fst snd]. split; [reflexivity|]. split; [reflexivity|]. apply lookup_delete_eq.
Qed.

Lemma handler_for_none method o :
  ~ (method = str "prompts/get" /\ is_Some (onPrompt o)) ->
  ~ (method = str "resources/read" /\ is_Some (onResourceRequest o)) ->
  handler_for method o = None.
Proof.
  intros Hp Hr. unfold handler_for, strict_eq_str.
  destruct method as [| | | |s| |]; try reflexivity.
  destruct (bool_decide (s = js "prompts/get")) eqn:E1.
  - apply bool_decide_eq_true_1 in E1. subst s.
    destruct (onPrompt o) eqn:E; [exfalso; apply Hp; split; [reflexivity|eauto]|].
    destruct (bool_decide (js "prompts/get" = js "resources/read")) eqn:E2; [|reflexivity].
    apply bool_decide_eq_true_1 in E2. discriminate.
  - destruct (bool_decide (s = js "resources/read")) eqn:E2; [|reflexivity].
    apply bool_decide_eq_true_1 in E2. subst s.
    destruct (onResourceRequest o) eqn:E; [exfalso; apply Hr; split; [reflexivity|eauto]|].
    reflexivity.
Qed.

Lemma dispatch_request req (st : Client) :
  is_request req -> dispatch req st = (handleServerRequest req st, None).
Proof.
  intros (Hm & Hi & Hr & He). unfold dispatch. rewrite Hm, Hi, Hr, He. reflexivity.
Qed.

Lemma dispatch_notification msg (st : Client) :
  is_notification msg ->
  dispatch msg st =
  (if strict_eq_str (get msg "method") "tools/list"
   then set_tools (nullish (opt_get (get msg "params") "tools") (VArr [])) st
   else st, None).
Proof.
  intros (Hm & Hi & Hr & He). unfold dispatch. rewrite Hm, Hi, Hr, He. cbn [andb orb negb].
  now destruct (strict_eq_str (get msg "method") "tools/list").
Qed.

(** C10, as the code has it. A request of the child (a message with a
    [method] and an [id] and with neither [result] nor [error]) whose method
    is neither [prompts/get] with a prompt handler registered nor
    [resources/read] with a resource handler registered is answered at once,
    when a child process is attached, by one error response with the same
    id: with code [-32601] and the message "Method not found: " followed by
    the method when the method converts to a string (the string of
    [JsonRpcRequest] does); with code [-32603] and the message of the
    conversion error, from the [catch] of the function, when it does not.
    When no child process is attached, nothing is written. *)
Theorem unsupported_request_answered req (st : Client) :
  is_request req ->
  ~ (get req "method" = str "prompts/get" /\ is_Some (onPrompt (opts st))) ->
  ~ (get req "method" = str "resources/read" /\ is_Some (onResourceRequest (opts st))) ->
  dispatch req st =
  (match child st with
   | Some p =>
       emit (StdinWrite p
               (JSON_stringify
                  (obj [("jsonrpc", str "2.0"); ("id", get req "id");
                        ("result", VUndefined);
                        ("error",
                         if converts (get req "method") then
                           obj [("code", VNum (-32601));
                                ("message",
                                 VStr (js "Method not found: " ++ tpl (get req "method")))]
                         else
                           obj [("code", VNum (-32603));
                                ("message",
                                 VStr (js "Cannot convert object to primitive value"))])])
                ++ [LF]))
         st
   | None => st
   end,
   None).
Proof.
  intros Hreq Hp Hr. rewrite (dispatch_request req st Hreq).
  unfold handleServerRequest, template, sendResponse.
  rewrite (handler_for_none _ _ Hp Hr).
  destruct (converts (get req "method")); reflexivity.
Qed.

(** [listTools()] when each message is read in a chunk of its own.  On a
    client that was just constructed it is the empty array; once the
    response to the [tools/list] request of [initialize] has been read,
    [initialize] has completed and [listTools()] is the [tools] of that
    result ([result?.tools ?? []]); once a [tools/list] notification has
    been read after that, it is the [tools] of that notification
    ([params?.tools ?? []]), whatever it was before. *)
Theorem listTools_tracks_announcements :
  (forall c o, listTools (new_client c o) = VArr [])
  /\ (forall (st : Client) id line res,
        microtasks st = [] -> buffer st = [] ->
        pending st !! id = Some {| pc_schema := None; pc_kont := KInitTools |} ->
        one_line line -> JSON_parse line = Some res ->
        is_response res -> get res "id" = VStr id ->
        truthy (get res "error") = false ->
        let st' := fst (on_text (line ++ [LF]) st) in
        listTools st' = nullish (opt_get (get res "result") "tools") (VArr [])
        /\ initialized st' = true)
  /\ (forall (st : Client) line msg,
        microtasks st = [] -> buffer st = [] ->
        one_line line -> JSON_parse line = Some msg ->
        is_notification msg -> get msg "method" = str "tools/list" ->
        listTools (fst (on_text (line ++ [LF]) st))
        = nullish (opt_get (get msg "params") "tools") (VArr [])).
Proof.
  split; [reflexivity|]. split.
  - intros st id line res Hidle Hbuf Hpending Hline Hparse Hres Hid Herr st'.
    subst st'. rewrite (on_text_line line res st Hbuf Hline Hparse).
    rewrite (dispatch_response res id _ (note_parsed res (set_buffer [] st)) Hres Hid Hpending).
    cbn [pc_kont pc_schema]. unfold handler_outcome. rewrite Herr. cbn [fst].
    unfold run_microtasks, enqueue. cbn [microtasks set_microtasks emit note_parsed set_pending set_buffer].
    rewrite Hidle. cbn. split; reflexivity.
  - intros st line msg Hidle Hbuf Hline Hparse Hnote Hmethod.
    rewrite (on_text_line line msg st Hbuf Hline Hparse).
    rewrite (dispatch_notification msg _ Hnote), Hmethod.
    cbn [strict_eq_str str]. rewrite bool_decide_eq_true_2 by reflexivity.
    cbn [fst]. rewrite run_microtasks_idle by exact Hidle. reflexivity.
Qed.

End ClientFacts.

(** ** Maps in insertion order *)

Section JsMapFacts.
Context {K V : Type} `{EqDecision K}.
Implicit Types (m : list (K * V)) (k : K) (v : V).

Lemma jsmap_get_set_eq k v m : JsMap.get k (JsMap.set k v m) = Some v.
Proof.
  induction m as [|[k' v'] m IH]; cbn.
  - now rewrite decide_True.
  - destruct (decide (k' = k)) as [->|Hne]; cbn.
    + now rewrite decide_True.
    + now rewrite decide_False.
Qed.

Lemma jsmap_get_set_ne k k' v m : k' <> k -> JsMap.get k' (JsMap.set k v m) = JsMap.get k' m.
Proof.
  intros Hne. induction m as [|[k0 v0] m IH]; cbn.
  - rewrite decide_False by congruence. reflexivity.
  - destruct (decide (k0 = k)) as [->|Hne0]; cbn.
    + rewrite !decide_False by congruence. reflexivity.
    + now rewrite IH.
Qed.

Lemma jsmap_get_delete_eq k m : JsMap.get k (JsMap.delete k m) = None.
Proof.
  induction m as [|[k' v'] m IH]; cbn; [reflexivity|].
  destruct (decide (k' = k)) as [->|Hne]; cbn; [exact IH|].
  now rewrite decide_False.
Qed.

Lemma jsmap_get_delete_ne k k' m : k' <> k -> JsMap.get k' (JsMap.delete k m) = JsMap.get k' m.
Proof.
  intros Hne. induction m as [|[k0 v0] m IH]; cbn; [reflexivity|].
  destruct (decide (k0 = k)) as [->|Hne0]; cbn.
  - rewrite decide_False by congruence. exact IH.
  - now rewrite IH.
Qed.

Lemma jsmap_delete_set k v m : JsMap.delete k (JsMap.set k v m) = JsMap.delete k m.
Proof.
  induction m as [|[k' v'] m IH]; cbn.
  - now rewrite decide_True.
  - destruct (decide (k' = k)) as [->|Hne]; cbn.
    + now rewrite decide_True.
    + rewrite decide_False by exact Hne. now rewrite IH.
Qed.

Lemma jsmap_get_elem k v m : JsMap.get k m = Some v -> (k, v) ∈ m.
Proof.
  induction m as [|[k' v'] m IH]; cbn; [discriminate|].
  destruct (decide (k' = k)) as [->|Hne].
  - intros [= ->]. apply list_elem_of_here.
  - intros H. apply list_elem_of_further. now apply IH.
Qed.

Lemma jsmap_elem_get k v m : NoDup (map fst m) -> (k, v) ∈ m -> JsMap.get k m = Some v.
Proof.
  induction m as [|[k' v'] m IH]; cbn; intros Hnd Hin.
  - now apply elem_of_nil in Hin.
  - apply NoDup_cons in Hnd as [Hfresh Hnd].
    apply elem_of_cons in Hin as [[= <- <-]|Hin]; [now rewrite decide_True|].
    rewrite decide_False; [now apply IH|].
    intros ->. apply Hfresh. apply list_elem_of_fmap. now exists (k, v).
Qed.

End JsMapFacts.

(** ** Prompts *)

Section PromptFacts.
Context `{RT : Runtime}.
Import SessionManager.

Lemma find_session_inv sid (m : Manager) r session :
  find_session sid m = Some (r, session) ->
  JsMap.get sid (sessions m) = Some r /\ store m !! r = Some session.
Proof.
  unfold find_session. destruct (JsMap.get sid (sessions m)) as [r'|]; [|discriminate].
  destruct (store m !! r') as [s|] eqn:E; [|discriminate].
  intros [= <- <-]. now split.
Qed.

Lemma find_session_intro sid (m : Manager) r session :
  JsMap.get sid (sessions m) = Some r -> store m !! r = Some session ->
  find_session sid m = Some (r, session).
Proof. intros H1 H2. unfold find_session. now rewrite H1, H2. Qed.

Lemma update_session_store r f (m : Manager) session :
  store m !! r = Some session ->
  update_session r f m = set_store (<[r := f session]> (store m)) m.
Proof. intros H. unfold update_session. now rewrite H. Qed.

Lemma store_lookup_update r r' (x : UserSession) (l : list UserSession) session :
  l !! r = Some session ->
  <[r := x]> l !! r' = if decide (r = r') then Some x else l !! r'.
Proof.
  intros H. destruct (decide (r = r')) as [<-|Hne].
  - apply list_lookup_insert_eq. now apply lookup_lt_Some in H.
  - now apply list_lookup_insert_ne.
Qed.

(** C3. A prompt for a session to which no connection is attached: the
    promise that [handlePromptForSession] returns is rejected, before the
    call returns, with "No connected clients to handle prompt"; the timeout
    the call armed is cleared and every other timeout is as before; the
    prompt map of the session has no entry under the id of the prompt, and
    nothing was sent. *)
Theorem prompt_without_connections_fails_at_once sid params now (m : Manager) r session :
  find_session sid m = Some (r, session) ->
  wsConnections session = [] ->
  let m' := fst (handlePromptForSession sid params now m) in
  let p := snd (handlePromptForSession sid params now m) in
  promises m !! p = None
  /\ promises m' !! p =
     Some (Some (Rejected (Error (js "No connected clients to handle prompt"))))
  /\ timers m' !! timer_count m = None
  /\ (forall t, t <> timer_count m -> timers m' !! t = timers m !! t)
  /\ (exists session',
        find_session sid m' = Some (r, session')
        /\ promptResolvers session' =
           JsMap.delete (prompt_id sid now) (promptResolvers session)
        /\ JsMap.get (prompt_id sid now) (promptResolvers session') = None)
  /\ sockets m' = sockets m.
Proof.
  intros Hfind Hnone. destruct (find_session_inv _ _ _ _ Hfind) as [Hget Hstore].
  unfold handlePromptForSession.
  assert (Hfind0 : find_session sid (new_promise m) = Some (r, session)) by exact Hfind.
  rewrite Hfind0, Hnone. cbn [broadcast Nat.eqb fst snd].
  set (pid := prompt_id sid now).
  set (entry := {| promise := length (promises m); timeout := timer_count (new_promise m) |}).
  set (m1 := setTimeout _ (new_promise m)).
  assert (Hstore1 : store m1 !! r = Some session) by exact Hstore.
  rewrite (update_session_store r _ m1 session Hstore1).
  set (s2 := with_promptResolvers (JsMap.set pid entry (promptResolvers session)) session).
  set (m2 := set_store (<[r := s2]> (store m1)) m1).
  assert (Hstore2 : store (clearTimeout (timer_count (new_promise m)) m2) !! r = Some s2).
  { cbn. apply list_lookup_insert_eq. now apply lookup_lt_Some in Hstore. }
  rewrite (update_session_store r _ _ s2 Hstore2).
  set (s3 := with_promptResolvers (JsMap.delete pid (promptResolvers s2)) s2).
  unfold settle. cbn [promises set_store clearTimeout set_timers m2 m1 setTimeout new_promise set_promises].
  rewrite lookup_app_r, Nat.sub_diag by reflexivity. cbn [lookup list_lookup].
  cbn [fst snd promises set_promises timers sockets].
  split; [apply lookup_ge_None_2; reflexivity|].
  split.
  { rewrite list_lookup_insert_eq; [reflexivity|]. rewrite length_app. cbn. lia. }
  clear Hstore1 Hstore2. subst m2 m1.
  cbn [timers set_store clearTimeout set_timers setTimeout new_promise set_promises
       sockets sessions store timer_count].
  split; [rewrite lookup_delete_eq; reflexivity|].
  split.
  { intros t Hne. rewrite lookup_delete_ne by congruence.
    rewrite lookup_insert_ne by congruence. reflexivity. }
  split; [|reflexivity].
  exists s3. split.
  - apply find_session_intro; [exact Hget|]. cbn.
    apply list_lookup_insert_eq. rewrite length_insert. now apply lookup_lt_Some in Hstore.
  - subst s3 s2. cbn [promptResolvers with_promptResolvers].
    rewrite jsmap_delete_set. split; [reflexivity|apply jsmap_get_delete_eq].
Qed.

Lemma handlePromptResponse_unknown sid pid response (m : Manager) r session :
  find_session sid m = Some (r, session) ->
  JsMap.get pid (promptResolvers session) = None ->
  handlePromptResponse sid pid response m = m.
Proof. intros Hf Hg. unfold handlePromptResponse. now rewrite Hf, Hg. Qed.

(** C4. The first response to a prompt removes its entry from the prompt
    map of the session, clears its timeout and resolves its promise with
    the response; a response that comes afterwards with the same prompt id
    changes nothing and raises nothing. *)
Theorem prompt_response_takes_effect_once sid pid response1 response2 (m : Manager) :
  let m1 := handlePromptResponse sid pid response1 m in
  (forall r session resolver,
      find_session sid m = Some (r, session) ->
      JsMap.get pid (promptResolvers session) = Some resolver ->
      (exists session',
          find_session sid m1 = Some (r, session')
          /\ promptResolvers session' = JsMap.delete pid (promptResolvers session)
          /\ JsMap.get pid (promptResolvers session') = None)
      /\ timers m1 = delete (timeout resolver) (timers m)
      /\ (promises m !! promise resolver = Some None ->
          promises m1 !! promise resolver = Some (Some (Resolved response1))))
  /\ handlePromptResponse sid pid response2 m1 = m1.
Proof.
  intros m1.
  assert (Hfirst : forall r session resolver,
      find_session sid m = Some (r, session) ->
      JsMap.get pid (promptResolvers session) = Some resolver ->
      find_session sid m1 =
        Some (r, with_promptResolvers (JsMap.delete pid (promptResolvers session)) session)
      /\ timers m1 = delete (timeout resolver) (timers m)
      /\ (promises m !! promise resolver = Some None ->
          promises m1 !! promise resolver = Some (Some (Resolved response1)))).
  { intros r session resolver Hfind Hres.
    destruct (find_session_inv _ _ _ _ Hfind) as [Hget Hstore].
    subst m1. unfold handlePromptResponse. rewrite Hfind, Hres.
    assert (Hstore1 : store (clearTimeout (timeout resolver) m) !! r = Some session)
      by exact Hstore.
    rewrite (update_session_store r _ _ session Hstore1).
    unfold settle. cbn [promises set_store clearTimeout set_timers].
    assert (Hlt : (r < length (store m))%nat) by now apply lookup_lt_Some in Hstore.
    destruct (promises m !! promise resolver) as [[o|]|] eqn:Hp.
    - split; [|split; [reflexivity|discriminate]].
      unfold find_session. cbn. rewrite Hget, list_lookup_insert_eq by exact Hlt. reflexivity.
    - split; [|split; [reflexivity|]].
      + unfold find_session. cbn. rewrite Hget, list_lookup_insert_eq by exact Hlt. reflexivity.
      + intros _. cbn. apply list_lookup_insert_eq. now apply lookup_lt_Some in Hp.
    - split; [|split; [reflexivity|discriminate]].
      unfold find_session. cbn. rewrite Hget, list_lookup_insert_eq by exact Hlt. reflexivity. }
  split.
  - intros r session resolver Hfind Hres.
    destruct (Hfirst r session resolver Hfind Hres) as (Hf & Ht & Hp).
    split; [|split; [exact Ht|exact Hp]].
    eexists. split; [exact Hf|]. cbn. split; [reflexivity|apply jsmap_get_delete_eq].
  - destruct (find_session sid m) as [[r session]|] eqn:Hfind.
    + destruct (JsMap.get pid (promptResolvers session)) as [resolver|] eqn:Hres.
      * destruct (Hfirst r session resolver eq_refl Hres) as (Hf & _).
        apply (handlePromptResponse_unknown _ _ _ _ _ _ Hf). cbn.
        apply jsmap_get_delete_eq.
      * assert (Hm1 : m1 = m) by (subst m1; now apply (handlePromptResponse_unknown _ _ _ _ r session)).
        rewrite Hm1. now apply (handlePromptResponse_unknown _ _ _ _ r session).
    + assert (Hm1 : m1 = m) by (subst m1; unfold handlePromptResponse; now rewrite Hfind).
      rewrite Hm1. unfold handlePromptResponse. now rewrite Hfind.
Qed.

End PromptFacts.

(** ** The reaper *)

Section ReaperFacts.
Context `{RT : Runtime}.
Import SessionManager.

Lemma settle_frame p o (m : Manager) :
  sessions (settle p o m) = sessions m /\ store (settle p o m) = store m.
Proof. unfold settle. destruct (promises m !! p) as [[?|]|]; now split. Qed.

Lemma reject_all_frame l (m : Manager) :
  sessions (fold_left reject_prompt l m) = sessions m
  /\ store (fold_left reject_prompt l m) = store m.
Proof.
  revert m. induction l as [|e l IH]; intros m; [now split|].
  cbn [fold_left]. destruct (IH (reject_prompt m e)) as [-> ->].
  unfold reject_prompt.
  destruct (settle_frame (promise (snd e)) (Rejected (Error (js "Session terminated")))
              (clearTimeout (timeout (snd e)) m)) as [-> ->].
  now split.
Qed.

Lemma close_all_frame l (m : Manager) :
  sessions (fold_left close_socket l m) = sessions m
  /\ store (fold_left close_socket l m) = store m.
Proof.
  revert m. induction l as [|ws l IH]; intros m; [now split|].
  cbn [fold_left]. destruct (IH (close_socket m ws)) as [-> ->].
  unfold close_socket. destruct (sockets m !! ws); now split.
Qed.

Lemma update_session_frame r f (m : Manager) :
  sessions (update_session r f m) = sessions m
  /\ (forall r', r' <> r -> store (update_session r f m) !! r' = store m !! r').
Proof.
  unfold update_session. destruct (store m !! r) as [s|]; [|now split].
  split; [reflexivity|]. intros r' Hne. cbn. apply list_lookup_insert_ne. congruence.
Qed.

(** [destroySession] removes the entry of the session and touches no other
    session object. *)
Lemma destroySession_frame sid (m : Manager) r session :
  find_session sid m = Some (r, session) ->
  sessions (destroySession sid m) = JsMap.delete sid (sessions m)
  /\ (forall r', r' <> r -> store (destroySession sid m) !! r' = store m !! r').
Proof.
  intros Hfind. unfold destroySession. rewrite Hfind.
  set (m1 := fold_left reject_prompt (promptResolvers session) m).
  set (m2 := update_session r (with_promptResolvers []) m1).
  set (m3 := fold_left close_socket (wsConnections session) m2).
  set (m4 := update_session r (with_wsConnections []) m3).
  destruct (reject_all_frame (promptResolvers session) m) as [Hs1 Hst1].
  destruct (update_session_frame r (with_promptResolvers []) m1) as [Hs2 Hst2].
  destruct (close_all_frame (wsConnections session) m2) as [Hs3 Hst3].
  destruct (update_session_frame r (with_wsConnections []) m3) as [Hs4 Hst4].
  fold m1 in Hs1, Hst1. fold m2 in Hs2, Hst2. fold m3 in Hs3, Hst3. fold m4 in Hs4, Hst4.
  cbn [sessions store set_sessions]. split.
  - now rewrite Hs4, Hs3, Hs2, Hs1.
  - intros r' Hne. now rewrite Hst4, Hst3, Hst2, Hst1 by exact Hne.
Qed.

Lemma reap_fold now todo :
  forall m : Manager,
    NoDup (map fst todo) -> NoDup (map snd todo) ->
    (forall sid r, (sid, r) ∈ todo -> JsMap.get sid (sessions m) = Some r) ->
    (forall sid,
        JsMap.get sid (sessions (fold_left (reap_entry now) todo m)) =
        match JsMap.get sid (sessions m) with
        | Some r => if bool_decide ((sid, r) ∈ todo) && reaped now m r then None else Some r
        | None => None
        end)
    /\ (forall r, (forall sid, (sid, r) ∈ todo -> reaped now m r = false) ->
                  store (fold_left (reap_entry now) todo m) !! r = store m !! r).
Proof.
  induction todo as [|[sid0 r0] todo IH]; intros m Hk Hr Hin.
  - split; [|reflexivity]. intros sid. cbn [fold_left].
    destruct (JsMap.get sid (sessions m)) as [r|]; [|reflexivity].
    rewrite bool_decide_eq_false_2; [reflexivity|apply not_elem_of_nil].
  - cbn [map fst snd] in Hk, Hr.
    apply NoDup_cons in Hk as [Hk0 Hk]. apply NoDup_cons in Hr as [Hr0 Hr].
    assert (Hget0 : JsMap.get sid0 (sessions m) = Some r0) by (apply Hin; apply list_elem_of_here).
    cbn [fold_left]. unfold reap_entry at 2 4. cbn [fst snd].
    assert (Hkeep : forall m' : Manager,
               sessions m' = sessions m -> store m' = store m -> reaped now m r0 = false ->
               (forall sid : jsstring,
                   JsMap.get sid (sessions (fold_left (reap_entry now) todo m')) =
                   match JsMap.get sid (sessions m) with
                   | Some r =>
                       if bool_decide ((sid, r) ∈ (sid0, r0) :: todo) && reaped now m r
                       then None else Some r
                   | None => None
                   end)
               /\ (forall r, (forall sid, (sid, r) ∈ (sid0, r0) :: todo -> reaped now m r = false) ->
                             store (fold_left (reap_entry now) todo m') !! r = store m !! r)).
    { intros m' Hs Hst Hno.
      destruct (IH m' Hk Hr) as [IH1 IH2].
      { intros sid r H. rewrite Hs. apply Hin. now apply list_elem_of_further. }
      split.
      - intros sid. rewrite IH1, Hs.
        destruct (JsMap.get sid (sessions m)) as [r|] eqn:Hg; [|reflexivity].
        assert (Hreap : reaped now m' r = reaped now m r) by (unfold reaped; now rewrite Hst).
        rewrite Hreap.
        destruct (decide ((sid, r) = (sid0, r0))) as [[= -> ->]|Hne].
        + rewrite Hno, !andb_false_r. reflexivity.
        + assert (Hmem : bool_decide ((sid, r) ∈ (sid0, r0) :: todo)
                         = bool_decide ((sid, r) ∈ todo))
            by (apply bool_decide_ext; rewrite elem_of_cons; intuition congruence).
          now rewrite Hmem.
      - intros r H. rewrite IH2, Hst; [reflexivity|].
        intros sid Hsid. unfold reaped. rewrite Hst. apply (H sid). now apply list_elem_of_further. }
    destruct (store m !! r0) as [session|] eqn:Hst0.
    2: { apply Hkeep; [reflexivity|reflexivity|]. unfold reaped. now rewrite Hst0. }
    destruct (reapable now session) eqn:Hreap0.
    2: { apply Hkeep; [reflexivity|reflexivity|]. unfold reaped. now rewrite Hst0. }
    assert (Hfind : find_session sid0 m = Some (r0, session)) by now apply find_session_intro.
    destruct (destroySession_frame sid0 m r0 session Hfind) as [Hs Hst].
    destruct (IH (destroySession sid0 m) Hk Hr) as [IH1 IH2].
    { intros sid r H. rewrite Hs. rewrite jsmap_get_delete_ne.
      - apply Hin. now apply list_elem_of_further.
      - intros ->. apply Hk0. apply list_elem_of_fmap. now exists (sid0, r). }
    assert (Hreaped0 : reaped now m r0 = true) by (unfold reaped; now rewrite Hst0).
    split.
    + intros sid. rewrite IH1, Hs.
      destruct (decide (sid = sid0)) as [->|Hne].
      * rewrite jsmap_get_delete_eq, Hget0.
        rewrite bool_decide_eq_true_2 by apply list_elem_of_here. now rewrite Hreaped0.
      * rewrite jsmap_get_delete_ne by exact Hne.
        destruct (JsMap.get sid (sessions m)) as [r|] eqn:Hg; [|reflexivity].
        assert (Hmem : bool_decide ((sid, r) ∈ (sid0, r0) :: todo) = bool_decide ((sid, r) ∈ todo)).
        { apply bool_decide_ext. rewrite elem_of_cons. intuition congruence. }
        rewrite Hmem. destruct (bool_decide ((sid, r) ∈ todo)) eqn:Hm; [|reflexivity].
        apply bool_decide_eq_true_1 in Hm. cbn [andb].
        assert (Hr' : r <> r0).
        { intros ->. apply Hr0. apply list_elem_of_fmap. now exists (sid, r0). }
        unfold reaped. now rewrite (Hst r Hr').
    + intros r H.
      assert (Hr' : r <> r0).
      { intros ->. specialize (H sid0 (list_elem_of_here _ _)). congruence. }
      rewrite IH2, (Hst r Hr'); [reflexivity|].
      intros sid Hsid. unfold reaped.
      assert (Hr'' : r <> r0) by exact Hr'.
      rewrite (Hst r Hr''). apply (H sid). now apply list_elem_of_further.
Qed.

Lemma reapable_iff now session :
  reapable now session = true <->
  (IDLE_TIMEOUT < now - lastActivity session)%Z /\ wsConnections session = [].
Proof.
  unfold reapable. rewrite andb_true_iff, Z.gtb_lt, Nat.eqb_eq.
  split; intros [H1 H2]; (split; [exact H1|]).
  - now destruct (wsConnections session).
  - now rewrite H2.
Qed.

(** C5. One pass of the reaper at time [now] destroys a registered session
    exactly when no connection is attached to it and it has been idle for
    more than [IDLE_TIMEOUT]; any other session stays registered, with its
    session object untouched.  In particular a session with a connection
    attached stays, however old its last activity. *)
Theorem reaper_destroys_exactly_idle_unattached now (m : Manager) sid r session :
  registry_wf m ->
  find_session sid m = Some (r, session) ->
  let m' := cleanupIdleSessions now m in
  (JsMap.get sid (sessions m') = None <->
   (IDLE_TIMEOUT < now - lastActivity session)%Z /\ wsConnections session = [])
  /\ (~ ((IDLE_TIMEOUT < now - lastActivity session)%Z /\ wsConnections session = []) ->
      find_session sid m' = Some (r, session))
  /\ (wsConnections session <> [] -> find_session sid m' = Some (r, session)).
Proof.
  intros (Hk & Hr & _) Hfind m'.
  destruct (find_session_inv _ _ _ _ Hfind) as [Hget Hstore].
  destruct (reap_fold now (sessions m) m Hk Hr) as [Hsessions Hkeep].
  { intros sid' r' H. now apply jsmap_elem_get. }
  assert (Hreaped : reaped now m r = reapable now session)
    by (unfold reaped; now rewrite Hstore).
  assert (Hres : JsMap.get sid (sessions m') = if reapable now session then None else Some r).
  { subst m'. unfold cleanupIdleSessions. rewrite Hsessions, Hget.
    rewrite bool_decide_eq_true_2 by now apply jsmap_get_elem.
    now rewrite Hreaped. }
  assert (Hstay : reapable now session = false -> find_session sid m' = Some (r, session)).
  { intros Hno. apply find_session_intro; [now rewrite Hres, Hno|].
    subst m'. unfold cleanupIdleSessions. rewrite Hkeep; [exact Hstore|].
    intros sid' _. now rewrite Hreaped. }
  split; [|split].
  - rewrite Hres, <- reapable_iff. destruct (reapable now session); split; congruence.
  - intros Hnot. apply Hstay. rewrite <- reapable_iff in Hnot.
    now destruct (reapable now session).
  - intros Hconn. apply Hstay. destruct (reapable now session) eqn:E; [|reflexivity].
    apply reapable_iff in E as [_ E]. congruence.
Qed.

End ReaperFacts.

(** ** The registry stays well formed *)

Section RegistryFacts.
Context `{RT : Runtime}.
Import SessionManager.

Lemma frame_refl (m : Manager) : frame m m.
Proof. now split. Qed.

(** The step wrote neither [sessions] nor [store]. *)
Ltac same_registry := split; reflexivity.

Lemma frame_trans (m1 m2 m3 : Manager) : frame m1 m2 -> frame m2 m3 -> frame m1 m3.
Proof. intros [H1 H2] [H3 H4]. split; congruence. Qed.

Lemma frame_fold {A} (f : Manager -> A -> Manager) l :
  (forall m x, frame m (f m x)) -> forall m, frame m (fold_left f l m).
Proof.
  intros Hf. induction l as [|x l IH]; intros m; [same_registry|].
  cbn [fold_left]. eapply frame_trans; [apply Hf|apply IH].
Qed.

Lemma frame_update_session r f (m : Manager) : frame m (update_session r f m).
Proof.
  unfold update_session. destruct (store m !! r); [|same_registry].
  split; [reflexivity|]. cbn. apply length_insert.
Qed.

Lemma frame_update_client c f (m : Manager) : frame m (update_client c f m).
Proof. unfold update_client. destruct (clients m !! c); same_registry. Qed.

Lemma frame_settle p o (m : Manager) : frame m (settle p o m).
Proof. unfold settle. destruct (promises m !! p) as [[?|]|]; same_registry. Qed.

Lemma frame_broadcast msg conns : forall n (m : Manager), frame m (fst (broadcast msg conns n m)).
Proof.
  induction conns as [|ws conns IH]; intros n m; [same_registry|].
  cbn [broadcast]. destruct (sockets m !! ws) as [w|]; [|apply IH].
  destruct (readyState w =? OPEN)%nat; [|apply IH].
  destruct (send_throws w); [apply IH|].
  eapply frame_trans; [|apply IH]. same_registry.
Qed.

Lemma frame_handlePromptForSession sid params now (m : Manager) :
  frame m (fst (handlePromptForSession sid params now m)).
Proof.
  unfold handlePromptForSession.
  destruct (find_session sid (new_promise m)) as [[r session]|].
  - match goal with
    | |- context [broadcast ?a ?b ?c ?d] =>
        pose proof (frame_broadcast a b c d) as Hb; destruct (broadcast a b c d) as [m3 n]
    end.
    cbn [fst] in Hb.
    assert (H3 : frame m m3).
    { eapply frame_trans; [|exact Hb]. eapply frame_trans; [|apply frame_update_session].
      same_registry. }
    destruct (n =? 0)%nat; [|exact H3]. cbn [fst].
    eapply frame_trans; [exact H3|]. eapply frame_trans; [|apply frame_settle].
    eapply frame_trans; [|apply frame_update_session]. same_registry.
  - cbn [fst]. eapply frame_trans; [|apply frame_settle]. same_registry.
Qed.

Lemma frame_handlePromptResponse sid pid response (m : Manager) :
  frame m (handlePromptResponse sid pid response m).
Proof.
  unfold handlePromptResponse. destruct (find_session sid m) as [[r session]|]; [|same_registry].
  destruct (JsMap.get pid (promptResolvers session)); [|same_registry].
  eapply frame_trans; [|apply frame_settle].
  eapply frame_trans; [|apply frame_update_session]. same_registry.
Qed.

Lemma frame_fire_timer t (m : Manager) : frame m (fire_timer t m).
Proof.
  unfold fire_timer. destruct (timers m !! t) as [[r pid p d|l d]|]; try same_registry.
  eapply frame_trans; [|apply frame_settle].
  eapply frame_trans; [|apply frame_update_session]. same_registry.
Qed.

Lemma frame_checkpoint (m : Manager) : frame m (checkpoint m).
Proof.
  unfold checkpoint. eapply frame_trans; [|apply frame_fold].
  - same_registry.
  - intros m' a. destruct (prompt_outcome m a); [apply frame_update_client|same_registry].
Qed.

Lemma frame_triggerLogin sid config (m : Manager) : frame m (fst (triggerLogin sid config m)).
Proof.
  unfold triggerLogin. destruct (find_session sid m) as [[r session]|]; same_registry.
Qed.

Lemma frame_resume_configuring c (m : Manager) : frame m (resume_configuring c m).
Proof.
  unfold resume_configuring. eapply frame_trans; [|apply frame_fold].
  - same_registry.
  - intros m' cf. unfold resume_initializeMcpClient.
    eapply frame_trans; [apply frame_update_session|apply frame_triggerLogin].
Qed.

Lemma frame_react c now es : forall m : Manager, frame m (react c now es m).
Proof.
  induction es as [|e es IH]; intros m; [same_registry|].
  cbn [react]. destruct e as [| | |cb req_id params|]; try apply IH.
  - destruct cb as [sid|sid].
    + pose proof (frame_handlePromptForSession sid params now m) as H.
      destruct (handlePromptForSession sid params now m) as [m1 p]. cbn [fst] in H.
      eapply frame_trans; [exact H|]. eapply frame_trans; [|apply IH]. same_registry.
    + eapply frame_trans; [apply frame_update_client|apply IH].
  - eapply frame_trans; [apply frame_resume_configuring|apply IH].
Qed.

Lemma frame_react_sync c now es : forall m : Manager, frame m (react_sync c now es m).
Proof.
  induction es as [|e es IH]; intros m; [same_registry|].
  cbn [react_sync]. destruct e as [| | |cb req_id params|]; try apply IH.
  destruct cb as [sid|sid]; [|apply IH].
  pose proof (frame_handlePromptForSession sid params now m) as H.
  destruct (handlePromptForSession sid params now m) as [m1 p]. cbn [fst] in H.
  eapply frame_trans; [exact H|]. eapply frame_trans; [|apply IH]. same_registry.
Qed.

Lemma frame_child_data c chunk now (m : Manager) : frame m (fst (child_data c chunk now m)).
Proof.
  unfold child_data. destruct (clients m !! c) as [st|]; [|same_registry].
  destruct (on_data chunk st) as [st' [e|]]; cbn [fst].
  - eapply frame_trans; [|apply frame_react_sync]. same_registry.
  - eapply frame_trans; [|apply frame_checkpoint].
    eapply frame_trans; [|apply frame_react]. same_registry.
Qed.

Lemma frame_initializeMcpClient sid config b (m : Manager) :
  frame m (fst (initializeMcpClient sid config b m)).
Proof.
  unfold initializeMcpClient. destruct (find_session sid m) as [[r session]|]; [|same_registry].
  destruct (mcpClient session); [same_registry|].
  match goal with |- context [initialize b ?cl] => destruct (initialize b cl) as [client' [e|]] end;
    cbn [fst]; (eapply frame_trans; [apply frame_update_session|same_registry]).
Qed.

Lemma frame_session_update sid f (m : Manager) :
  frame m (match find_session sid m with
           | Some (r, _) => update_session r f m
           | None => m
           end).
Proof. destruct (find_session sid m) as [[r s]|]; [apply frame_update_session|same_registry]. Qed.

Lemma registry_wf_frame (m m' : Manager) : frame m m' -> registry_wf m -> registry_wf m'.
Proof. intros [Hs Hl] (H1 & H2 & H3). unfold registry_wf. now rewrite Hs, Hl. Qed.

Lemma jsmap_delete_sublist {K V} `{EqDecision K} (k : K) (l : list (K * V)) :
  sublist (JsMap.delete k l) l.
Proof.
  induction l as [|[k' v] l IH]; cbn; [constructor|].
  destruct (decide (k' = k)); [now apply sublist_cons|now apply sublist_skip].
Qed.

Lemma sublist_map {A B} (f : A -> B) (l1 l2 : list A) :
  sublist l1 l2 -> sublist (map f l1) (map f l2).
Proof. induction 1; cbn; [constructor|now apply sublist_skip|now apply sublist_cons]. Qed.

Lemma destroySession_length sid (m : Manager) :
  length (store (destroySession sid m)) = length (store m).
Proof.
  unfold destroySession. destruct (find_session sid m) as [[r session]|]; [|reflexivity].
  cbn [store set_sessions].
  pose proof (frame_fold reject_prompt (promptResolvers session)) as Hrej.
  pose proof (frame_fold close_socket (wsConnections session)) as Hclose.
  set (m1 := fold_left reject_prompt (promptResolvers session) m).
  set (m2 := update_session r (with_promptResolvers []) m1).
  set (m3 := fold_left close_socket (wsConnections session) m2).
  assert (H1 : frame m m1).
  { apply Hrej. intros m' e. unfold reject_prompt.
    eapply frame_trans; [|apply frame_settle]. same_registry. }
  assert (H3 : frame m2 m3).
  { apply Hclose. intros m' ws. unfold close_socket.
    destruct (sockets m' !! ws); same_registry. }
  destruct (frame_trans _ _ _ (frame_trans _ _ _ (frame_trans _ _ _ H1
              (frame_update_session r (with_promptResolvers []) m1)) H3)
              (frame_update_session r (with_wsConnections []) m3)) as [_ H].
  exact H.
Qed.

Lemma registry_wf_destroySession sid (m : Manager) :
  registry_wf m -> registry_wf (destroySession sid m).
Proof.
  intros (H1 & H2 & H3). unfold registry_wf. rewrite destroySession_length.
  destruct (find_session sid m) as [[r session]|] eqn:Hfind.
  - destruct (destroySession_frame sid m r session Hfind) as [-> _].
    pose proof (jsmap_delete_sublist sid (sessions m)) as Hsub.
    split; [|split].
    + eapply sublist_NoDup; [exact H1|]. now apply sublist_map.
    + eapply sublist_NoDup; [exact H2|]. now apply sublist_map.
    + apply Forall_forall. intros e He. rewrite Forall_forall in H3.
      apply H3. eapply elem_of_sublist; [exact He|exact Hsub].
  - unfold destroySession. rewrite Hfind. now split.
Qed.

Lemma registry_wf_fold_destroy {A} (f : Manager -> A -> Manager) l :
  (forall m x, registry_wf m -> registry_wf (f m x)) ->
  forall m, registry_wf m -> registry_wf (fold_left f l m).
Proof.
  intros Hf. induction l as [|x l IH]; intros m Hm; [exact Hm|].
  cbn [fold_left]. apply IH. now apply Hf.
Qed.

Lemma jsmap_get_none_keys {K V} `{EqDecision K} (k : K) (l : list (K * V)) :
  JsMap.get k l = None -> k ∉ map fst l.
Proof.
  induction l as [|[k' v] l IH]; cbn; [intros _; apply not_elem_of_nil|].
  destruct (decide (k' = k)); [discriminate|].
  intros H. apply not_elem_of_cons. split; [congruence|now apply IH].
Qed.

Lemma jsmap_set_fresh {K V} `{EqDecision K} (k : K) (v : V) (l : list (K * V)) :
  JsMap.get k l = None -> JsMap.set k v l = l ++ [(k, v)].
Proof.
  induction l as [|[k' v'] l IH]; cbn; [reflexivity|].
  destruct (decide (k' = k)); [discriminate|]. intros H. now rewrite IH.
Qed.

Lemma registry_wf_getOrCreateSession sid now dir_exists (m : Manager) :
  registry_wf m -> registry_wf (fst (getOrCreateSession sid now dir_exists m)).
Proof.
  intros Hwf. unfold getOrCreateSession.
  destruct (find_session sid m) as [[r session]|] eqn:Hfind; cbn [fst].
  - eapply registry_wf_frame; [apply frame_update_session|exact Hwf].
  - destruct Hwf as (H1 & H2 & H3).
    assert (Hget : JsMap.get sid (sessions m) = None).
    { unfold find_session in Hfind.
      destruct (JsMap.get sid (sessions m)) as [r|] eqn:Hg; [|reflexivity].
      apply jsmap_get_elem in Hg. rewrite Forall_forall in H3.
      specialize (H3 _ Hg). cbn in H3. apply lookup_lt_is_Some_2 in H3 as [s Hs].
      now rewrite Hs in Hfind. }
    assert (Hm1 : forall m1 : Manager,
               sessions m1 = sessions m -> store m1 = store m ->
               registry_wf (set_sessions (JsMap.set sid (length (store m1)) (sessions m1))
                              (set_store (store m1 ++ [
                                 {| sessionId := sid; mcpClient := None; wsConnections := [];
                                    lastActivity := now; promptResolvers := [];
                                    workDir := session_dir sid; pingoneConfig := None |}]) m1))).
    { intros m1 Hs Hst. unfold registry_wf. cbn [sessions store set_sessions set_store].
      rewrite Hs, Hst, (jsmap_set_fresh _ _ _ Hget), !map_app, length_app. cbn [map fst snd length].
      split; [|split].
      - apply NoDup_app. split; [exact H1|]. split; [|apply NoDup_singleton].
        intros k Hk Hk'. apply list_elem_of_singleton in Hk'. subst k.
        now apply (jsmap_get_none_keys _ _ Hget).
      - apply NoDup_app. split; [exact H2|]. split; [|apply NoDup_singleton].
        intros r Hr Hr'. apply list_elem_of_singleton in Hr'. subst r.
        apply list_elem_of_fmap in Hr as [[k r] [Heq Hin]]. cbn in Heq.
        rewrite Forall_forall in H3. specialize (H3 _ Hin). cbn in H3. lia.
      - apply Forall_app. split.
        + eapply Forall_impl; [exact H3|]. cbn. intros; lia.
        + constructor; [cbn; lia|constructor]. }
    destruct dir_exists; now apply Hm1.
Qed.

(** Every state the manager reaches has a well-formed registry. *)
Theorem registry_wf_invariant o ops : registry_wf (run ops (new_manager o)).
Proof.
  unfold run.
  assert (H0 : registry_wf (new_manager o)).
  { unfold registry_wf. cbn. split; [constructor|]. split; constructor. }
  revert H0. generalize (new_manager o). induction ops as [|op ops IH]; intros m Hm; [exact Hm|].
  cbn [fold_left]. apply IH. destruct op; cbn [exec].
  - now apply registry_wf_getOrCreateSession.
  - eapply registry_wf_frame; [apply frame_initializeMcpClient|exact Hm].
  - eapply registry_wf_frame; [apply frame_child_data|exact Hm].
  - eapply registry_wf_frame; [apply frame_update_client|exact Hm].
  - unfold connect, addWebSocketConnection.
    eapply registry_wf_frame; [|exact Hm].
    eapply frame_trans; [|apply frame_session_update]. same_registry.
  - unfold removeWebSocketConnection.
    eapply registry_wf_frame; [apply frame_session_update|exact Hm].
  - unfold prompt_response. eapply registry_wf_frame; [|exact Hm].
    eapply frame_trans; [apply frame_handlePromptResponse|apply frame_checkpoint].
  - unfold timer_fires. eapply registry_wf_frame; [|exact Hm].
    eapply frame_trans; [apply frame_fire_timer|apply frame_checkpoint].
  - unfold touchSession. eapply registry_wf_frame; [apply frame_session_update|exact Hm].
  - eapply registry_wf_frame; [apply frame_checkpoint|].
    unfold cleanupIdleSessions. apply registry_wf_fold_destroy; [|exact Hm].
    intros m' e Hm'. unfold reap_entry. destruct (store m' !! snd e) as [s|]; [|exact Hm'].
    destruct (reapable now s); [now apply registry_wf_destroySession|exact Hm'].
  - eapply registry_wf_frame; [apply frame_checkpoint|].
    unfold shutdown. apply registry_wf_fold_destroy.
    + intros m' sid Hm'. now apply registry_wf_destroySession.
    + eapply registry_wf_frame; [|exact Hm]. same_registry.
Qed.

End RegistryFacts.

(** ** Prompt ids *)

Section PromptIdFacts.
Context `{RT : Runtime}.
Import SessionManager.

Lemma js_inj (a b : string) : js a = js b -> a = b.
Proof.
  unfold js. intros H.
  rewrite <- (string_of_list_ascii_of_string a), <- (string_of_list_ascii_of_string b).
  f_equal. revert H. generalize (list_ascii_of_string a) (list_ascii_of_string b).
  induction l as [|x l IH]; intros [|y l']; cbn; try discriminate; [reflexivity|].
  intros [= Hxy Hl]. f_equal; [|now apply IH].
  rewrite <- (ascii_N_embedding x), <- (ascii_N_embedding y). now f_equal.
Qed.

(** The prompt ids of one session at two different times differ. *)
Lemma prompt_id_inj sid now1 now2 :
  prompt_id sid now1 = prompt_id sid now2 -> now1 = now2.
Proof.
  unfold prompt_id. intros H. apply app_inv_head in H. apply app_inv_head in H.
  apply js_inj in H. now apply (inj pretty) in H.
Qed.

(** Once a session holds a client, [initializeMcpClient] returns at once
    and changes nothing: no client is constructed, no process spawned. *)
Lemma initializeMcpClient_noop sid config binary_exists (m : Manager) r session c :
  find_session sid m = Some (r, session) ->
  mcpClient session = Some c ->
  initializeMcpClient sid config binary_exists m = (m, Returned).
Proof. intros Hf Hc. unfold initializeMcpClient. now rewrite Hf, Hc. Qed.

End PromptIdFacts.

(** ** The theorems at concrete states *)

Section Concrete.
Import StdioMcpClient SessionManager Scenario Framing.
#[local] Existing Instance Sample.runtime.

(** Conjunctions of closed equations, each settled by evaluation. *)
Ltac evaluate :=
  cbv zeta;
  repeat match goal with |- _ /\ _ => split end;
  vm_compute; reflexivity.

Lemma one_line_check (l : jsstring) :
  forallb (fun c => negb (c =? LF)) l && str_truthy (trim l) = true -> one_line l.
Proof.
  intros H. apply andb_true_iff in H as [H1 H2]. split; [|exact H2].
  apply Forall_forall. intros c Hc. rewrite forallb_forall in H1.
  apply list_elem_of_In in Hc. specialize (H1 c Hc). now apply negb_true_iff, N.eqb_neq in H1.
Qed.

Lemma no_line_feed_check (l : jsstring) :
  forallb (fun c => negb (c =? LF)) l = true -> Forall (fun c => c <> LF) l.
Proof.
  intros H1. apply Forall_forall. intros c Hc. rewrite forallb_forall in H1.
  apply list_elem_of_In in Hc. specialize (H1 c Hc). now apply negb_true_iff, N.eqb_neq in H1.
Qed.

(** C2. The code cuts the stream where the pipe cuts it and decodes each
    chunk on its own.  The response whose result is "caf" followed by
    U+00E9, delivered whole, is parsed with that result and resolves the
    call with it; delivered in two chunks cut between the two octets of
    U+00E9, it is parsed with "caf" followed by two U+FFFD, and the call is
    resolved with that other string. *)
Theorem split_inside_a_character_alters_the_message :
  let whole := fst (feed [accented_response] client_calling) in
  let cut := fst (feed [take inside_character accented_response;
                        drop inside_character accented_response] client_calling) in
  take inside_character accented_response ++ drop inside_character accented_response
  = accented_response
  /\ parsed whole =
     parsed client_calling ++
     [obj [("jsonrpc", str "2.0"); ("id", str "req-0-2");
           ("result", VStr (js "caf" ++ [0xE9]))]]
  /\ parsed cut =
     parsed client_calling ++
     [obj [("jsonrpc", str "2.0"); ("id", str "req-0-2");
           ("result", VStr (js "caf" ++ [0xFFFD; 0xFFFD]))]]
  /\ effects whole =
     effects client_calling ++
     [Settled (js "req-0-2") (Resolved (VStr (js "caf" ++ [0xE9])))]
  /\ effects cut =
     effects client_calling ++
     [Settled (js "req-0-2") (Resolved (VStr (js "caf" ++ [0xFFFD; 0xFFFD])))]
  /\ parsed whole <> parsed cut.
Proof.
  cbv zeta. split; [apply take_drop|].
  split; [vm_compute; reflexivity|].
  split; [vm_compute; reflexivity|].
  split; [vm_compute; reflexivity|].
  split; [vm_compute; reflexivity|].
  vm_compute. discriminate.
Qed.

(** C6. Two calls of [initializeMcpClient] for one session, the second
    made while the first still awaits [mcpClient.initialize()]: the session
    holds no client yet, so the second call passes the guard as the first
    did; two clients are constructed and two server processes are spawned.
    Made after the first has gone on, the second call returns at once and
    one server process has been spawned (and the one login process that a
    configuration starts besides). *)
Theorem configure_twice_in_flight_spawns_twice :
  let first := initializeMcpClient S1 config true manager_created in
  let second := initializeMcpClient S1 config true (fst first) in
  snd first = Suspended
  /\ spawn_count (fst first) = 1%nat
  /\ getSessionMcpClient S1 (fst first) = None
  /\ snd second = Suspended
  /\ length (clients (fst second)) = 2%nat
  /\ spawn_count (fst second) = 2%nat
  /\ getSessionMcpClient S1 manager_ready = Some 0%nat
  /\ initializeMcpClient S1 config true manager_ready = (manager_ready, Returned)
  /\ spawn_count manager_ready = 1%nat
  /\ length (logins manager_ready) = 1%nat.
Proof. evaluate. Qed.

(** C7. Two requests for a prompt that the child writes in one chunk are
    handled in the same millisecond: [handlePromptForSession] runs twice at
    the same [Date.now()], the two prompts get the same id, and the entry
    of the second replaces that of the first in the prompt map.  The
    connection is sent the same id twice; a response with that id resolves
    the promise of the second prompt, and the first is left to its
    timeout. *)
Theorem prompts_in_one_millisecond_share_an_id :
  let m := fst (child_data 0 two_prompts prompt_time manager_attached) in
  let pid := prompt_id S1 prompt_time in
  let answered := prompt_response S1 pid (str "yes") m in
  pid = js "S1-1700000000000"
  /\ awaiting m = [(0%nat, 0%nat, str "p1"); (1%nat, 0%nat, str "p2")]
  /\ promises m = [None; None]
  /\ (exists session, find_session S1 m = Some (0%nat, session)
        /\ promptResolvers session = [(pid, {| promise := 1; timeout := 2 |})])
  /\ (exists socket, sockets m !! 0%nat = Some socket
        /\ sent socket =
           [wire "{'type':'prompt','id':'S1-1700000000000','params':{'name':'login'}}";
            wire "{'type':'prompt','id':'S1-1700000000000','params':{'name':'consent'}}"])
  /\ promises answered = [None; Some (Resolved (str "yes"))]
  /\ awaiting answered = [(0%nat, 0%nat, str "p1")].
Proof.
  cbv zeta. split; [vm_compute; reflexivity|].
  split; [vm_compute; reflexivity|].
  split; [vm_compute; reflexivity|].
  split; [eexists; split; vm_compute; reflexivity|].
  split; [eexists; split; vm_compute; reflexivity|].
  split; vm_compute; reflexivity.
Qed.

(** C8. The child answers the [tools/list] request of [initialize] with the
    tools [list-x] and then announces, by a [tools/list] notification, the
    tools [a] and [b]; both lines come in one chunk of its output.  The
    loop of [processBuffer] resolves the promise of the request, takes the
    notification ([this.tools] is [a], [b]), and only then does
    [initialize] go on, with [this.tools = result?.tools ?? []]:
    [listTools()] ends with the older set [list-x].  The same two lines in
    two chunks end with the newest set, [a] and [b]. *)
Theorem stale_listing_overwrites_the_notification :
  let response :=
    wire_octets "{'jsonrpc':'2.0','id':'req-0-1','result':{'tools':[{'name':'list-x'}]}}"
    ++ [x0a] in
  let notification :=
    wire_octets "{'jsonrpc':'2.0','method':'tools/list','params':{'tools':[{'name':'a'},{'name':'b'}]}}"
    ++ [x0a] in
  let whole := feed [response ++ notification] client_listing in
  let apart := feed [response; notification] client_listing in
  snd whole = None /\ snd apart = None
  /\ parsed (fst whole) = parsed (fst apart)
  /\ List.last (parsed (fst whole)) VNull = parsed_or_null tools_notification
  /\ initialized (fst whole) = true
  /\ listTools (fst whole) = VArr [obj [("name", str "list-x")]]
  /\ initialized (fst apart) = true
  /\ listTools (fst apart) = VArr [obj [("name", str "a")]; obj [("name", str "b")]].
Proof. evaluate. Qed.


(** C9, as stated: [callTool('list-x', {})] is outstanding and the child
    answers with an error object whose code is an object with an own
    [toString].  The call does not fail with an error of the code and the
    message of the child: it is never settled, and the exception of the
    conversion leaves the listener. *)
Lemma remote_error_that_never_arrives :
  let st := fst (callTool (str "list-x") (obj []) client_ready) in
  let chunk :=
    wire_octets "{'jsonrpc':'2.0','id':'req-0-2','error':{'code':{'toString':1},'message':'denied'}}"
    ++ [x0a] in
  snd (callTool (str "list-x") (obj []) client_ready) = Waiting (js "req-0-2")
  /\ pending st !! js "req-0-2" = Some {| pc_schema := None; pc_kont := KCaller |}
  /\ snd (on_data chunk st) = Some cannot_convert
  /\ effects (fst (on_data chunk st)) = effects st
  /\ microtasks (fst (on_data chunk st)) = []
  /\ pending (fst (on_data chunk st)) !! js "req-0-2" = None.
Proof. evaluate. Qed.

(** C10, as stated: a message with a [method] and an [id] whose method no
    callback serves, and no answer.  First the child has exited before its
    last output is read: [sendResponse] returns without writing.  Then the
    message also carries a [result]: the code takes it for a response, and
    no call is outstanding under its id. *)
Lemma request_left_unanswered :
  (let req := parsed_or_null unknown_request in
   JSON_parse unknown_request = Some req
   /\ has_in "method" req = Some true /\ has_in "id" req = Some true
   /\ handler_for (get req "method") (opts client_ready) = None
   /\ child (on_exit client_ready) = None
   /\ effects (fst (on_text (unknown_request ++ [LF]) (on_exit client_ready)))
      = effects client_ready)
  /\ (let req := parsed_or_null request_with_result in
      JSON_parse request_with_result = Some req
      /\ has_in "method" req = Some true /\ has_in "id" req = Some true
      /\ handler_for (get req "method") (opts client_ready) = None
      /\ child client_ready = Some 0%nat
      /\ effects (fst (on_text (request_with_result ++ [LF]) client_ready))
         = effects client_ready).
Proof. evaluate. Qed.


Lemma callTool_contract_witness :
  microtasks client_ready = []
  /\ child client_ready = Some 0%nat
  /\ snd (callTool (str "list-x") (obj []) client_ready) = Waiting (js "req-0-2")
  /\ microtasks (on_exit client_ready) = []
  /\ child (on_exit client_ready) = None
  /\ callTool (str "list-x") (obj []) (on_exit client_ready)
     = (on_exit client_ready, Failed (Error (js "MCP process not started")))
  /\ (let chunk :=
        wire_octets "{'jsonrpc':'2.0','id':'req-0-2','error':{'code':-32000,'message':'denied'}}"
        ++ [x0a] in
      let st' := fst (callTool (str "list-x") (obj []) client_ready) in
      snd (on_data chunk st') = None
      /\ effects (fst (on_data chunk st'))
         = effects st' ++ [Settled (js "req-0-2") (Rejected (Error (js "-32000: denied")))]).
Proof.
  assert (H1 : microtasks client_ready = []) by (vm_compute; reflexivity).
  assert (H2 : child client_ready = Some 0%nat) by (vm_compute; reflexivity).
  assert (H3 : microtasks (on_exit client_ready) = []) by (vm_compute; reflexivity).
  assert (H4 : child (on_exit client_ready) = None) by (vm_compute; reflexivity).
  split; [exact H1|]. split; [exact H2|].
  split; [exact (proj1 (proj2 (callTool_contract (str "list-x") (obj []) client_ready H1)
                         0%nat H2))|].
  split; [exact H3|]. split; [exact H4|].
  split; [exact (proj1 (callTool_contract (str "list-x") (obj []) (on_exit client_ready) H3)
                   H4)|].
  cbv zeta.
  destruct (proj2 (callTool_contract (str "list-x") (obj []) client_ready H1) 0%nat H2)
    as (_ & _ & _ & Hanswer).
  destruct (Hanswer
              (wire_octets "{'jsonrpc':'2.0','id':'req-0-2','error':{'code':-32000,'message':'denied'}}"
               ++ [x0a])
              call_error (parsed_or_null call_error)) as (_ & Herror & _).
  - vm_compute; reflexivity.
  - apply one_line_check. vm_compute; reflexivity.
  - vm_compute; reflexivity.
  - split; [|right]; vm_compute; reflexivity.
  - vm_compute; reflexivity.
  - destruct (Herror (map (fun kv => (js (fst kv), snd kv))
                        [("code", VNum (-32000)); ("message", str "denied")]))
      as [Hnone Heff].
    + vm_compute; reflexivity.
    + vm_compute; reflexivity.
    + split; [exact Hnone|]. rewrite Heff. vm_compute; reflexivity.
Defined.

Lemma unsupported_request_answered_witness :
  let req := parsed_or_null unknown_request in
  is_request req
  /\ ~ (get req "method" = str "prompts/get" /\ is_Some (onPrompt (opts client_ready)))
  /\ ~ (get req "method" = str "resources/read"
        /\ is_Some (onResourceRequest (opts client_ready)))
  /\ effects (fst (dispatch req client_ready)) =
     effects client_ready ++
     [StdinWrite 0
        (wire "{'jsonrpc':'2.0','id':7,'error':{'code':-32601,'message':'Method not found: sampling/createMessage'}}"
         ++ [LF])]
  /\ dispatch req (on_exit client_ready) = (on_exit client_ready, None).
Proof.
  cbv zeta.
  assert (H1 : is_request (parsed_or_null unknown_request))
    by (unfold is_request; evaluate).
  assert (H2 : ~ (get (parsed_or_null unknown_request) "method" = str "prompts/get"
                  /\ is_Some (onPrompt (opts client_ready))))
    by (intros [H _]; vm_compute in H; discriminate).
  assert (H3 : ~ (get (parsed_or_null unknown_request) "method" = str "resources/read"
                  /\ is_Some (onResourceRequest (opts client_ready))))
    by (intros [H _]; vm_compute in H; discriminate).
  split; [exact H1|]. split; [exact H2|]. split; [exact H3|]. split.
  - rewrite (unsupported_request_answered _ client_ready H1 H2 H3).
    vm_compute. reflexivity.
  - assert (H2' : ~ (get (parsed_or_null unknown_request) "method" = str "prompts/get"
                     /\ is_Some (onPrompt (opts (on_exit client_ready)))))
      by (intros [H _]; vm_compute in H; discriminate).
    assert (H3' : ~ (get (parsed_or_null unknown_request) "method" = str "resources/read"
                     /\ is_Some (onResourceRequest (opts (on_exit client_ready)))))
      by (intros [H _]; vm_compute in H; discriminate).
    rewrite (unsupported_request_answered _ (on_exit client_ready) H1 H2' H3').
    vm_compute. reflexivity.
Defined.

Lemma listTools_tracks_announcements_witness :
  listTools client_new = VArr []
  /\ listTools client_ready = VArr [obj [("name", str "list-x")]]
  /\ initialized client_ready = true
  /\ listTools (fst (on_text (tools_notification ++ [LF]) client_ready))
     = VArr [obj [("name", str "a")]; obj [("name", str "b")]].
Proof.
  destruct listTools_tracks_announcements as (Hnew & Hlist & Hnote).
  split; [apply Hnew|].
  assert (Hline : forall l, (forallb (fun c => negb (c =? LF)) l && str_truthy (trim l)) = true
                            -> one_line l).
  { intros l H. apply andb_true_iff in H as [H1 H2]. split; [|exact H2].
    apply Forall_forall. intros c Hc. rewrite forallb_forall in H1.
    apply list_elem_of_In in Hc. specialize (H1 c Hc). apply negb_true_iff, N.eqb_neq in H1. exact H1. }
  assert (Hready :
            listTools client_ready
            = nullish (opt_get (get (parsed_or_null tools_response) "result") "tools") (VArr [])
            /\ initialized client_ready = true).
  { apply (Hlist client_listing (js "req-0-1") tools_response (parsed_or_null tools_response)).
    - vm_compute; reflexivity.
    - vm_compute; reflexivity.
    - vm_compute; reflexivity.
    - apply Hline. vm_compute; reflexivity.
    - vm_compute; reflexivity.
    - split; [|left]; vm_compute; reflexivity.
    - vm_compute; reflexivity.
    - vm_compute; reflexivity. }
  split; [rewrite (proj1 Hready); vm_compute; reflexivity|].
  split; [exact (proj2 Hready)|].
  rewrite (Hnote client_ready tools_notification (parsed_or_null tools_notification)).
  - vm_compute; reflexivity.
  - vm_compute; reflexivity.
  - vm_compute; reflexivity.
  - apply Hline. vm_compute; reflexivity.
  - vm_compute; reflexivity.
  - unfold is_notification; evaluate.
  - vm_compute; reflexivity.
Defined.

Lemma prompt_without_connections_fails_at_once_witness :
  let params := obj [("name", str "login")] in
  let m' := fst (handlePromptForSession S1 params prompt_time manager_ready) in
  (exists session, find_session S1 manager_ready = Some (0%nat, session)
                   /\ wsConnections session = [])
  /\ promises m' !! snd (handlePromptForSession S1 params prompt_time manager_ready)
     = Some (Some (Rejected (Error (js "No connected clients to handle prompt"))))
  /\ timers m' !! timer_count manager_ready = None.
Proof.
  cbv zeta.
  assert (H : exists session, find_session S1 manager_ready = Some (0%nat, session)
                              /\ wsConnections session = [])
    by (eexists; split; vm_compute; reflexivity).
  split; [exact H|]. destruct H as (session & H1 & H2).
  destruct (prompt_without_connections_fails_at_once S1 (obj [("name", str "login")])
              prompt_time manager_ready 0%nat session H1 H2) as (_ & Hp & Ht & _).
  split; [exact Hp|exact Ht].
Defined.

Lemma prompt_response_takes_effect_once_witness :
  let pid := prompt_id S1 prompt_time in
  let m1 := handlePromptResponse S1 pid (str "yes") manager_prompting in
  (exists session resolver,
      find_session S1 manager_prompting = Some (0%nat, session)
      /\ JsMap.get pid (promptResolvers session) = Some resolver
      /\ timers m1 = delete (timeout resolver) (timers manager_prompting))
  /\ handlePromptResponse S1 pid (str "no") m1 = m1.
Proof.
  cbv zeta.
  destruct (prompt_response_takes_effect_once S1 (prompt_id S1 prompt_time)
              (str "yes") (str "no") manager_prompting) as [Hfirst Hsecond].
  split; [|exact Hsecond].
  assert (H : exists session resolver,
             find_session S1 manager_prompting = Some (0%nat, session)
             /\ JsMap.get (prompt_id S1 prompt_time) (promptResolvers session) = Some resolver)
    by (do 2 eexists; split; vm_compute; reflexivity).
  destruct H as (session & resolver & H1 & H2).
  exists session, resolver. split; [exact H1|]. split; [exact H2|].
  exact (proj1 (proj2 (Hfirst 0%nat session resolver H1 H2))).
Defined.

Lemma reaper_destroys_exactly_idle_unattached_witness :
  let now := (1000 + IDLE_TIMEOUT + 1)%Z in
  registry_wf manager_two_sessions
  /\ JsMap.get S1 (sessions (cleanupIdleSessions now manager_two_sessions)) = None
  /\ JsMap.get S2 (sessions (cleanupIdleSessions now manager_two_sessions)) = Some 1%nat.
Proof.
  cbv zeta.
  assert (Hwf : registry_wf manager_two_sessions).
  { unfold registry_wf. split; [|split].
    - apply (bool_decide_unpack (NoDup _)). vm_compute. exact I.
    - apply (bool_decide_unpack (NoDup _)). vm_compute. exact I.
    - apply (bool_decide_unpack (Forall _ _)). vm_compute. exact I. }
  assert (H1 : exists session, find_session S1 manager_two_sessions = Some (0%nat, session)
                               /\ wsConnections session = []
                               /\ lastActivity session = 1000%Z)
    by (eexists; split; [|split]; vm_compute; reflexivity).
  assert (H2 : exists session, find_session S2 manager_two_sessions = Some (1%nat, session)
                               /\ wsConnections session = [0%nat])
    by (eexists; split; vm_compute; reflexivity).
  split; [exact Hwf|].
  destruct H1 as (s1 & Hf1 & Hc1 & Ha1). destruct H2 as (s2 & Hf2 & Hc2).
  split.
  - apply (reaper_destroys_exactly_idle_unattached _ _ _ _ _ Hwf Hf1).
    rewrite Ha1, Hc1. split; [vm_compute; reflexivity|reflexivity].
  - destruct (reaper_destroys_exactly_idle_unattached
                (1000 + IDLE_TIMEOUT + 1)%Z _ _ _ _ Hwf Hf2) as (_ & _ & Hstay).
    assert (Hfind := Hstay ltac:(rewrite Hc2; discriminate)).
    now apply find_session_inv in Hfind.
Defined.

(** *** Runs of the model *)

(** The first scenario of the specification: session [S1], one connection,
    one configuration: one server process, with the environment id in its
    environment; the call of [list-x] with [{}] goes to the child as a
    [tools/call] request and the result of the child comes back as it is. *)
Example configure_then_call :
  spawn_count manager_attached = 1%nat
  /\ (exists client, clients manager_attached !! 0%nat = Some client
        /\ effects client !! 0%nat =
           Some (Spawned (js "/app/bin/pingone-mcp-server")
                   [js "run"; js "--disable-read-only"]
                   (Some (js "/tmp/mcp-sessions/S1"))
                   [(js "PATH", str "/usr/bin");
                    (js "PINGONE_MCP_INTERACTIVE", str "true");
                    (js "PINGONE_MCP_ENVIRONMENT_ID", str "e1");
                    (js "PINGONE_AUTHORIZATION_CODE_CLIENT_ID", str "c1");
                    (js "PINGONE_REGION_CODE", str "NA");
                    (js "PINGONE_TOP_LEVEL_DOMAIN", str ".com")]))
  /\ (exists client, clients manager_calling !! 0%nat = Some client
        /\ List.last (effects client) InitializeDone =
           StdinWrite 0
             (wire "{'jsonrpc':'2.0','id':'req-0-2','method':'tools/call','params':{'name':'list-x','arguments':{}}}"
              ++ [LF]))
  /\ (exists client,
        clients (fst (child_data 0 (wire_octets "{'jsonrpc':'2.0','id':'req-0-2','result':{'items':[1,2]}}" ++ [x0a])
                        4000 manager_calling)) !! 0%nat = Some client
        /\ List.last (effects client) InitializeDone =
           Settled (js "req-0-2")
             (Resolved (obj [("items", VArr [VNum 1; VNum 2])]))).
Proof.
  split; [vm_compute; reflexivity|].
  split; [eexists; split; vm_compute; reflexivity|].
  split; eexists; split; vm_compute; reflexivity.
Qed.

(** The second scenario: the child asks for a prompt while no connection
    is attached.  Its request is answered with the failure "No connected
    clients to handle prompt", and the session is left with an empty prompt
    map and no prompt timeout armed (the timeout of the login is). *)
Example prompt_with_no_connection :
  let m := fst (child_data 0 one_prompt prompt_time manager_ready) in
  (exists client, clients m !! 0%nat = Some client
     /\ List.last (effects client) InitializeDone =
        StdinWrite 0
          (wire "{'jsonrpc':'2.0','id':'p1','error':{'code':-32603,'message':'No connected clients to handle prompt'}}"
           ++ [LF]))
  /\ (exists session, find_session S1 m = Some (0%nat, session)
        /\ promptResolvers session = [])
  /\ timers m = timers manager_ready
  /\ awaiting m = [].
Proof.
  cbv zeta. split; [eexists; split; vm_compute; reflexivity|].
  split; [eexists; split; vm_compute; reflexivity|].
  split; vm_compute; reflexivity.
Qed.

(** A notification that is read in the same chunk as the response to the
    [tools/list] request of [initialize] is read before [initialize] goes
    on: the assignment [this.tools = result?.tools ?? []] comes last. *)
Example notification_read_before_initialize_resumes :
  let st := fst (on_text response_then_notification client_listing) in
  initialized st = true
  /\ listTools st = VArr [obj [("name", str "list-x")]].
Proof. evaluate. Qed.

(** Responses are matched by id, not by order: the second call is answered
    first, the first stays outstanding, and is answered next. *)
Example responses_out_of_order :
  let st1 := fst (on_text (call_response_second ++ [LF]) client_calling_twice) in
  let st2 := fst (on_text (call_response ++ [LF]) st1) in
  dom (pending client_calling_twice) = {[js "req-0-2"; js "req-0-3"]}
  /\ dom (pending st1) = {[js "req-0-2"]}
  /\ List.last (effects st1) InitializeDone
     = Settled (js "req-0-3") (Resolved (obj [("items", VArr [])]))
  /\ dom (pending st2) = ∅
  /\ List.last (effects st2) InitializeDone
     = Settled (js "req-0-2") (Resolved (obj [("items", VArr [VNum 1; VNum 2])])).
Proof. evaluate. Qed.

End Concrete.

(** * Further properties of the read path *)

Section ReadPathFacts.
Context `{RT : Runtime}.
Import Framing.

Lemma split_nl_pieces (s : jsstring) :
  Forall (Forall (fun c => c <> LF)) (split_nl s).
Proof.
  induction s as [|c s IH]; cbn [split_nl]; [repeat constructor|].
  destruct (c =? LF) eqn:Hc; [constructor; [constructor|exact IH]|].
  apply N.eqb_neq in Hc.
  destruct (split_nl s) as [|p ps]; [repeat constructor; exact Hc|].
  apply Forall_cons in IH as [Hp Hps]. constructor; [constructor; assumption|exact Hps].
Qed.

(** Joining the pieces of [split] with line feeds gives the text back. *)
Lemma split_nl_join (s : jsstring) :
  concat (map (fun l => l ++ [LF]) (removelast (split_nl s))) ++ List.last (split_nl s) [] = s.
Proof.
  induction s as [|c s IH]; [reflexivity|].
  pose proof (split_nl_nonempty s) as Hne. cbn [split_nl].
  destruct (c =? LF) eqn:Hc.
  - apply N.eqb_eq in Hc. subst c.
    destruct (split_nl s) as [|p ps]; [congruence|].
    change (removelast ([] :: p :: ps)) with ([] :: removelast (p :: ps)).
    change (List.last ([] :: p :: ps) []) with (List.last (p :: ps) []).
    cbn [map concat app]. now rewrite IH.
  - destruct (split_nl s) as [|p [|q ps]]; [congruence| |].
    + cbn in IH |- *. now rewrite IH.
    + change (removelast ((c :: p) :: q :: ps)) with ((c :: p) :: removelast (q :: ps)).
      change (List.last ((c :: p) :: q :: ps) []) with (List.last (q :: ps) []).
      change (removelast (p :: q :: ps)) with (p :: removelast (q :: ps)) in IH.
      change (List.last (p :: q :: ps) []) with (List.last (q :: ps) []) in IH.
      cbn [map concat app] in IH |- *. now rewrite IH.
Qed.

Lemma Forall_last {A} (P : A -> Prop) (l : list A) (d : A) :
  P d -> Forall P l -> P (List.last l d).
Proof.
  intros Hd. induction 1 as [|x l Hx Hl IH]; [exact Hd|].
  destruct l; [exact Hx|exact IH].
Qed.

Lemma Forall_removelast {A} (P : A -> Prop) (l : list A) :
  Forall P l -> Forall P (removelast l).
Proof.
  induction 1 as [|x l Hx Hl IH]; [constructor|].
  destruct l; [constructor|]. constructor; assumption.
Qed.

Lemma on_text_buffer text (st : Client) :
  buffer (fst (on_text text st)) = List.last (split_nl (buffer st ++ text)) [].
Proof.
  unfold on_text, processBuffer. cbn [buffer set_buffer].
  match goal with |- context [process_parts ?ps ?s0] =>
    pose proof (process_parts_buffer ps s0) as H;
    destruct (process_parts ps s0) as [s1 [e|]]
  end; cbn [fst] in *; [exact H|].
  destruct (run_microtasks_reader s1) as [-> _]. exact H.
Qed.

(** The listener consumes whole lines and keeps the rest: what was in the
    buffer followed by the text of the chunk is the lines taken, each with
    its line feed, followed by the new buffer; no line taken and no buffer
    kept has a line feed inside. *)
Theorem buffer_keeps_the_partial_line text (st : Client) :
  exists lines,
    buffer st ++ text
    = concat (map (fun l => l ++ [LF]) lines) ++ buffer (fst (on_text text st))
    /\ Forall (Forall (fun c => c <> LF)) lines
    /\ Forall (fun c => c <> LF) (buffer (fst (on_text text st))).
Proof.
  exists (removelast (split_nl (buffer st ++ text))). rewrite on_text_buffer.
  split; [symmetry; apply split_nl_join|]. split.
  - apply Forall_removelast, split_nl_pieces.
  - apply Forall_last; [constructor|apply split_nl_pieces].
Qed.

Lemma same_failure {A} (a b : option A) :
  bool_decide (is_Some a) = bool_decide (is_Some b) -> (is_Some a <-> is_Some b).
Proof.
  intros H. split; intros Hs.
  - apply (bool_decide_eq_true_1 (is_Some b)). rewrite <- H. now apply bool_decide_eq_true_2.
  - apply (bool_decide_eq_true_1 (is_Some a)). rewrite H. now apply bool_decide_eq_true_2.
Qed.

(** However a text is cut into chunks, the listener parses the same
    messages, fails on the same ones, and, when it does not fail, keeps the
    same partial line; this for a text none of whose complete lines is a
    response with an error whose code or message does not convert to a
    string (on such a line the closure of a call throws, and whether the
    call is outstanding when the line is read depends on the cut). *)
Theorem text_cuts_are_invisible chunks (st : Client) :
  chunks <> [] ->
  lines_convert (buffer st ++ concat chunks) = true ->
  parsed (fst (feed_text chunks st)) = parsed (fst (on_text (concat chunks) st))
  /\ (is_Some (snd (feed_text chunks st)) <-> is_Some (snd (on_text (concat chunks) st)))
  /\ (snd (feed_text chunks st) = None ->
      buffer (fst (feed_text chunks st)) = buffer (fst (on_text (concat chunks) st))).
Proof.
  intros Hne Hall. destruct (text_chunking_invariant chunks st Hne Hall) as (Hp & Hd & Hb).
  cbn [reader_of r_parsed r_dead r_buffer] in *.
  split; [exact Hp|]. split.
  - apply same_failure, Hd.
  - intros Hnone. apply Hb. apply bool_decide_eq_false_2. rewrite Hnone.
    intros [? E]; discriminate.
Qed.

Lemma utf8_run_ascii (bs : list N) :
  Forall (fun b => b <= 0x7F) bs -> utf8_run utf8_idle bs = bs.
Proof.
  induction 1 as [|b bs Hb _ IH]; [reflexivity|].
  cbn [utf8_run utf8_step utf8_idle u_needed]. unfold utf8_lead.
  apply N.leb_le in Hb. rewrite Hb. cbn [app]. fold utf8_idle. now rewrite IH.
Qed.

(** Bytes below 0x80 decode to themselves. *)
Lemma toString_utf8_ascii (chunk : list byte) :
  Forall (fun b => Byte.to_N b <= 0x7F) chunk -> toString_utf8 chunk = map Byte.to_N chunk.
Proof.
  intros H. unfold toString_utf8. apply utf8_run_ascii.
  induction H; cbn; constructor; assumption.
Qed.

Lemma concat_toString_ascii (chunks : list (list byte)) :
  Forall (Forall (fun b => Byte.to_N b <= 0x7F)) chunks ->
  concat (map toString_utf8 chunks) = toString_utf8 (concat chunks).
Proof.
  intros H. rewrite (toString_utf8_ascii (concat chunks)).
  - induction H as [|c cs Hc _ IH]; [reflexivity|].
    cbn [map concat]. now rewrite map_app, IH, (toString_utf8_ascii c Hc).
  - induction H as [|c cs Hc _ IH]; [constructor|]. cbn [concat]. now apply Forall_app.
Qed.

(** An output of the child that is ASCII may be cut anywhere: the chunks
    read one by one parse as the whole output read at once; this for an
    output none of whose complete lines is a response with an error whose
    code or message does not convert to a string. *)
Theorem ascii_cuts_are_invisible chunks (st : Client) :
  chunks <> [] ->
  Forall (Forall (fun b => Byte.to_N b <= 0x7F)) chunks ->
  lines_convert (buffer st ++ toString_utf8 (concat chunks)) = true ->
  parsed (fst (feed chunks st)) = parsed (fst (on_data (concat chunks) st))
  /\ (is_Some (snd (feed chunks st)) <-> is_Some (snd (on_data (concat chunks) st)))
  /\ (snd (feed chunks st) = None ->
      buffer (fst (feed chunks st)) = buffer (fst (on_data (concat chunks) st))).
Proof.
  intros Hne Hascii Hall. rewrite feed_as_text. unfold on_data.
  rewrite <- (concat_toString_ascii chunks Hascii) in *.
  assert (Hne' : map toString_utf8 chunks <> []) by (destruct chunks; [congruence|discriminate]).
  destruct (text_chunking_invariant (map toString_utf8 chunks) st Hne' Hall) as (Hp & Hd & Hb).
  cbn [reader_of r_parsed r_dead r_buffer] in *.
  split; [exact Hp|]. split.
  - apply same_failure, Hd.
  - intros Hnone. apply Hb. apply bool_decide_eq_false_2. rewrite Hnone.
    intros [? E]; discriminate.
Qed.

End ReadPathFacts.

(** * Further properties of the client *)

Section ClientEdgeFacts.
Context `{RT : Runtime}.
Import Framing.

Lemma dispatch_response_cases msg (st : Client) :
  is_response msg ->
  dispatch msg st =
  match msg_key (get msg "id") with
  | Some id =>
      match pending st !! id with
      | Some handler =>
          match handler_outcome (pc_schema handler) msg with
          | inl o =>
              (enqueue (pc_kont handler) o
                 (emit (Settled id o) (set_pending (delete id (pending st)) st)),
               None)
          | inr e => (set_pending (delete id (pending st)) st, Some e)
          end
      | None => (st, None)
      end
  | None => (st, None)
  end.
Proof.
  intros [Hid Hres]. unfold dispatch. rewrite Hid.
  destruct (is_response_object msg (conj Hid Hres)) as [props ->].
  cbn [has_in] in *.
  assert (Hor : bool_decide (is_Some (lookup_prop (js "result") props))
                || bool_decide (is_Some (lookup_prop (js "error") props)) = true).
  { destruct Hres as [H|H]; injection H as ->; [reflexivity|apply orb_true_r]. }
  rewrite Hor. cbn [andb]. reflexivity.
Qed.

(** A response is consumed by the call it answers: the same response read
    a second time, like any response whose id is not outstanding, changes
    nothing and settles nothing. *)
Theorem repeated_response_is_ignored msg (st : Client) :
  is_response msg ->
  dispatch msg (fst (dispatch msg st)) = (fst (dispatch msg st), None).
Proof.
  intros H. rewrite (dispatch_response_cases msg st H).
  destruct (msg_key (get msg "id")) as [id|] eqn:Hk.
  - destruct (pending st !! id) as [h|] eqn:Hp; cbn [fst].
    + destruct (handler_outcome (pc_schema h) msg) as [o|e]; cbn [fst];
        rewrite (dispatch_response_cases msg _ H), Hk;
        cbn [pending enqueue emit set_pending set_microtasks];
        now rewrite lookup_delete_eq.
    + now rewrite (dispatch_response_cases msg st H), Hk, Hp.
  - cbn [fst]. now rewrite (dispatch_response_cases msg st H), Hk.
Qed.

(** A notification of the child is never answered: whatever its method,
    nothing is written to the child, no call is settled and [pending] is
    left alone; a method other than [tools/list] leaves the tools alone
    too. *)
Theorem notification_is_never_answered line msg (st : Client) :
  buffer st = [] -> microtasks st = [] ->
  one_line line -> JSON_parse line = Some msg -> is_notification msg ->
  snd (on_text (line ++ [LF]) st) = None
  /\ effects (fst (on_text (line ++ [LF]) st)) = effects st
  /\ pending (fst (on_text (line ++ [LF]) st)) = pending st
  /\ (strict_eq_str (get msg "method") "tools/list" = false ->
      tools (fst (on_text (line ++ [LF]) st)) = tools st).
Proof.
  intros Hbuf Hq Hline Hparse Hn.
  rewrite (on_text_line line msg st Hbuf Hline Hparse), (dispatch_notification msg _ Hn).
  cbn [fst snd]. rewrite run_microtasks_idle.
  - destruct (strict_eq_str (get msg "method") "tools/list");
      (split; [reflexivity|split; [reflexivity|split; [reflexivity|]]]);
      [discriminate|reflexivity].
  - now destruct (strict_eq_str (get msg "method") "tools/list").
Qed.

Lemma dispatch_primitive msg (st : Client) :
  is_primitive msg = true ->
  dispatch msg st =
  (st, Some (TypeError (js "Cannot use 'in' operator to search for 'id' in " ++ tpl msg))).
Proof. destruct msg; try discriminate; reflexivity. Qed.

(** A line that parses to a value that is not an object (a number, a
    string, a boolean, [null]) makes the listener throw [TypeError]: the
    message is read, the lines that follow it in the chunk are neither
    handled nor kept, and only the text after the last line feed stays in
    the buffer. *)
Theorem primitive_message_ends_the_listener line msg rest (st : Client) :
  buffer st = [] -> one_line line -> JSON_parse line = Some msg ->
  is_primitive msg = true ->
  on_text (line ++ LF :: rest) st
  = (note_parsed msg (set_buffer (List.last (split_nl rest) []) st),
     Some (TypeError (js "Cannot use 'in' operator to search for 'id' in " ++ tpl msg))).
Proof.
  intros Hbuf [Hlf Hblank] Hparse Hprim. unfold on_text, processBuffer.
  cbn [buffer set_buffer]. rewrite Hbuf. cbn [app].
  rewrite (split_nl_line line rest Hlf).
  pose proof (split_nl_nonempty rest) as Hne.
  destruct (split_nl rest) as [|p ps] eqn:Hs; [congruence|].
  change (removelast (line :: p :: ps)) with (line :: removelast (p :: ps)).
  change (List.last (line :: p :: ps) []) with (List.last (p :: ps) []).
  cbn [process_parts]. rewrite Hblank, Hparse. cbn [negb].
  rewrite (dispatch_primitive msg _ Hprim). reflexivity.
Qed.

Lemma process_parts_skip l line rest : forall st : Client,
  (str_truthy (trim line) = false \/ JSON_parse line = None) ->
  process_parts (l ++ line :: rest) st = process_parts (l ++ rest) st.
Proof.
  induction l as [|raw l IH]; intros st Hbad; cbn [app process_parts].
  - destruct Hbad as [-> | ->]; [reflexivity|]. now destruct (negb (str_truthy (trim line))).
  - destruct (negb (str_truthy (trim raw))); [now apply IH|].
    destruct (JSON_parse raw) as [msg|]; [|now apply IH].
    destruct (dispatch msg (note_parsed msg st)) as [st' [e|]]; [reflexivity|now apply IH].
Qed.

Lemma split_nl_line_start (s : jsstring) :
  (s = [] \/ exists s', s = s' ++ [LF]) -> List.last (split_nl s) [] = [].
Proof.
  intros [->|[s' ->]]; [reflexivity|].
  rewrite split_nl_app.
  assert (Hlf : Forall (fun c => c <> LF) (List.last (split_nl s') [])).
  { apply Forall_last; [constructor|apply split_nl_pieces]. }
  rewrite (split_nl_line _ [] Hlf). cbn [split_nl].
  now rewrite last_app_nonempty.
Qed.

(** A line that is blank or that [JSON.parse] rejects is dropped, and the
    text around it is read as if the line had not been there. *)
Theorem unreadable_line_is_skipped pre line post (st : Client) :
  (buffer st ++ pre = [] \/ exists s, buffer st ++ pre = s ++ [LF]) ->
  Forall (fun c => c <> LF) line ->
  (str_truthy (trim line) = false \/ JSON_parse line = None) ->
  on_text (pre ++ line ++ LF :: post) st = on_text (pre ++ post) st.
Proof.
  intros Hstart Hlf Hbad. unfold on_text, processBuffer. cbn [buffer set_buffer].
  change (set_buffer ?x (set_buffer ?y st)) with (set_buffer x st).
  rewrite !(app_assoc (buffer st) pre).
  rewrite (split_nl_app (buffer st ++ pre) (line ++ LF :: post)).
  rewrite (split_nl_app (buffer st ++ pre) post).
  rewrite (split_nl_line_start _ Hstart). cbn [app].
  rewrite (split_nl_line line post Hlf).
  pose proof (split_nl_nonempty post) as Hne.
  destruct (split_nl post) as [|p ps]; [congruence|].
  rewrite !removelast_app_nonempty by discriminate.
  rewrite !last_app_nonempty by discriminate.
  change (removelast (line :: p :: ps)) with (line :: removelast (p :: ps)).
  change (List.last (line :: p :: ps) []) with (List.last (p :: ps) []).
  now rewrite (process_parts_skip _ line _ _ Hbad).
Qed.

End ClientEdgeFacts.

(** ** The correlation ids of a client *)

Section ClientInvariant.
Context `{RT : Runtime}.
Import ClientRun.
Variable c : nat.
Hypothesis uuid_inj : forall k k', uuid c k = uuid c k' -> k = k'.

Lemma ids_issued_same (st st' : Client) :
  cid st' = cid st -> uuids st' = uuids st -> pending st' = pending st ->
  ids_issued st -> ids_issued st'.
Proof. unfold ids_issued. intros -> -> ->. auto. Qed.

Lemma grows_same (st st' : Client) :
  cid st' = cid st -> uuids st' = uuids st -> pending st' = pending st -> grows st st'.
Proof. intros H1 H2 H3. unfold grows. rewrite H1, H2, H3. auto. Qed.

Lemma grows_trans (st1 st2 st3 : Client) : grows st1 st2 -> grows st2 st3 -> grows st1 st3.
Proof.
  intros (Ha & Hb & Hc) (Ha' & Hb' & Hc'). split; [congruence|]. split; [lia|auto].
Qed.

Lemma sendRequest_grows method params schema k (st : Client) :
  cid st = c -> ids_issued st ->
  ids_issued (fst (sendRequest method params schema k st))
  /\ grows st (fst (sendRequest method params schema k st)).
Proof.
  intros Hc Hi. unfold sendRequest. destruct (child st) as [p|]; cbn [fst].
  - split.
    + intros id Hid. cbn [pending emit set_pending set_uuids cid uuids] in *.
      destruct (decide (id = uuid (cid st) (uuids st))) as [->|Hne].
      * exists (uuids st). split; [lia|reflexivity].
      * rewrite lookup_insert_ne in Hid by congruence.
        destruct (Hi id Hid) as (k' & Hk & ->). exists k'. split; [lia|reflexivity].
    + split; [reflexivity|]. split; [cbn; lia|]. intros id h Hp.
      cbn [pending emit set_pending set_uuids cid uuids].
      rewrite lookup_insert_ne; [exact Hp|]. intros <-.
      destruct (Hi _ (mk_is_Some _ _ Hp)) as (k' & Hk & Heq).
      rewrite Hc in Heq. apply uuid_inj in Heq. lia.
  - split; [exact Hi|]. now apply grows_same.
Qed.

Lemma run_microtask_grows t (st : Client) :
  cid st = c -> ids_issued st ->
  ids_issued (run_microtask t st) /\ grows st (run_microtask t st).
Proof.
  intros Hc Hi. destruct t as [[| |] o]; cbn [run_microtask].
  - split; [exact Hi|now apply grows_same].
  - now apply sendRequest_grows.
  - unfold init_after_tools. destruct o; split;
      try (apply (ids_issued_same st); [reflexivity..|exact Hi]); now apply grows_same.
Qed.

Lemma drain_grows fuel : forall st : Client,
  cid st = c -> ids_issued st ->
  ids_issued (drain fuel st) /\ grows st (drain fuel st).
Proof.
  induction fuel as [|fuel IH]; intros st Hc Hi; cbn [drain].
  - split; [exact Hi|now apply grows_same].
  - destruct (microtasks st) as [|t q]; [split; [exact Hi|now apply grows_same]|].
    assert (Hi' : ids_issued (set_microtasks q st)) by (now apply (ids_issued_same st)).
    destruct (run_microtask_grows t (set_microtasks q st) Hc Hi') as [Hi2 Hg2].
    destruct (IH (run_microtask t (set_microtasks q st))) as [Hi3 Hg3];
      [destruct Hg2 as [-> _]; exact Hc|exact Hi2|].
    split; [exact Hi3|]. eapply grows_trans; [|exact Hg3].
    eapply grows_trans; [|exact Hg2]. now apply grows_same.
Qed.

Lemma inv_same (st st' : Client) :
  cid st' = cid st -> uuids st' = uuids st -> pending st' = pending st ->
  issued_by c st -> issued_by c st'.
Proof.
  intros H1 H2 H3 [Hc Hi]. split; [congruence|now apply (ids_issued_same st)].
Qed.

Lemma inv_sendRequest method params schema k (st : Client) :
  issued_by c st -> issued_by c (fst (sendRequest method params schema k st)).
Proof.
  intros [Hc Hi]. destruct (sendRequest_grows method params schema k st Hc Hi) as [H1 (H2 & _)].
  split; [congruence|exact H1].
Qed.

Lemma inv_run_microtasks (st : Client) : issued_by c st -> issued_by c (run_microtasks st).
Proof.
  intros [Hc Hi]. unfold run_microtasks.
  destruct (drain_grows (list_sum (map weight (microtasks st))) st Hc Hi) as [H1 (H2 & _)].
  split; [congruence|exact H1].
Qed.

Lemma inv_sendResponse id result error (st : Client) :
  issued_by c st -> issued_by c (sendResponse id result error st).
Proof. unfold sendResponse. destruct (child st); [now apply inv_same|auto]. Qed.

Lemma inv_dispatch msg (st : Client) : issued_by c st -> issued_by c (fst (dispatch msg st)).
Proof.
  intros H. unfold dispatch, handleServerRequest.
  repeat match goal with
         | |- context [match ?x with _ => _ end] => destruct x eqn:?
         end; cbn [fst]; try exact H; try (now apply (inv_same st));
    try (now apply inv_sendResponse).
  all: destruct H as [Hc Hi]; split; [exact Hc|]; intros id Hid;
    cbn [pending enqueue emit set_pending set_microtasks cid uuids] in *;
    apply Hi; destruct Hid as [h Hh]; apply lookup_delete_Some in Hh as [_ Hh]; eauto.
Qed.

Lemma inv_process_parts parts : forall st : Client,
  issued_by c st -> issued_by c (fst (process_parts parts st)).
Proof.
  induction parts as [|raw rest IH]; intros st H; cbn [process_parts]; [exact H|].
  destruct (negb (str_truthy (trim raw))); [now apply IH|].
  destruct (JSON_parse raw) as [msg|]; [|now apply IH].
  assert (H' : issued_by c (fst (dispatch msg (note_parsed msg st)))).
  { apply inv_dispatch. now apply (inv_same st). }
  destruct (dispatch msg (note_parsed msg st)) as [st' [e|]]; [exact H'|now apply IH].
Qed.

Lemma inv_on_text text (st : Client) : issued_by c st -> issued_by c (fst (on_text text st)).
Proof.
  intros H. unfold on_text, processBuffer.
  match goal with |- context [process_parts ?p ?s] =>
    assert (H' : issued_by c (fst (process_parts p s)))
      by (apply inv_process_parts; now apply (inv_same st));
    destruct (process_parts p s) as [st' [e|]]
  end; [exact H'|now apply inv_run_microtasks].
Qed.

Lemma inv_initialize b (st : Client) : issued_by c st -> issued_by c (fst (initialize b st)).
Proof.
  intros H. unfold initialize, start. destruct (initialized st); [exact H|].
  destruct (child st); [|destruct (negb b); [exact H|]]; cbn [fst];
    apply inv_run_microtasks, inv_sendRequest; [exact H|now apply (inv_same st)].
Qed.

Lemma inv_callTool name args (st : Client) :
  issued_by c st -> issued_by c (fst (callTool name args st)).
Proof.
  intros H. unfold callTool.
  pose proof (inv_sendRequest "tools/call" (obj [("name", name); ("arguments", args)])
                None KCaller st H) as H'.
  destruct (sendRequest _ _ _ _ st) as [st' t]. now apply inv_run_microtasks.
Qed.

Lemma inv_run ops : forall st : Client, issued_by c st -> issued_by c (fst (run ops st)).
Proof.
  induction ops as [|op ops IH]; intros st H; cbn [run]; [exact H|].
  assert (H' : issued_by c (fst (exec op st))).
  { destruct op; cbn [exec fst].
    - now apply inv_initialize.
    - now apply inv_callTool.
    - now apply inv_on_text.
    - now apply (inv_same st).
    - destruct o; now apply inv_sendResponse. }
  destruct (exec op st) as [st' [e|]]; [exact H'|now apply IH].
Qed.

Lemma inv_new_client o : issued_by c (new_client c o).
Proof. split; [reflexivity|]. intros id [h Hh]. cbn in Hh. now rewrite lookup_empty in Hh. Qed.

(** Whatever the client has done since it was constructed, every id in
    [pending] is one it drew itself, and a new call takes an id that is
    not outstanding: the calls that wait for their response keep their
    entries. *)
Theorem outstanding_calls_are_never_displaced o ops name args :
  ids_issued (fst (run ops (new_client c o)))
  /\ (forall id, snd (callTool name args (fst (run ops (new_client c o)))) = Waiting id ->
                 pending (fst (run ops (new_client c o))) !! id = None)
  /\ (forall id h, pending (fst (run ops (new_client c o))) !! id = Some h ->
                   pending (fst (callTool name args (fst (run ops (new_client c o))))) !! id
                   = Some h).
Proof.
  destruct (inv_run ops _ (inv_new_client o)) as [Hc Hi].
  set (st := fst (run ops (new_client c o))) in *.
  split; [exact Hi|]. split.
  - intros id. unfold callTool, sendRequest. destruct (child st); cbn [snd]; [|discriminate].
    intros [= <-]. destruct (pending st !! uuid (cid st) (uuids st)) as [h|] eqn:Hp; [|reflexivity].
    destruct (Hi _ (mk_is_Some _ _ Hp)) as (k & Hk & Heq).
    rewrite Hc in Heq. apply uuid_inj in Heq. lia.
  - intros id h Hp. unfold callTool.
    destruct (sendRequest_grows "tools/call" (obj [("name", name); ("arguments", args)])
                None KCaller st Hc Hi) as [Hi1 Hg1].
    destruct (sendRequest _ _ _ _ st) as [st' t]. cbn [fst] in *.
    assert (Hc1 : cid st' = c) by (destruct Hg1 as [-> _]; exact Hc).
    destruct (drain_grows (list_sum (map weight (microtasks st'))) st' Hc1 Hi1) as [_ Hg2].
    destruct (grows_trans _ _ _ Hg1 Hg2) as (_ & _ & Hkeep). now apply Hkeep.
Qed.

End ClientInvariant.

(** ** The two requests of [initialize] *)

Section InitializeFacts.
Context `{RT : Runtime}.

Lemma run_microtasks_handshake o p (st : Client) :
  microtasks st = [] -> child st = Some p ->
  run_microtasks (enqueue KInitHandshake o st) = init_after_handshake st.
Proof. intros Hq Hc. destruct st. cbn in Hq, Hc. subst. reflexivity. Qed.

Lemma run_microtasks_tools o (st : Client) :
  microtasks st = [] ->
  run_microtasks (enqueue KInitTools o st) = init_after_tools o st.
Proof. intros Hq. destruct st. cbn in Hq. subst. destruct o; reflexivity. Qed.

Lemma start_attaches (st : Client) :
  exists st1 p, start true st = inl st1 /\ child st1 = Some p
    /\ cid st1 = cid st /\ uuids st1 = uuids st /\ tools st1 = tools st
    /\ buffer st1 = buffer st /\ microtasks st1 = microtasks st
    /\ initialized st1 = initialized st.
Proof.
  unfold start. destruct (child st) as [p|] eqn:Hc.
  - exists st, p. repeat split; assumption.
  - eexists _, _. cbn [negb]. repeat split.
Qed.

Lemma initialize_first_step (st : Client) :
  initialized st = false -> microtasks st = [] -> buffer st = [] ->
  exists p,
    child (fst (initialize true st)) = Some p
    /\ buffer (fst (initialize true st)) = []
    /\ microtasks (fst (initialize true st)) = []
    /\ pending (fst (initialize true st)) !! uuid (cid st) (uuids st)
       = Some {| pc_schema := None; pc_kont := KInitHandshake |}
    /\ cid (fst (initialize true st)) = cid st
    /\ uuids (fst (initialize true st)) = S (uuids st)
    /\ tools (fst (initialize true st)) = tools st
    /\ initialized (fst (initialize true st)) = false.
Proof.
  intros Hinit Hq Hbuf.
  destruct (start_attaches st) as (s1 & p & Hstart & Hchild & Hcid & Huu & Htools & Hb & Hm & Hin).
  exists p. unfold initialize. rewrite Hinit, Hstart. cbn [fst].
  unfold sendRequest. rewrite Hchild. cbn [fst].
  rewrite run_microtasks_idle by (cbn; congruence).
  cbn. rewrite Hcid, Huu, lookup_insert_eq. repeat split; congruence.
Qed.

Lemma handshake_step line msg id p o (st : Client) :
  buffer st = [] -> microtasks st = [] -> child st = Some p ->
  one_line line -> JSON_parse line = Some msg -> is_response msg ->
  get msg "id" = VStr id ->
  pending st !! id = Some {| pc_schema := None; pc_kont := KInitHandshake |} ->
  handler_outcome None msg = inl o ->
  on_text (line ++ [LF]) st
  = (fst (sendRequest "tools/list" VUndefined None KInitTools
            (emit (Settled id o)
               (set_pending (delete id (pending st)) (note_parsed msg (set_buffer [] st))))),
     None).
Proof.
  intros Hbuf Hq Hchild Hline Hparse Hres Hid Hpend Ho.
  rewrite (on_text_line line msg st Hbuf Hline Hparse).
  rewrite (dispatch_response msg id {| pc_schema := None; pc_kont := KInitHandshake |}
             (note_parsed msg (set_buffer [] st)) Hres Hid Hpend).
  cbn [pc_kont pc_schema]. rewrite Ho.
  now rewrite (run_microtasks_handshake _ p).
Qed.

Lemma tools_step line msg id o (st : Client) :
  buffer st = [] -> microtasks st = [] ->
  one_line line -> JSON_parse line = Some msg -> is_response msg ->
  get msg "id" = VStr id ->
  pending st !! id = Some {| pc_schema := None; pc_kont := KInitTools |} ->
  handler_outcome None msg = inl o ->
  on_text (line ++ [LF]) st
  = (init_after_tools o
       (emit (Settled id o)
          (set_pending (delete id (pending st)) (note_parsed msg (set_buffer [] st)))),
     None).
Proof.
  intros Hbuf Hq Hline Hparse Hres Hid Hpend Ho.
  rewrite (on_text_line line msg st Hbuf Hline Hparse).
  rewrite (dispatch_response msg id {| pc_schema := None; pc_kont := KInitTools |}
             (note_parsed msg (set_buffer [] st)) Hres Hid Hpend).
  cbn [pc_kont pc_schema]. rewrite Ho.
  now rewrite run_microtasks_tools.
Qed.

(** What the closure of a call without schema does on a response whose
    error converts. *)
Lemma handler_outcome_plain res o :
  handler_outcome None res = inl o ->
  (truthy (get res "error") = false /\ o = Resolved (get res "result"))
  \/ (truthy (get res "error") = true /\ exists e, o = Rejected e).
Proof.
  unfold handler_outcome. destruct (truthy (get res "error")).
  - intros H. right. split; [reflexivity|].
    destruct (template (get (get res "error") "code")); [|discriminate].
    destruct (template (get (get res "error") "message")); [|discriminate].
    injection H as <-. eauto.
  - intros [= <-]. left. now split.
Qed.

(** [initialize] goes through whether the child answers its two requests
    with a result or with an error, as long as the code and the message of
    an error convert to strings (the number and the string of
    [JsonRpcResponse]).  The response to the handshake, a result or an
    error, is followed by the [tools/list] request; the response to that
    request, a result or an error, makes the client initialized; the tools
    are those of the result, and the ones the client had when the listing
    failed. *)
Theorem initialize_completes_on_result_or_error line1 msg1 line2 msg2 (st : Client) :
  initialized st = false -> microtasks st = [] -> buffer st = [] ->
  one_line line1 -> JSON_parse line1 = Some msg1 -> is_response msg1 ->
  get msg1 "id" = VStr (uuid (cid st) (uuids st)) ->
  error_converts msg1 = true ->
  one_line line2 -> JSON_parse line2 = Some msg2 -> is_response msg2 ->
  get msg2 "id" = VStr (uuid (cid st) (S (uuids st))) ->
  error_converts msg2 = true ->
  let st1 := fst (initialize true st) in
  let st2 := fst (on_text (line1 ++ [LF]) st1) in
  let st3 := fst (on_text (line2 ++ [LF]) st2) in
  initialized st2 = false
  /\ (exists p,
        List.last (effects st2) InitializeDone
        = StdinWrite p
            (JSON_stringify (obj [("jsonrpc", str "2.0");
                                  ("id", VStr (uuid (cid st) (S (uuids st))));
                                  ("method", str "tools/list"); ("params", VUndefined)])
             ++ [LF]))
  /\ initialized st3 = true
  /\ tools st3 = (if truthy (get msg2 "error") then tools st
                  else nullish (opt_get (get msg2 "result") "tools") (VArr [])).
Proof.
  intros Hinit Hq Hbuf Hl1 Hp1 Hr1 Hid1 Hconv1 Hl2 Hp2 Hr2 Hid2 Hconv2 st1.
  destruct (handler_outcome_converts None msg1 Hconv1) as [o1 Ho1].
  destruct (handler_outcome_converts None msg2 Hconv2) as [o2 Ho2].
  destruct (initialize_first_step st Hinit Hq Hbuf)
    as (p & Hc1 & Hb1 & Hq1 & Hpend1 & Hcid1 & Huu1 & Ht1 & Hi1).
  fold st1 in Hc1, Hb1, Hq1, Hpend1, Hcid1, Huu1, Ht1, Hi1. clearbody st1.
  intros st2.
  pose proof (handshake_step line1 msg1 _ p o1 st1 Hb1 Hq1 Hc1 Hl1 Hp1 Hr1 Hid1 Hpend1 Ho1)
    as E2.
  apply (f_equal fst) in E2. cbn [fst] in E2. fold st2 in E2.
  unfold sendRequest in E2. cbn [child emit set_pending note_parsed set_buffer] in E2.
  rewrite Hc1 in E2. cbn [fst cid uuids emit set_pending note_parsed set_buffer] in E2.
  rewrite Hcid1, Huu1 in E2. clearbody st2. intros st3.
  assert (Hb2 : buffer st2 = []) by (rewrite E2; reflexivity).
  assert (Hq2 : microtasks st2 = []) by (rewrite E2; exact Hq1).
  assert (Hpend2 : pending st2 !! uuid (cid st) (S (uuids st))
                   = Some {| pc_schema := None; pc_kont := KInitTools |})
    by (rewrite E2; cbn; apply lookup_insert_eq).
  pose proof (tools_step line2 msg2 _ o2 st2 Hb2 Hq2 Hl2 Hp2 Hr2 Hid2 Hpend2 Ho2) as E3.
  apply (f_equal fst) in E3. cbn [fst] in E3. fold st3 in E3. clearbody st3.
  split; [rewrite E2; exact Hi1|].
  split; [exists p; rewrite E2; cbn [effects emit]; now rewrite last_last|].
  rewrite E3. split; [reflexivity|].
  unfold init_after_tools.
  destruct (handler_outcome_plain msg2 o2 Ho2) as [[-> ->]|[-> [e ->]]]; cbn; [reflexivity|].
  rewrite E2. exact Ht1.
Qed.

End InitializeFacts.

(** * Further properties of the session manager *)

Section SessionFacts.
Context `{RT : Runtime}.
Import SessionManager.

Lemma find_session_update sid r f (m : Manager) session :
  find_session sid m = Some (r, session) ->
  find_session sid (update_session r f m) = Some (r, f session).
Proof.
  intros Hfind. destruct (find_session_inv _ _ _ _ Hfind) as [Hget Hstore].
  rewrite (update_session_store _ _ _ _ Hstore).
  apply find_session_intro; [exact Hget|]. cbn.
  apply list_lookup_insert_eq. now apply lookup_lt_Some in Hstore.
Qed.

(** [getOrCreateSession] called again with the id of a session returns the
    session object it returned the first time: no second session is
    registered, no object allocated, no directory made; the object itself
    has its last activity set to the time of the second call. *)
Theorem getOrCreateSession_again sid now1 now2 d1 d2 (m : Manager) :
  let m1 := fst (getOrCreateSession sid now1 d1 m) in
  let r1 := snd (getOrCreateSession sid now1 d1 m) in
  let m2 := fst (getOrCreateSession sid now2 d2 m1) in
  let r2 := snd (getOrCreateSession sid now2 d2 m1) in
  r2 = r1
  /\ sessions m2 = sessions m1
  /\ length (store m2) = length (store m1)
  /\ made_dirs m2 = made_dirs m1
  /\ exists session,
       find_session sid m1 = Some (r1, session)
       /\ lastActivity session = now1
       /\ find_session sid m2 = Some (r1, with_lastActivity now2 session).
Proof.
  intros m1 r1.
  assert (H1 : exists session, find_session sid m1 = Some (r1, session)
                               /\ lastActivity session = now1).
  { subst m1 r1. unfold getOrCreateSession.
    destruct (find_session sid m) as [[r s]|] eqn:Hfind; cbn [fst snd].
    - exists (with_lastActivity now1 s). split; [now apply find_session_update|reflexivity].
    - exists {| sessionId := sid; mcpClient := None; wsConnections := [];
                lastActivity := now1; promptResolvers := [];
                workDir := session_dir sid; pingoneConfig := None |}.
      split; [|reflexivity]. apply find_session_intro.
      + cbn. apply jsmap_get_set_eq.
      + cbn. destruct d1; cbn; now rewrite lookup_app_r, Nat.sub_diag by reflexivity. }
  destruct H1 as (session & Hfind1 & Hact). clearbody m1 r1. intros m2 r2.
  subst m2 r2. unfold getOrCreateSession. rewrite Hfind1. cbn [fst snd].
  destruct (find_session_inv _ _ _ _ Hfind1) as [Hget Hstore].
  rewrite (update_session_store _ _ _ _ Hstore). cbn.
  split; [reflexivity|]. split; [reflexivity|]. split; [apply length_insert|].
  split; [reflexivity|]. exists session. split; [reflexivity|]. split; [exact Hact|].
  apply find_session_intro; [exact Hget|]. cbn.
  apply list_lookup_insert_eq. now apply lookup_lt_Some in Hstore.
Qed.

Lemma timers_settle p o (m : Manager) : timers (settle p o m) = timers m.
Proof. unfold settle. now destruct (promises m !! p) as [[?|]|]. Qed.

Lemma timers_update_session r f (m : Manager) : timers (update_session r f m) = timers m.
Proof. unfold update_session. now destruct (store m !! r). Qed.

(** A prompt ends once, by the response or by the timeout.  After the
    response the timeout, should it still fire, does nothing; after the
    timeout a response with the id of the prompt is taken for one of an
    unknown prompt, and does nothing. *)
Theorem response_and_timeout_exclude_each_other sid pid response delay
    (m : Manager) r session resolver :
  find_session sid m = Some (r, session) ->
  JsMap.get pid (promptResolvers session) = Some resolver ->
  timers m !! timeout resolver = Some (PromptTimeout r pid (promise resolver) delay) ->
  fire_timer (timeout resolver) (handlePromptResponse sid pid response m)
  = handlePromptResponse sid pid response m
  /\ handlePromptResponse sid pid response (fire_timer (timeout resolver) m)
     = fire_timer (timeout resolver) m.
Proof.
  intros Hfind Hres Htimer. split.
  - unfold handlePromptResponse. rewrite Hfind, Hres. unfold fire_timer.
    rewrite timers_settle, timers_update_session. cbn [timers clearTimeout set_timers].
    now rewrite lookup_delete_eq.
  - unfold fire_timer. rewrite Htimer.
    match goal with |- handlePromptResponse _ _ _ (settle ?p ?o ?m0) = _ =>
      assert (Hf : find_session sid (settle p o m0)
                   = Some (r, with_promptResolvers (JsMap.delete pid (promptResolvers session))
                                session))
    end.
    { unfold find_session.
      match goal with |- context [settle ?p ?o ?m0] =>
        destruct (settle_frame p o m0) as [-> ->] end.
      change (find_session sid
                (update_session r
                   (fun s => with_promptResolvers (JsMap.delete pid (promptResolvers s)) s)
                   (clearTimeout (timeout resolver) m)) =
              Some (r, with_promptResolvers (JsMap.delete pid (promptResolvers session)) session)).
      now apply (find_session_update sid r
                   (fun s => with_promptResolvers (JsMap.delete pid (promptResolvers s)) s)
                   (clearTimeout (timeout resolver) m) session). }
    unfold handlePromptResponse at 1. rewrite Hf. cbn [promptResolvers with_promptResolvers].
    now rewrite jsmap_get_delete_eq.
Qed.

Lemma reaper_keeps now sid (m : Manager) r session :
  registry_wf m -> find_session sid m = Some (r, session) ->
  reapable now session = false ->
  find_session sid (cleanupIdleSessions now m) = Some (r, session).
Proof.
  intros (Hk & Hr & _) Hfind Hno.
  destruct (find_session_inv _ _ _ _ Hfind) as [Hget Hstore].
  destruct (reap_fold now (sessions m) m Hk Hr) as [Hsessions Hkeep].
  { intros sid' r' H. now apply jsmap_elem_get. }
  assert (Hreaped : reaped now m r = false) by (unfold reaped; now rewrite Hstore).
  apply find_session_intro.
  - unfold cleanupIdleSessions. rewrite Hsessions, Hget, Hreaped. now rewrite andb_false_r.
  - unfold cleanupIdleSessions. rewrite Hkeep; [exact Hstore|]. now intros.
Qed.

(** Activity defers the reaper.  A session touched at time [t], or that
    a connection left at time [t], is still registered after every pass of
    the reaper up to [t + IDLE_TIMEOUT], connections or not: a user who
    reloads the page finds the session again. *)
Theorem activity_defers_the_reaper sid ws t now (m : Manager) r session :
  registry_wf m ->
  find_session sid m = Some (r, session) ->
  (now - t <= IDLE_TIMEOUT)%Z ->
  find_session sid (cleanupIdleSessions now (touchSession sid t m))
  = Some (r, with_lastActivity t session)
  /\ find_session sid (cleanupIdleSessions now (removeWebSocketConnection sid ws t m))
     = Some (r, with_lastActivity t
                  (with_wsConnections (JsSet.delete ws (wsConnections session)) session)).
Proof.
  intros Hwf Hfind Hnow.
  assert (Hyoung : forall s, lastActivity s = t -> reapable now s = false).
  { intros s Hs. unfold reapable. rewrite Hs.
    destruct (now - t >? IDLE_TIMEOUT)%Z eqn:E; [|reflexivity].
    apply Z.gtb_lt in E. lia. }
  split.
  - unfold touchSession. rewrite Hfind. apply reaper_keeps.
    + eapply registry_wf_frame; [apply frame_update_session|exact Hwf].
    + now apply find_session_update.
    + now apply Hyoung.
  - unfold removeWebSocketConnection. rewrite Hfind. apply reaper_keeps.
    + eapply registry_wf_frame; [apply frame_update_session|exact Hwf].
    + now apply (find_session_update sid r
                   (fun s => with_lastActivity t
                               (with_wsConnections (JsSet.delete ws (wsConnections s)) s))).
    + now apply Hyoung.
Qed.

(** *** The end of a session *)

Lemma reject_prompt_fields (m : Manager) e :
  sessions (reject_prompt m e) = sessions m /\ store (reject_prompt m e) = store m
  /\ sockets (reject_prompt m e) = sockets m /\ clients (reject_prompt m e) = clients m
  /\ cleanupInterval (reject_prompt m e) = cleanupInterval m
  /\ timers (reject_prompt m e) = delete (timeout (snd e)) (timers m).
Proof.
  unfold reject_prompt, settle.
  destruct (promises (clearTimeout (timeout (snd e)) m) !! promise (snd e)) as [[?|]|];
    repeat split.
Qed.

Lemma reject_all_fields l : forall m : Manager,
  sockets (fold_left reject_prompt l m) = sockets m
  /\ clients (fold_left reject_prompt l m) = clients m
  /\ cleanupInterval (fold_left reject_prompt l m) = cleanupInterval m.
Proof.
  induction l as [|e l IH]; intros m; [repeat split|]. cbn [fold_left].
  destruct (IH (reject_prompt m e)) as (-> & -> & ->).
  destruct (reject_prompt_fields m e) as (_ & _ & -> & -> & -> & _). repeat split.
Qed.

Lemma reject_all_timers l : forall (m : Manager) t,
  timers m !! t = None \/ t ∈ map (fun e => timeout (snd e)) l ->
  timers (fold_left reject_prompt l m) !! t = None.
Proof.
  induction l as [|e l IH]; intros m t H; cbn [fold_left].
  - destruct H as [H|H]; [exact H|]. now apply elem_of_nil in H.
  - apply IH. destruct (reject_prompt_fields m e) as (_ & _ & _ & _ & _ & ->).
    destruct (decide (t = timeout (snd e))) as [->|Hne].
    + left. apply lookup_delete_eq.
    + destruct H as [H|H].
      * left. rewrite lookup_delete_ne by congruence. exact H.
      * cbn [map] in H. apply elem_of_cons in H as [H|H]; [congruence|now right].
Qed.

Lemma promises_reject_prompt (m : Manager) e p :
  promises (reject_prompt m e) !! p =
  if decide (p = promise (snd e)) then
    match promises m !! p with
    | Some None => Some (Some (Rejected (Error (js "Session terminated"))))
    | x => x
    end
  else promises m !! p.
Proof.
  unfold reject_prompt, settle. cbn [promises clearTimeout set_timers].
  destruct (decide (p = promise (snd e))) as [->|Hne].
  - destruct (promises m !! promise (snd e)) as [[o|]|] eqn:E; cbn; rewrite ?E; try reflexivity.
    apply list_lookup_insert_eq. now apply lookup_lt_Some in E.
  - destruct (promises m !! promise (snd e)) as [[o|]|] eqn:E; cbn; try reflexivity.
    apply list_lookup_insert_ne. congruence.
Qed.

Lemma reject_all_promises l : forall (m : Manager) p,
  (forall o, promises m !! p = Some (Some o) ->
             promises (fold_left reject_prompt l m) !! p = Some (Some o))
  /\ (promises m !! p = Some None -> p ∈ map (fun e => promise (snd e)) l ->
      promises (fold_left reject_prompt l m) !! p
      = Some (Some (Rejected (Error (js "Session terminated"))))).
Proof.
  induction l as [|e l IH]; intros m p; cbn [fold_left].
  - split; [auto|]. intros _ H. now apply elem_of_nil in H.
  - destruct (IH (reject_prompt m e) p) as [IH1 IH2]. split.
    + intros o Ho. apply IH1. rewrite promises_reject_prompt, Ho. now destruct (decide _).
    + intros Hp Hin. cbn [map] in Hin.
      destruct (decide (p = promise (snd e))) as [->|Hne].
      * apply IH1. rewrite promises_reject_prompt, Hp. now rewrite decide_True.
      * apply elem_of_cons in Hin as [Hin|Hin]; [congruence|].
        apply IH2; [|exact Hin]. rewrite promises_reject_prompt. now rewrite decide_False.
Qed.

Lemma close_socket_fields (m : Manager) ws :
  timers (close_socket m ws) = timers m /\ promises (close_socket m ws) = promises m
  /\ clients (close_socket m ws) = clients m
  /\ cleanupInterval (close_socket m ws) = cleanupInterval m.
Proof. unfold close_socket. destruct (sockets m !! ws); repeat split. Qed.

Lemma close_all_fields l : forall m : Manager,
  timers (fold_left close_socket l m) = timers m
  /\ promises (fold_left close_socket l m) = promises m
  /\ clients (fold_left close_socket l m) = clients m
  /\ cleanupInterval (fold_left close_socket l m) = cleanupInterval m.
Proof.
  induction l as [|ws l IH]; intros m; [repeat split|]. cbn [fold_left].
  destruct (IH (close_socket m ws)) as (-> & -> & -> & ->). apply close_socket_fields.
Qed.

Lemma close_all_sockets l : forall (m : Manager) ws,
  NoDup l ->
  sockets (fold_left close_socket l m) !! ws =
  if bool_decide (ws ∈ l)
  then with_close 1000 (js "Session terminated") <$> sockets m !! ws
  else sockets m !! ws.
Proof.
  induction l as [|ws0 l IH]; intros m ws Hnd; cbn [fold_left].
  - rewrite bool_decide_eq_false_2; [reflexivity|apply not_elem_of_nil].
  - apply NoDup_cons in Hnd as [Hfresh Hnd]. rewrite (IH _ _ Hnd).
    destruct (decide (ws = ws0)) as [->|Hne].
    + rewrite bool_decide_eq_false_2 by exact Hfresh.
      rewrite bool_decide_eq_true_2 by apply list_elem_of_here.
      unfold close_socket. destruct (sockets m !! ws0) as [w|] eqn:E; [|now rewrite E].
      cbn. rewrite list_lookup_insert_eq; [reflexivity|now apply lookup_lt_Some in E].
    + assert (Hmem : bool_decide (ws ∈ ws0 :: l) = bool_decide (ws ∈ l))
        by (apply bool_decide_ext; rewrite elem_of_cons; intuition congruence).
      rewrite Hmem.
      assert (Hsame : sockets (close_socket m ws0) !! ws = sockets m !! ws).
      { unfold close_socket. destruct (sockets m !! ws0); [|reflexivity].
        cbn. apply list_lookup_insert_ne. congruence. }
      now rewrite Hsame.
Qed.

Lemma update_session_fields r f (m : Manager) :
  timers (update_session r f m) = timers m
  /\ promises (update_session r f m) = promises m
  /\ sockets (update_session r f m) = sockets m
  /\ clients (update_session r f m) = clients m
  /\ cleanupInterval (update_session r f m) = cleanupInterval m.
Proof. unfold update_session. destruct (store m !! r); repeat split. Qed.

(** What [destroySession] does and what it leaves undone.  The session is
    no longer registered; each of its pending prompts is rejected with
    "Session terminated" and the timeout of each is cleared; each of its
    connections is closed with code 1000 and that reason; the session
    object is left with no prompt and no connection.  No client is touched:
    the server process of the session is not stopped. *)
Theorem destroySession_releases_the_session sid (m : Manager) r session :
  find_session sid m = Some (r, session) ->
  NoDup (wsConnections session) ->
  let m' := destroySession sid m in
  JsMap.get sid (sessions m') = None
  /\ (forall pid resolver, (pid, resolver) ∈ promptResolvers session ->
        timers m' !! timeout resolver = None
        /\ (promises m !! promise resolver = Some None ->
            promises m' !! promise resolver
            = Some (Some (Rejected (Error (js "Session terminated"))))))
  /\ (forall ws w, ws ∈ wsConnections session -> sockets m !! ws = Some w ->
        sockets m' !! ws = Some (with_close 1000 (js "Session terminated") w))
  /\ store m' !! r = Some (with_wsConnections [] (with_promptResolvers [] session))
  /\ clients m' = clients m.
Proof.
  intros Hfind Hnd m'. destruct (find_session_inv _ _ _ _ Hfind) as [Hget Hstore].
  destruct (destroySession_frame sid m r session Hfind) as [Hs _].
  subst m'. split; [rewrite Hs; apply jsmap_get_delete_eq|].
  unfold destroySession. rewrite Hfind.
  set (m1 := fold_left reject_prompt (promptResolvers session) m).
  set (m2 := update_session r (with_promptResolvers []) m1).
  set (m3 := fold_left close_socket (wsConnections session) m2).
  set (m4 := update_session r (with_wsConnections []) m3).
  cbn [timers promises sockets store clients set_sessions].
  destruct (update_session_fields r (with_wsConnections []) m3) as (Ht4 & Hp4 & Hk4 & Hc4 & _).
  destruct (close_all_fields (wsConnections session) m2) as (Ht3 & Hp3 & Hc3 & _).
  destruct (update_session_fields r (with_promptResolvers []) m1) as (Ht2 & Hp2 & Hk2 & Hc2 & _).
  destruct (reject_all_fields (promptResolvers session) m) as (Hk1 & Hc1 & _).
  fold m1 in Hk1, Hc1. fold m2 in Ht2, Hp2, Hk2, Hc2. fold m3 in Ht3, Hp3, Hc3.
  fold m4 in Ht4, Hp4, Hk4, Hc4.
  split; [|split; [|split]].
  - intros pid resolver Hin. rewrite Ht4, Ht3, Ht2, Hp4, Hp3, Hp2. split.
    + apply reject_all_timers. right.
      apply list_elem_of_fmap. now exists (pid, resolver).
    + intros Hpending.
      apply (proj2 (reject_all_promises (promptResolvers session) m (promise resolver)));
        [exact Hpending|].
      apply list_elem_of_fmap. now exists (pid, resolver).
  - intros ws w Hin Hw. rewrite Hk4. subst m3.
    rewrite (close_all_sockets _ _ _ Hnd), bool_decide_eq_true_2 by exact Hin.
    now rewrite Hk2, Hk1, Hw.
  - destruct (reject_all_frame (promptResolvers session) m) as [_ Hst1]. fold m1 in Hst1.
    assert (Hst2 : store m2 = <[r := with_promptResolvers [] session]> (store m)).
    { subst m2. unfold update_session. rewrite Hst1, Hstore. cbn [store set_store].
      now rewrite ?Hst1. }
    destruct (close_all_frame (wsConnections session) m2) as [_ Hst3]. fold m3 in Hst3.
    assert (Hlt : (r < length (store m))%nat) by now apply lookup_lt_Some in Hstore.
    subst m4. unfold update_session. rewrite Hst3, Hst2.
    rewrite list_lookup_insert_eq by exact Hlt. cbn [store set_store]. rewrite ?Hst3, ?Hst2.
    apply list_lookup_insert_eq. now rewrite length_insert.
  - now rewrite Hc4, Hc3, Hc2, Hc1.
Qed.

Lemma jsmap_delete_absent {K V} `{EqDecision K} (k : K) (l : list (K * V)) :
  JsMap.get k l = None -> JsMap.delete k l = l.
Proof.
  induction l as [|[k' v'] l IH]; cbn; [reflexivity|].
  destruct (decide (k' = k)); [discriminate|]. intros H. now rewrite IH.
Qed.

Lemma jsmap_keys_delete {K V} `{EqDecision K} (k k' : K) (l : list (K * V)) :
  k ∈ JsMap.keys (JsMap.delete k' l) -> k ∈ JsMap.keys l /\ k <> k'.
Proof.
  unfold JsMap.keys. induction l as [|[k0 v0] l IH]; cbn.
  - intros H. now apply elem_of_nil in H.
  - destruct (decide (k0 = k')) as [->|Hne].
    + intros H. destruct (IH H) as [H1 H2]. split; [now apply list_elem_of_further|exact H2].
    + cbn. intros H. apply elem_of_cons in H as [->|H].
      * split; [apply list_elem_of_here|exact Hne].
      * destruct (IH H) as [H1 H2]. split; [now apply list_elem_of_further|exact H2].
Qed.

Lemma destroySession_sessions sid (m : Manager) :
  registry_wf m -> sessions (destroySession sid m) = JsMap.delete sid (sessions m).
Proof.
  intros (_ & _ & H3). destruct (find_session sid m) as [[r session]|] eqn:Hfind.
  - now destruct (destroySession_frame sid m r session Hfind).
  - unfold destroySession. rewrite Hfind. symmetry. apply jsmap_delete_absent.
    unfold find_session in Hfind.
    destruct (JsMap.get sid (sessions m)) as [r|] eqn:Hg; [|reflexivity].
    apply jsmap_get_elem in Hg. rewrite Forall_forall in H3.
    specialize (H3 _ Hg). cbn in H3. apply lookup_lt_is_Some_2 in H3 as [s Hs].
    now rewrite Hs in Hfind.
Qed.

Lemma destroySession_fields sid (m : Manager) :
  clients (destroySession sid m) = clients m
  /\ cleanupInterval (destroySession sid m) = cleanupInterval m.
Proof.
  unfold destroySession. destruct (find_session sid m) as [[r session]|]; [|now split].
  cbn [clients cleanupInterval set_sessions].
  match goal with |- context [update_session r (with_wsConnections []) ?m3] =>
    destruct (update_session_fields r (with_wsConnections []) m3) as (_ & _ & _ & -> & ->) end.
  match goal with |- context [fold_left close_socket ?l ?m2] =>
    destruct (close_all_fields l m2) as (_ & _ & -> & ->) end.
  match goal with |- context [update_session r (with_promptResolvers []) ?m1] =>
    destruct (update_session_fields r (with_promptResolvers []) m1) as (_ & _ & _ & -> & ->) end.
  match goal with |- context [fold_left reject_prompt ?l ?m0] =>
    destruct (reject_all_fields l m0) as (_ & -> & ->) end.
  now split.
Qed.

Lemma destroy_all ks : forall m : Manager,
  registry_wf m ->
  (forall k, k ∈ JsMap.keys (sessions (fold_left (fun m sid => destroySession sid m) ks m)) ->
             k ∈ JsMap.keys (sessions m) /\ k ∉ ks)
  /\ clients (fold_left (fun m sid => destroySession sid m) ks m) = clients m
  /\ cleanupInterval (fold_left (fun m sid => destroySession sid m) ks m) = cleanupInterval m.
Proof.
  induction ks as [|k0 ks IH]; intros m Hwf; cbn [fold_left].
  - split; [|now split]. intros k Hk. split; [exact Hk|apply not_elem_of_nil].
  - destruct (IH (destroySession k0 m) (registry_wf_destroySession k0 m Hwf)) as (IH1 & -> & ->).
    destruct (destroySession_fields k0 m) as [-> ->]. split; [|now split].
    intros k Hk. destruct (IH1 k Hk) as [H1 H2].
    rewrite (destroySession_sessions k0 m Hwf) in H1.
    apply jsmap_keys_delete in H1 as [H1 Hne]. split; [exact H1|].
    rewrite not_elem_of_cons. now split.
Qed.

(** [shutdown] leaves no session registered and stops the reaper; like
    [destroySession] it stops no server process. *)
Theorem shutdown_destroys_every_session (m : Manager) :
  registry_wf m ->
  sessions (shutdown m) = []
  /\ cleanupInterval (shutdown m) = false
  /\ clients (shutdown m) = clients m.
Proof.
  intros Hwf. unfold shutdown.
  assert (Hwf' : registry_wf (set_cleanupInterval false m)) by exact Hwf.
  destruct (destroy_all (JsMap.keys (sessions m)) _ Hwf') as (Hkeys & Hc & Hi).
  split; [|split; [exact Hi|exact Hc]].
  destruct (sessions (fold_left _ _ _)) as [|[k r] l] eqn:E; [reflexivity|].
  destruct (Hkeys k) as [H1 H2]; [cbn; apply list_elem_of_here|].
  now destruct H2.
Qed.

(** *** A prompt and the connections of its session *)

Lemma broadcast_fields msg conns : forall n (m : Manager),
  store (fst (broadcast msg conns n m)) = store m
  /\ sessions (fst (broadcast msg conns n m)) = sessions m
  /\ promises (fst (broadcast msg conns n m)) = promises m
  /\ timers (fst (broadcast msg conns n m)) = timers m.
Proof.
  induction conns as [|ws rest IH]; intros n m; cbn [broadcast]; [repeat split|].
  destruct (sockets m !! ws) as [w|]; [|apply IH].
  destruct (readyState w =? OPEN)%nat; [|apply IH].
  destruct (send_throws w); [apply IH|].
  match goal with |- context [broadcast msg rest ?k ?m'] =>
    destruct (IH k m') as (-> & -> & -> & ->) end.
  repeat split.
Qed.

Lemma broadcast_sockets msg conns : forall n (m : Manager),
  NoDup conns ->
  snd (broadcast msg conns n m) = (n + length (List.filter (accepts m) conns))%nat
  /\ forall ws,
       sockets (fst (broadcast msg conns n m)) !! ws =
       if bool_decide (ws ∈ conns) && accepts m ws
       then with_sent msg <$> sockets m !! ws
       else sockets m !! ws.
Proof.
  induction conns as [|ws0 rest IH]; intros n m Hnd; cbn [broadcast List.filter].
  - split; [cbn; lia|]. intros ws.
    rewrite bool_decide_eq_false_2; [reflexivity|apply not_elem_of_nil].
  - apply NoDup_cons in Hnd as [Hfresh Hnd].
    assert (Hskip : accepts m ws0 = false ->
              snd (broadcast msg rest n m)
              = (n + length (if accepts m ws0 then ws0 :: List.filter (accepts m) rest
                             else List.filter (accepts m) rest))%nat
              /\ forall ws,
                   sockets (fst (broadcast msg rest n m)) !! ws =
                   if bool_decide (ws ∈ ws0 :: rest) && accepts m ws
                   then with_sent msg <$> sockets m !! ws
                   else sockets m !! ws).
    { intros Hno. rewrite Hno. destruct (IH n m Hnd) as [IH1 IH2]. split; [exact IH1|].
      intros ws. rewrite IH2. destruct (decide (ws = ws0)) as [->|Hne].
      - now rewrite Hno, !andb_false_r.
      - assert (Hmem : bool_decide (ws ∈ ws0 :: rest) = bool_decide (ws ∈ rest))
          by (apply bool_decide_ext; rewrite elem_of_cons; intuition congruence).
        now rewrite Hmem. }
    destruct (sockets m !! ws0) as [w|] eqn:Hw.
    2: { apply Hskip. unfold accepts. now rewrite Hw. }
    destruct (readyState w =? OPEN)%nat eqn:Hopen.
    2: { apply Hskip. unfold accepts. now rewrite Hw, Hopen. }
    destruct (send_throws w) eqn:Hthrows.
    1: { apply Hskip. unfold accepts. now rewrite Hw, Hopen, Hthrows. }
    assert (Hyes : accepts m ws0 = true) by (unfold accepts; now rewrite Hw, Hopen, Hthrows).
    rewrite Hyes.
    set (m' := set_sockets (<[ws0 := with_sent msg w]> (sockets m)) m).
    assert (Hlook : forall ws, sockets m' !! ws
                               = if decide (ws = ws0) then Some (with_sent msg w)
                                 else sockets m !! ws).
    { intros ws. subst m'. cbn [sockets set_sockets]. destruct (decide (ws = ws0)) as [->|Hne].
      - apply list_lookup_insert_eq. now apply lookup_lt_Some in Hw.
      - apply list_lookup_insert_ne. congruence. }
    assert (Hacc : forall ws, accepts m' ws = accepts m ws).
    { intros ws. unfold accepts. rewrite Hlook. destruct (decide (ws = ws0)) as [->|Hne];
        [|reflexivity]. now rewrite Hw. }
    destruct (IH (S n) m' Hnd) as [IH1 IH2]. split.
    + rewrite IH1, (filter_ext _ _ Hacc). cbn [length]. lia.
    + intros ws. rewrite IH2, Hacc, Hlook. destruct (decide (ws = ws0)) as [->|Hne].
      * rewrite bool_decide_eq_false_2 by exact Hfresh.
        rewrite bool_decide_eq_true_2 by apply list_elem_of_here.
        rewrite Hyes, Hw. reflexivity.
      * assert (Hmem : bool_decide (ws ∈ ws0 :: rest) = bool_decide (ws ∈ rest))
          by (apply bool_decide_ext; rewrite elem_of_cons; intuition congruence).
        now rewrite Hmem.
Qed.

(** A prompt for a session with a connection that takes it.  The prompt
    message goes once to every connection of the session that is open and
    whose [send] does not throw, and to no other socket; the promise stays
    pending, the two-minute timeout stays armed and the resolver is
    registered under the id of the prompt. *)
Theorem prompt_is_sent_to_every_open_connection sid params now (m : Manager) r session ws0 :
  find_session sid m = Some (r, session) ->
  NoDup (wsConnections session) ->
  ws0 ∈ wsConnections session -> accepts m ws0 = true ->
  let m' := fst (handlePromptForSession sid params now m) in
  let p := snd (handlePromptForSession sid params now m) in
  let promptMsg := JSON_stringify (obj [("type", str "prompt");
                                        ("id", VStr (prompt_id sid now));
                                        ("params", params)]) in
  (forall ws, sockets m' !! ws =
              if bool_decide (ws ∈ wsConnections session) && accepts m ws
              then with_sent promptMsg <$> sockets m !! ws
              else sockets m !! ws)
  /\ promises m !! p = None
  /\ promises m' !! p = Some None
  /\ timers m' !! timer_count m = Some (PromptTimeout r (prompt_id sid now) p 120000)
  /\ exists session',
       find_session sid m' = Some (r, session')
       /\ JsMap.get (prompt_id sid now) (promptResolvers session')
          = Some {| promise := p; timeout := timer_count m |}.
Proof.
  intros Hfind Hnd Hin Hacc. destruct (find_session_inv _ _ _ _ Hfind) as [Hget Hstore].
  unfold handlePromptForSession.
  assert (Hfind0 : find_session sid (new_promise m) = Some (r, session)) by exact Hfind.
  rewrite Hfind0.
  set (pid := prompt_id sid now).
  set (p := length (promises m)).
  set (f := fun s => with_promptResolvers
                       (JsMap.set pid {| promise := p; timeout := timer_count (new_promise m) |}
                          (promptResolvers s)) s).
  set (m2 := update_session r f (setTimeout (PromptTimeout r pid p 120000) (new_promise m))).
  set (msg := JSON_stringify _).
  destruct (broadcast_sockets msg (wsConnections session) 0 m2 Hnd) as [Hcount Hsock].
  destruct (broadcast_fields msg (wsConnections session) 0 m2) as (Hst & Hse & Hpr & Hti).
  assert (Hsame : forall ws, accepts m2 ws = accepts m ws).
  { intros ws. unfold accepts. subst m2.
    now destruct (update_session_fields r f
                    (setTimeout (PromptTimeout r pid p 120000) (new_promise m)))
      as (_ & _ & -> & _). }
  assert (Hsocks2 : sockets m2 = sockets m).
  { subst m2.
    now destruct (update_session_fields r f
                    (setTimeout (PromptTimeout r pid p 120000) (new_promise m)))
      as (_ & _ & -> & _). }
  assert (Hpos : (snd (broadcast msg (wsConnections session) 0 m2) =? 0)%nat = false).
  { rewrite Hcount. apply Nat.eqb_neq.
    assert (Hf : In ws0 (List.filter (accepts m2) (wsConnections session))).
    { apply filter_In. split; [now apply list_elem_of_In|now rewrite Hsame]. }
    destruct (List.filter (accepts m2) (wsConnections session)); [destruct Hf|cbn; lia]. }
  destruct (broadcast msg (wsConnections session) 0 m2) as [m3 cnt].
  cbn [fst snd] in *. rewrite Hpos. cbn [fst snd].
  destruct (update_session_fields r f
              (setTimeout (PromptTimeout r pid p 120000) (new_promise m)))
    as (Ht2 & Hp2 & _ & _ & _).
  fold m2 in Ht2, Hp2.
  split; [|split; [|split; [|split]]].
  - intros ws. rewrite Hsock, Hsame, Hsocks2. reflexivity.
  - apply lookup_ge_None_2. subst p. lia.
  - rewrite Hpr, Hp2. cbn. subst p. now rewrite lookup_app_r, Nat.sub_diag by reflexivity.
  - rewrite Hti, Ht2. cbn. apply lookup_insert_eq.
  - exists (f session). split.
    + apply find_session_intro.
      { rewrite Hse. subst m2.
        now destruct (update_session_frame r f
                        (setTimeout (PromptTimeout r pid p 120000) (new_promise m)))
          as [-> _]. }
      rewrite Hst. subst m2.
      rewrite (update_session_store r f _ session) by exact Hstore.
      cbn. apply list_lookup_insert_eq. now apply lookup_lt_Some in Hstore.
    + subst f. cbn. apply jsmap_get_set_eq.
Qed.

(** *** A configuration that fails *)

(** When the server binary is missing, [initializeMcpClient] throws the
    error of [start]; no process is spawned, the session keeps no client
    and no call stays suspended, so that a later call goes past the guard
    again; the configuration given is stored in the session all the same. *)
Theorem failed_configuration_leaves_the_session_unconfigured sid config
    (m : Manager) r session :
  find_session sid m = Some (r, session) ->
  mcpClient session = None ->
  let m' := fst (initializeMcpClient sid config false m) in
  snd (initializeMcpClient sid config false m)
  = Threw (Error (js "MCP server binary not found at path: " ++ command (mcpOptions m)))
  /\ spawn_count m' = spawn_count m
  /\ configuring m' = configuring m
  /\ getSessionMcpClient sid m' = None
  /\ find_session sid m' = Some (r, with_pingoneConfig (Some config) session).
Proof.
  intros Hfind Hnone. destruct (find_session_inv _ _ _ _ Hfind) as [Hget Hstore].
  unfold initializeMcpClient. rewrite Hfind, Hnone.
  unfold initialize, start. cbn [initialized new_client child negb fst snd opts command].
  rewrite (update_session_store r _ m session Hstore).
  cbn [clients set_clients set_store configuring].
  assert (Hf : find_session sid
                 (set_clients
                    (clients m ++
                     [new_client (length (clients m))
                        {| command := command (mcpOptions m); args := args (mcpOptions m);
                           env := Some (spread (default [] (env (mcpOptions m)))
                                          (pingone_env config));
                           workingDirectory := Some (workDir session);
                           initCapabilities := initCapabilities (mcpOptions m);
                           onPrompt := Some (PromptForSession sid);
                           onResourceRequest := Some (ResourceStub sid) |}])
                    (set_store (<[r := with_pingoneConfig (Some config) session]> (store m)) m))
               = Some (r, with_pingoneConfig (Some config) session)).
  { apply find_session_intro; [exact Hget|]. cbn.
    apply list_lookup_insert_eq. now apply lookup_lt_Some in Hstore. }
  split; [reflexivity|]. split.
  - unfold spawn_count. cbn [clients set_clients set_store].
    rewrite map_app, list_sum_app. cbn. lia.
  - split; [reflexivity|]. split; [|exact Hf].
    unfold getSessionMcpClient. rewrite Hf. exact Hnone.
Qed.

(** *** The environment of the server process *)










(** *** The connections of a session form a set *)

Lemma wf_store (m m' : Manager) : store m' = store m -> connections_wf m -> connections_wf m'.
Proof. unfold connections_wf. now intros ->. Qed.

Lemma wf_update_session r f (m : Manager) :
  (forall s, NoDup (wsConnections s) -> NoDup (wsConnections (f s))) ->
  connections_wf m -> connections_wf (update_session r f m).
Proof.
  intros Hf Hwf. unfold update_session. destruct (store m !! r) as [s|] eqn:E; [|exact Hwf].
  unfold connections_wf. cbn [store set_store]. apply Forall_insert; [exact Hwf|].
  apply Hf. unfold connections_wf in Hwf. rewrite Forall_lookup in Hwf. now apply (Hwf r).
Qed.

Lemma wf_handlePromptForSession sid params now (m : Manager) :
  connections_wf m -> connections_wf (fst (handlePromptForSession sid params now m)).
Proof.
  intros Hwf. unfold handlePromptForSession.
  destruct (find_session sid (new_promise m)) as [[r session]|]; cbn [fst].
  - match goal with |- context [broadcast ?msg ?l ?n ?m2] =>
      assert (H2 : connections_wf m2) by (now apply wf_update_session);
      pose proof (broadcast_fields msg l n m2) as (Hst & _);
      destruct (broadcast msg l n m2) as [m3 cnt];
      cbn [fst] in Hst;
      assert (H3 : connections_wf m3) by (now apply (wf_store m2))
    end.
    destruct (cnt =? 0)%nat; cbn [fst]; [|exact H3].
    match goal with |- connections_wf (settle ?p ?o ?m0) =>
      apply (wf_store m0); [now destruct (settle_frame p o m0)|] end.
    now apply wf_update_session.
  - match goal with |- connections_wf (settle ?p ?o ?m0) =>
      apply (wf_store m0); [now destruct (settle_frame p o m0)|] end.
    exact Hwf.
Qed.

Lemma wf_update_client c f (m : Manager) :
  connections_wf m -> connections_wf (update_client c f m).
Proof. unfold update_client. now destruct (clients m !! c). Qed.

Lemma wf_fold {A} (f : Manager -> A -> Manager) l :
  (forall m a, connections_wf m -> connections_wf (f m a)) ->
  forall m, connections_wf m -> connections_wf (fold_left f l m).
Proof. intros Hf. induction l as [|a l IH]; intros m H; cbn [fold_left]; auto. Qed.

Lemma wf_resume_configuring c (m : Manager) :
  connections_wf m -> connections_wf (resume_configuring c m).
Proof.
  intros Hwf. unfold resume_configuring. apply wf_fold; [|exact Hwf].
  intros m' cf H. unfold resume_initializeMcpClient, triggerLogin.
  match goal with |- context [find_session ?s ?m0] =>
    assert (H0 : connections_wf m0) by (now apply wf_update_session);
    destruct (find_session s m0) as [[? ?]|] end; exact H0.
Qed.

Lemma wf_react c now es : forall m : Manager,
  connections_wf m -> connections_wf (react c now es m).
Proof.
  induction es as [|e es IH]; intros m Hwf; cbn [react]; [exact Hwf|].
  destruct e as [| | |cb req_id params|]; try (now apply IH).
  - destruct cb as [sid|sid].
    + pose proof (wf_handlePromptForSession sid params now m Hwf) as H1.
      destruct (handlePromptForSession sid params now m) as [m1 p]. now apply IH.
    + apply IH. now apply wf_update_client.
  - apply IH. now apply wf_resume_configuring.
Qed.

Lemma wf_react_sync c now es : forall m : Manager,
  connections_wf m -> connections_wf (react_sync c now es m).
Proof.
  induction es as [|e es IH]; intros m Hwf; cbn [react_sync]; [exact Hwf|].
  destruct e as [| | |cb req_id params|]; try (now apply IH).
  destruct cb as [sid|sid]; [|now apply IH].
  pose proof (wf_handlePromptForSession sid params now m Hwf) as H1.
  destruct (handlePromptForSession sid params now m) as [m1 p]. now apply IH.
Qed.

Lemma wf_checkpoint (m : Manager) : connections_wf m -> connections_wf (checkpoint m).
Proof.
  intros Hwf. unfold checkpoint. apply wf_fold; [|exact Hwf].
  intros m' a H. destruct (prompt_outcome m a); [now apply wf_update_client|exact H].
Qed.

Lemma wf_destroySession sid (m : Manager) :
  connections_wf m -> connections_wf (destroySession sid m).
Proof.
  intros Hwf. unfold destroySession. destruct (find_session sid m) as [[r session]|]; [|exact Hwf].
  match goal with |- connections_wf (set_sessions _ ?m4) => apply (wf_store m4); [reflexivity|] end.
  apply wf_update_session; [intros; constructor|].
  match goal with |- connections_wf (fold_left close_socket ?l ?m2) =>
    apply (wf_store m2); [now destruct (close_all_frame l m2)|] end.
  apply wf_update_session; [auto|].
  match goal with |- connections_wf (fold_left reject_prompt ?l ?m0) =>
    apply (wf_store m0); [now destruct (reject_all_frame l m0)|] end.
  exact Hwf.
Qed.

Lemma NoDup_jsset_add (k : nat) s : NoDup s -> NoDup (JsSet.add k s).
Proof.
  intros H. unfold JsSet.add. destruct (bool_decide (k ∈ s)) eqn:E; [exact H|].
  apply bool_decide_eq_false_1 in E. apply NoDup_app. split; [exact H|].
  split; [|apply NoDup_singleton]. intros x Hx Hx'. apply list_elem_of_singleton in Hx'. now subst.
Qed.

(** In every state the manager reaches, the connections of a session are
    a set: no socket is attached twice, so that a prompt goes to a socket
    once and [destroySession] closes it once. *)
Theorem connections_form_a_set o ops : connections_wf (run ops (new_manager o)).
Proof.
  unfold run.
  assert (H0 : connections_wf (new_manager o)) by constructor.
  revert H0. generalize (new_manager o). induction ops as [|op ops IH]; intros m Hm; [exact Hm|].
  cbn [fold_left]. apply IH. destruct op; cbn [exec].
  - unfold getOrCreateSession. destruct (find_session sid m) as [[r s]|]; cbn [fst].
    + now apply wf_update_session.
    + unfold connections_wf. cbn [store set_sessions set_store].
      apply Forall_app. split; [now destruct dir_exists|]. repeat constructor.
  - unfold initializeMcpClient. destruct (find_session sid m) as [[r s]|]; [|exact Hm].
    destruct (mcpClient s); [exact Hm|].
    match goal with |- context [initialize ?b ?c] => destruct (initialize b c) as [c' [e|]] end;
      cbn [fst];
      match goal with |- connections_wf ?m' =>
        apply (wf_store (update_session r (with_pingoneConfig (Some config)) m));
          [reflexivity|now apply wf_update_session]
      end.
  - unfold child_data. destruct (clients m !! c) as [st|]; [|exact Hm].
    destruct (on_data chunk st) as [st' [e|]]; cbn [fst]; [apply wf_react_sync; exact Hm|].
    apply wf_checkpoint, wf_react. exact Hm.
  - now apply wf_update_client.
  - unfold connect, addWebSocketConnection.
    match goal with |- context [find_session ?s ?m0] =>
      destruct (find_session s m0) as [[r s']|]; [|exact Hm] end.
    apply wf_update_session; [|exact Hm]. intros s0 Hs. now apply NoDup_jsset_add.
  - unfold removeWebSocketConnection. destruct (find_session sid m) as [[r s]|]; [|exact Hm].
    apply wf_update_session; [|exact Hm]. intros s0 Hs. now apply NoDup_filter.
  - unfold prompt_response. apply wf_checkpoint. unfold handlePromptResponse.
    destruct (find_session sid m) as [[r s]|]; [|exact Hm].
    destruct (JsMap.get promptId (promptResolvers s)) as [res|]; [|exact Hm].
    match goal with |- connections_wf (settle ?p ?o ?m0) =>
      apply (wf_store m0); [now destruct (settle_frame p o m0)|] end.
    now apply wf_update_session.
  - unfold timer_fires. apply wf_checkpoint. unfold fire_timer.
    destruct (timers m !! t) as [[r pid p d|l d]|]; [|exact Hm|exact Hm].
    match goal with |- connections_wf (settle ?p ?o ?m0) =>
      apply (wf_store m0); [now destruct (settle_frame p o m0)|] end.
    now apply wf_update_session.
  - unfold touchSession. destruct (find_session sid m) as [[r s]|]; [|exact Hm].
    now apply wf_update_session.
  - apply wf_checkpoint. unfold cleanupIdleSessions. apply wf_fold; [|exact Hm].
    intros m' e Hm'. unfold reap_entry. destruct (store m' !! snd e) as [s|]; [|exact Hm'].
    destruct (reapable now s); [now apply wf_destroySession|exact Hm'].
  - apply wf_checkpoint. unfold shutdown. apply wf_fold; [|exact Hm].
    intros m' sid Hm'. now apply wf_destroySession.
Qed.

End SessionFacts.

(** * The tools given to the chat model *)

Section ChatFacts.
Context `{RT : Runtime}.
Import ChatService.

Lemma description_of_cases tool d :
  description_of tool = inl d ->
  d = (if truthy (get tool "description") then get tool "description"
       else VStr (js "Execute " ++ tpl (get tool "name")))
  /\ (truthy (get tool "description") = true \/ converts (get tool "name") = true).
Proof.
  unfold description_of, template.
  destruct (truthy (get tool "description")); [intros [= <-]; split; [reflexivity|now left]|].
  destruct (converts (get tool "name")); [|discriminate].
  intros [= <-]. split; [reflexivity|now right].
Qed.

Lemma convert_tool_cases tool :
  convert_tool tool =
  match tool with
  | VUndefined | VNull => None
  | _ =>
      if truthy (get tool "description") || converts (get tool "name") then
        Some (obj [("type", str "function");
                   ("function",
                    obj [("name", get tool "name");
                         ("description",
                          if truthy (get tool "description") then get tool "description"
                          else VStr (js "Execute " ++ tpl (get tool "name")));
                         ("parameters",
                          if truthy (get tool "inputSchema") then get tool "inputSchema"
                          else no_parameters)])])
      else None
  end.
Proof.
  unfold convert_tool, description_of, template.
  destruct tool; try reflexivity;
    (destruct (truthy (get _ "description")); [reflexivity|]);
    cbn [orb]; destruct (converts (get _ "name")); reflexivity.
Qed.

Lemma convert_tool_shape tool t :
  convert_tool tool = Some t ->
  get t "type" = str "function"
  /\ get (get t "function") "name" = get tool "name"
  /\ get (get t "function") "description"
     = (if truthy (get tool "description") then get tool "description"
        else VStr (js "Execute " ++ tpl (get tool "name")))
  /\ get (get t "function") "parameters"
     = (if truthy (get tool "inputSchema") then get tool "inputSchema"
        else obj [("type", str "object"); ("properties", obj []); ("required", VArr [])])
  /\ truthy (get (get t "function") "description") = true
  /\ truthy (get (get t "function") "parameters") = true.
Proof.
  intros H. rewrite convert_tool_cases in H.
  assert (Ht : t = obj [("type", str "function");
                 ("function",
                  obj [("name", get tool "name");
                       ("description",
                        if truthy (get tool "description") then get tool "description"
                        else VStr (js "Execute " ++ tpl (get tool "name")));
                       ("parameters",
                        if truthy (get tool "inputSchema") then get tool "inputSchema"
                        else no_parameters)])])
    by (destruct tool; try discriminate;
        (destruct (truthy (get _ "description") || converts (get _ "name"));
         [now injection H as <-|discriminate])).
  clear H. subst t.
  change (get (obj _) "type") with (str "function").
  split; [reflexivity|]. split; [reflexivity|]. split; [reflexivity|]. split; [reflexivity|].
  split.
  - change (truthy (if truthy (get tool "description") then get tool "description"
                    else VStr (js "Execute " ++ tpl (get tool "name"))) = true).
    destruct (truthy (get tool "description")) eqn:E; [exact E|reflexivity].
  - change (truthy (if truthy (get tool "inputSchema") then get tool "inputSchema"
                    else no_parameters) = true).
    destruct (truthy (get tool "inputSchema")) eqn:E; [exact E|reflexivity].
Qed.

(** [convertMcpToolsToOpenAI] on the tools of a client.  It returns
    exactly on an array none of whose elements is [null] or [undefined] and
    each of whose elements has a truthy description or a name that converts
    to a string; on any other value it throws [TypeError].  The result
    has, element by element and in the same order, a function tool with the
    name of the element; its description is that of the element when it is
    truthy and "Execute " followed by the name otherwise; its parameters
    are the [inputSchema] of the element when it is truthy and otherwise
    the schema [{type: 'object', properties: {}, required: []}]; neither is
    ever missing. *)
Theorem converted_tools_are_complete mcpTools :
  (is_Some (convertMcpToolsToOpenAI mcpTools) <->
   exists items, mcpTools = VArr items
                 /\ Forall (fun tool =>
                              tool <> VNull /\ tool <> VUndefined
                              /\ (truthy (get tool "description") = true
                                  \/ converts (get tool "name") = true)) items)
  /\ forall out, convertMcpToolsToOpenAI mcpTools = Some out ->
       exists items, mcpTools = VArr items
         /\ Forall2 (fun tool t =>
                       get t "type" = str "function"
                       /\ get (get t "function") "name" = get tool "name"
                       /\ get (get t "function") "description"
                          = (if truthy (get tool "description") then get tool "description"
                             else VStr (js "Execute " ++ tpl (get tool "name")))
                       /\ get (get t "function") "parameters"
                          = (if truthy (get tool "inputSchema") then get tool "inputSchema"
                             else obj [("type", str "object"); ("properties", obj []);
                                       ("required", VArr [])])
                       /\ truthy (get (get t "function") "description") = true
                       /\ truthy (get (get t "function") "parameters") = true)
                    items out.
Proof.
  split.
  - split.
    + intros [out H]. destruct mcpTools as [| | | | |items|]; try discriminate.
      exists items. split; [reflexivity|]. cbn in H. apply mapM_Some in H.
      induction H as [|tool t items out Ht _ IH]; constructor; [|exact IH].
      rewrite convert_tool_cases in Ht.
      destruct tool; try discriminate;
        (split; [discriminate|split; [discriminate|]]);
        (destruct (truthy (get _ "description")); [now left|]);
        (destruct (converts (get _ "name")); [now right|discriminate]).
    + intros (items & -> & H). unfold convertMcpToolsToOpenAI. apply mapM_is_Some.
      eapply Forall_impl; [exact H|]. intros tool (H1 & H2 & H3).
      change (is_Some (convert_tool tool)). rewrite convert_tool_cases.
      assert (Hor : truthy (get tool "description") || converts (get tool "name") = true)
        by (destruct H3 as [-> | ->]; [reflexivity|apply orb_true_r]).
      rewrite Hor. destruct tool; try congruence; eauto.
  - intros out H. destruct mcpTools as [| | | | |items|]; try discriminate.
    exists items. split; [reflexivity|]. cbn in H. apply mapM_Some in H.
    eapply Forall2_impl; [exact H|]. intros tool t Ht. now apply convert_tool_shape.
Qed.

End ChatFacts.

(** ** The way back of a prompt, and the reaper again *)

Section PromptReplyFacts.
Context `{RT : Runtime}.
Import SessionManager.

Lemma checkpoint_fold_idle (m0 : Manager) l : forall m : Manager,
  Forall (fun a => prompt_outcome m0 a = None) l ->
  fold_left (fun m' a => match prompt_outcome m0 a with
                         | Some o => update_client (snd (fst a)) (reply_inbound (snd a) o) m'
                         | None => m'
                         end) l m = m.
Proof.
  induction l as [|a l IH]; intros m H; [reflexivity|].
  apply Forall_cons in H as [Ha Hl]. cbn [fold_left]. rewrite Ha. now apply IH.
Qed.

Lemma filter_all {A} (P : A -> Prop) `{forall x, Decision (P x)} (l : list A) :
  Forall P l -> filter P l = l.
Proof.
  induction 1 as [|x l Hx _ IH]; [reflexivity|].
  now rewrite filter_cons_True, IH.
Qed.

Lemma filter_pending_app (m0 : Manager) pre a post o :
  Forall (fun a => prompt_outcome m0 a = None) (pre ++ post) ->
  prompt_outcome m0 a = Some o ->
  filter (fun a => prompt_outcome m0 a = None) (pre ++ a :: post) = pre ++ post.
Proof.
  intros H Ha. apply Forall_app in H as [Hpre Hpost].
  rewrite filter_app, filter_cons_False by (rewrite Ha; discriminate).
  f_equal; now apply filter_all.
Qed.

(** The checkpoint, when one suspended call has its promise settled. *)
Lemma checkpoint_replies (m : Manager) pre pr c req_id post o :
  awaiting m = pre ++ (pr, c, req_id) :: post ->
  promises m !! pr = Some (Some o) ->
  Forall (fun a => prompt_outcome m a = None) (pre ++ post) ->
  checkpoint m = update_client c (reply_inbound req_id o) (set_awaiting (pre ++ post) m).
Proof.
  intros Haw Hp Hothers. unfold checkpoint. rewrite Haw.
  assert (Ha : prompt_outcome m (pr, c, req_id) = Some o)
    by (unfold prompt_outcome; cbn [fst]; now rewrite Hp).
  rewrite (filter_pending_app m pre _ post o Hothers Ha).
  apply Forall_app in Hothers as [Hpre Hpost].
  rewrite fold_left_app. cbn [fold_left]. rewrite Ha. cbn [fst snd].
  rewrite (checkpoint_fold_idle m pre _ Hpre).
  now rewrite (checkpoint_fold_idle m post _ Hpost).
Qed.

Lemma prompt_outcome_settle (m : Manager) pr o a :
  fst (fst a) <> pr ->
  prompt_outcome (settle pr o m) a = prompt_outcome m a.
Proof.
  intros Hne. unfold prompt_outcome, settle.
  destruct (promises m !! pr) as [[?|]|] eqn:E; try reflexivity.
  cbn [promises set_promises]. now rewrite list_lookup_insert_ne by congruence.
Qed.

Lemma settle_fields p o (m : Manager) :
  awaiting (settle p o m) = awaiting m /\ clients (settle p o m) = clients m.
Proof. unfold settle. destruct (promises m !! p) as [[?|]|]; now split. Qed.

Lemma update_session_more r f (m : Manager) :
  awaiting (update_session r f m) = awaiting m.
Proof. unfold update_session. now destruct (store m !! r). Qed.

(** The way back of a prompt.  The child asked for a prompt with request
    id [req_id]; the call of [handleServerRequest] awaits the promise of the
    prompt.  When a connection answers, the response goes to the child as
    the result of that request; when the timeout fires first, the child is
    sent error [-32603] with the message of the timeout.  Either way one
    line is written, with the id of the request, and the call is no longer
    suspended. *)
Theorem prompt_answer_reaches_the_child sid pid response delay (m : Manager)
    r session resolver pre c req_id post st p :
  find_session sid m = Some (r, session) ->
  JsMap.get pid (promptResolvers session) = Some resolver ->
  timers m !! timeout resolver = Some (PromptTimeout r pid (promise resolver) delay) ->
  promises m !! promise resolver = Some None ->
  awaiting m = pre ++ (promise resolver, c, req_id) :: post ->
  Forall (fun a => fst (fst a) <> promise resolver /\ prompt_outcome m a = None) (pre ++ post) ->
  clients m !! c = Some st ->
  child st = Some p ->
  (clients (prompt_response sid pid response m) !! c
   = Some (emit (StdinWrite p
                   (JSON_stringify (obj [("jsonrpc", str "2.0"); ("id", req_id);
                                         ("result", response); ("error", VUndefined)])
                    ++ [LF])) st)
   /\ awaiting (prompt_response sid pid response m) = pre ++ post)
  /\ (clients (timer_fires (timeout resolver) m) !! c
      = Some (emit (StdinWrite p
                      (JSON_stringify
                         (obj [("jsonrpc", str "2.0"); ("id", req_id);
                               ("result", VUndefined);
                               ("error",
                                obj [("code", VNum (-32603));
                                     ("message",
                                      VStr (js "Prompt timeout - no client response"))])])
                       ++ [LF])) st)
      /\ awaiting (timer_fires (timeout resolver) m) = pre ++ post).
Proof.
  intros Hfind Hres Htimer Hpending Haw Hothers Hclient Hchild.
  assert (Hstep : forall o (m0 : Manager),
             awaiting m0 = awaiting m -> clients m0 = clients m -> promises m0 = promises m ->
             clients (checkpoint (settle (promise resolver) o m0)) !! c
             = Some (reply_inbound req_id o st)
             /\ awaiting (checkpoint (settle (promise resolver) o m0)) = pre ++ post).
  { intros o m0 Ha Hc Hp.
    destruct (settle_fields (promise resolver) o m0) as [Ha1 Hc1].
    rewrite (checkpoint_replies (settle (promise resolver) o m0) pre (promise resolver)
               c req_id post o).
    - unfold update_client. cbn [clients set_awaiting]. rewrite Hc1, Hc, Hclient.
      cbn [clients awaiting set_clients set_awaiting]. split; [|reflexivity].
      apply list_lookup_insert_eq. now apply lookup_lt_Some in Hclient.
    - now rewrite Ha1, Ha.
    - unfold settle. rewrite Hp, Hpending. cbn [promises set_promises].
      apply list_lookup_insert_eq. now apply lookup_lt_Some in Hpending.
    - eapply Forall_impl; [exact Hothers|]. intros a [Hne Hnone].
      rewrite (prompt_outcome_settle m0 _ o a Hne). unfold prompt_outcome in *.
      now rewrite Hp. }
  assert (Hsend : forall id result error,
             sendResponse id result error st
             = emit (StdinWrite p
                       (JSON_stringify (obj [("jsonrpc", str "2.0"); ("id", id);
                                             ("result", result); ("error", error)])
                        ++ [LF])) st)
    by (intros; unfold sendResponse; now rewrite Hchild).
  split.
  - unfold prompt_response, handlePromptResponse. rewrite Hfind, Hres.
    rewrite <- (Hsend req_id response VUndefined).
    apply (Hstep (Resolved response)).
    + now rewrite update_session_more.
    + now destruct (update_session_fields r
                      (fun s => with_promptResolvers (JsMap.delete pid (promptResolvers s)) s)
                      (clearTimeout (timeout resolver) m)) as (_ & _ & _ & -> & _).
    + now destruct (update_session_fields r
                      (fun s => with_promptResolvers (JsMap.delete pid (promptResolvers s)) s)
                      (clearTimeout (timeout resolver) m)) as (_ & -> & _).
  - unfold timer_fires, fire_timer. rewrite Htimer.
    rewrite <- (Hsend req_id VUndefined
                  (obj [("code", VNum (-32603));
                        ("message", VStr (js "Prompt timeout - no client response"))])).
    apply (Hstep (Rejected (Error (js "Prompt timeout - no client response")))).
    + now rewrite update_session_more.
    + now destruct (update_session_fields r
                      (fun s => with_promptResolvers (JsMap.delete pid (promptResolvers s)) s)
                      (clearTimeout (timeout resolver) m)) as (_ & _ & _ & -> & _).
    + now destruct (update_session_fields r
                      (fun s => with_promptResolvers (JsMap.delete pid (promptResolvers s)) s)
                      (clearTimeout (timeout resolver) m)) as (_ & -> & _).
Qed.

(** *** After a pass of the reaper *)

Lemma reap_nothing now todo : forall m : Manager,
  (forall e, e ∈ todo -> reaped now m (snd e) = false) ->
  fold_left (reap_entry now) todo m = m.
Proof.
  induction todo as [|e todo IH]; intros m H; [reflexivity|].
  cbn [fold_left].
  assert (He : reap_entry now m e = m).
  { unfold reap_entry. specialize (H e (list_elem_of_here _ _)). unfold reaped in H.
    destruct (store m !! snd e); [now rewrite H|reflexivity]. }
  rewrite He. apply IH. intros e' He'. apply H. now apply list_elem_of_further.
Qed.

(** A pass of the reaper leaves no session behind that it would destroy:
    every session still registered has a connection or was active within
    [IDLE_TIMEOUT]; a second pass at the same time changes nothing. *)
Theorem reaper_leaves_nothing_to_reap now (m : Manager) :
  registry_wf m ->
  (forall sid r session,
      find_session sid (cleanupIdleSessions now m) = Some (r, session) ->
      reapable now session = false)
  /\ cleanupIdleSessions now (cleanupIdleSessions now m) = cleanupIdleSessions now m.
Proof.
  intros Hwf. pose proof Hwf as (Hk & Hr & Hall).
  destruct (reap_fold now (sessions m) m Hk Hr) as [Hsessions Hkeep].
  { intros sid' r' H. now apply jsmap_elem_get. }
  assert (Hleft : forall sid r, JsMap.get sid (sessions (cleanupIdleSessions now m)) = Some r ->
                    reaped now m r = false
                    /\ store (cleanupIdleSessions now m) !! r = store m !! r).
  { intros sid r Hget. unfold cleanupIdleSessions in Hget. rewrite Hsessions in Hget.
    destruct (JsMap.get sid (sessions m)) as [r'|] eqn:Hg; [|discriminate].
    rewrite bool_decide_eq_true_2 in Hget by now apply jsmap_get_elem.
    cbn [andb] in Hget. destruct (reaped now m r') eqn:E; [discriminate|].
    injection Hget as <-. split; [exact E|]. unfold cleanupIdleSessions. now apply Hkeep. }
  assert (Hnone : forall sid r session,
             find_session sid (cleanupIdleSessions now m) = Some (r, session) ->
             reapable now session = false).
  { intros sid r session Hfind. apply find_session_inv in Hfind as [Hget Hstore].
    destruct (Hleft sid r Hget) as [Hno Hsame]. unfold reaped in Hno.
    rewrite Hsame in Hstore. now rewrite Hstore in Hno. }
  split; [exact Hnone|].
  unfold cleanupIdleSessions at 1. apply reap_nothing. intros [sid r] He. cbn [snd].
  assert (Hwf' : registry_wf (cleanupIdleSessions now m)).
  { unfold cleanupIdleSessions. apply registry_wf_fold_destroy; [|exact Hwf].
    intros m' e Hm'. unfold reap_entry. destruct (store m' !! snd e) as [s|]; [|exact Hm'].
    destruct (reapable now s); [now apply registry_wf_destroySession|exact Hm']. }
  destruct Hwf' as (Hk' & _ & _).
  assert (Hget : JsMap.get sid (sessions (cleanupIdleSessions now m)) = Some r)
    by now apply jsmap_elem_get.
  destruct (Hleft sid r Hget) as [Hno Hsame]. unfold reaped in *. now rewrite Hsame.
Qed.

End PromptReplyFacts.

(** * The further theorems at concrete states *)

Section ConcreteFurther.
Import StdioMcpClient SessionManager Scenario Framing ClientRun ChatService.
#[local] Existing Instance Sample.runtime.

Lemma sample_uuid_inj c k k' : uuid c k = uuid c k' -> k = k'.
Proof.
  cbn. intros H. apply js_inj in H.
  apply (inj (String.app "req-")) in H. apply (inj (String.app (pretty c))) in H.
  apply (inj (String.app "-")) in H. now apply (inj pretty) in H.
Qed.

Lemma text_cuts_are_invisible_witness :
  parsed (fst (feed_text [firstn 20 tools_response; skipn 20 tools_response ++ [LF]]
                 client_listing))
  = parsed (fst (on_text (concat [firstn 20 tools_response; skipn 20 tools_response ++ [LF]])
                   client_listing)).
Proof.
  apply (text_cuts_are_invisible _ client_listing); [discriminate|].
  vm_compute; reflexivity.
Defined.

Lemma ascii_cuts_are_invisible_witness :
  let chunks := [firstn 20 (wire_octets "{'jsonrpc':'2.0','id':'req-0-2','result':{'items':[1,2]}}");
                 skipn 20 (wire_octets "{'jsonrpc':'2.0','id':'req-0-2','result':{'items':[1,2]}}")
                 ++ [x0a]] in
  parsed (fst (feed chunks client_calling))
  = parsed (fst (on_data (concat chunks) client_calling)).
Proof.
  cbv zeta. apply (ascii_cuts_are_invisible _ client_calling); [discriminate| |].
  - apply (bool_decide_unpack (Forall _ _)). vm_compute. exact I.
  - vm_compute; reflexivity.
Defined.

Lemma repeated_response_is_ignored_witness :
  let msg := parsed_or_null call_response in
  is_response msg
  /\ dispatch msg (fst (dispatch msg client_calling)) = (fst (dispatch msg client_calling), None).
Proof.
  cbv zeta.
  assert (H : is_response (parsed_or_null call_response))
    by (split; [|left]; vm_compute; reflexivity).
  split; [exact H|]. exact (repeated_response_is_ignored _ client_calling H).
Defined.

Lemma notification_is_never_answered_witness :
  effects (fst (on_text (tools_notification ++ [LF]) client_calling)) = effects client_calling
  /\ pending (fst (on_text (tools_notification ++ [LF]) client_calling)) = pending client_calling.
Proof.
  destruct (notification_is_never_answered tools_notification (parsed_or_null tools_notification)
              client_calling) as (_ & He & Hp & _).
  - vm_compute; reflexivity.
  - vm_compute; reflexivity.
  - apply one_line_check. vm_compute; reflexivity.
  - vm_compute; reflexivity.
  - unfold is_notification. repeat split; vm_compute; reflexivity.
  - split; [exact He|exact Hp].
Defined.

Lemma primitive_message_ends_the_listener_witness :
  on_text (js "42" ++ LF :: call_response ++ [LF]) client_calling
  = (note_parsed (VNum 42) (set_buffer [] client_calling),
     Some (TypeError (js "Cannot use 'in' operator to search for 'id' in 42"))).
Proof.
  rewrite (primitive_message_ends_the_listener (js "42") (VNum 42) (call_response ++ [LF])
             client_calling).
  - vm_compute; reflexivity.
  - vm_compute; reflexivity.
  - apply one_line_check. vm_compute; reflexivity.
  - vm_compute; reflexivity.
  - reflexivity.
Defined.

Lemma unreadable_line_is_skipped_witness :
  on_text ([] ++ js "Server listening" ++ LF :: call_response ++ [LF]) client_calling
  = on_text ([] ++ call_response ++ [LF]) client_calling.
Proof.
  apply unreadable_line_is_skipped.
  - left. vm_compute; reflexivity.
  - apply no_line_feed_check. vm_compute; reflexivity.
  - right. vm_compute; reflexivity.
Defined.

Lemma outstanding_calls_are_never_displaced_witness :
  let ops := [OpInitialize true;
              OpData (wire_octets "{'jsonrpc':'2.0','id':'req-0-0','result':{}}" ++ [x0a]);
              OpData (wire_octets "{'jsonrpc':'2.0','id':'req-0-1','result':{'tools':[]}}" ++ [x0a]);
              OpCallTool (str "list-x") (obj [])] in
  pending (fst (run ops (new_client 0 options))) !! js "req-0-2"
  = Some {| pc_schema := None; pc_kont := KCaller |}
  /\ pending (fst (callTool (str "list-y") (obj []) (fst (run ops (new_client 0 options)))))
     !! js "req-0-2"
     = Some {| pc_schema := None; pc_kont := KCaller |}.
Proof.
  cbv zeta.
  match goal with |- ?A /\ _ => assert (H : A) by (vm_compute; reflexivity) end.
  split; [exact H|].
  exact (proj2 (proj2 (outstanding_calls_are_never_displaced 0%nat (sample_uuid_inj 0%nat)
                         options _ (str "list-y") (obj []))) _ _ H).
Defined.

Lemma initialize_completes_on_result_or_error_witness :
  let refused := wire "{'jsonrpc':'2.0','id':'req-0-0','error':{'code':-32600,'message':'no'}}" in
  let st1 := fst (initialize true client_new) in
  let st2 := fst (on_text (refused ++ [LF]) st1) in
  let st3 := fst (on_text (tools_response ++ [LF]) st2) in
  initialized st3 = true /\ tools st3 = VArr [obj [("name", str "list-x")]].
Proof.
  cbv zeta.
  destruct (initialize_completes_on_result_or_error
              (wire "{'jsonrpc':'2.0','id':'req-0-0','error':{'code':-32600,'message':'no'}}")
              (parsed_or_null
                 (wire "{'jsonrpc':'2.0','id':'req-0-0','error':{'code':-32600,'message':'no'}}"))
              tools_response (parsed_or_null tools_response) client_new)
    as (_ & _ & Hi & Ht).
  - reflexivity.
  - reflexivity.
  - reflexivity.
  - apply one_line_check. vm_compute; reflexivity.
  - vm_compute; reflexivity.
  - split; [|right]; vm_compute; reflexivity.
  - vm_compute; reflexivity.
  - vm_compute; reflexivity.
  - apply one_line_check. vm_compute; reflexivity.
  - vm_compute; reflexivity.
  - split; [|left]; vm_compute; reflexivity.
  - vm_compute; reflexivity.
  - vm_compute; reflexivity.
  - split; [exact Hi|]. rewrite Ht. vm_compute; reflexivity.
Defined.

Lemma registry_check (m : Manager) :
  bool_decide (NoDup (map fst (sessions m))) = true ->
  bool_decide (NoDup (map snd (sessions m))) = true ->
  forallb (fun e => (snd e <? length (store m))%nat) (sessions m) = true ->
  registry_wf m.
Proof.
  intros H1 H2 H3. split; [now apply bool_decide_eq_true_1 in H1|].
  split; [now apply bool_decide_eq_true_1 in H2|].
  apply Forall_forall. intros e He. rewrite forallb_forall in H3.
  apply list_elem_of_In in He. specialize (H3 e He). now apply Nat.ltb_lt in H3.
Qed.

Lemma response_and_timeout_exclude_each_other_witness :
  let pid := prompt_id S1 prompt_time in
  fire_timer 1 (handlePromptResponse S1 pid (str "yes") manager_prompting)
  = handlePromptResponse S1 pid (str "yes") manager_prompting
  /\ handlePromptResponse S1 pid (str "yes") (fire_timer 1 manager_prompting)
     = fire_timer 1 manager_prompting.
Proof.
  cbv zeta.
  assert (H : exists session,
             find_session S1 manager_prompting = Some (0%nat, session)
             /\ JsMap.get (prompt_id S1 prompt_time) (promptResolvers session)
                = Some {| promise := 0; timeout := 1 |})
    by (eexists; split; vm_compute; reflexivity).
  destruct H as (session & H1 & H2).
  apply (response_and_timeout_exclude_each_other S1 (prompt_id S1 prompt_time) (str "yes")
           120000 manager_prompting 0%nat session {| promise := 0; timeout := 1 |} H1 H2).
  vm_compute; reflexivity.
Defined.

Lemma activity_defers_the_reaper_witness :
  let now := (5000 + IDLE_TIMEOUT)%Z in
  JsMap.get S1 (sessions (cleanupIdleSessions now (touchSession S1 5000 manager_created)))
  = Some 0%nat.
Proof.
  cbv zeta.
  assert (Hwf : registry_wf manager_created)
    by (apply registry_check; vm_compute; reflexivity).
  assert (H : exists session, find_session S1 manager_created = Some (0%nat, session))
    by (eexists; vm_compute; reflexivity).
  destruct H as (session & H).
  destruct (activity_defers_the_reaper S1 0%nat 5000 (5000 + IDLE_TIMEOUT)%Z manager_created
              0%nat session Hwf H) as [Hkeep _]; [vm_compute; discriminate|].
  now apply find_session_inv in Hkeep.
Defined.

Lemma destroySession_releases_the_session_witness :
  JsMap.get S1 (sessions (destroySession S1 manager_prompting)) = None
  /\ promises (destroySession S1 manager_prompting) !! 0%nat
     = Some (Some (Rejected (Error (js "Session terminated"))))
  /\ clients (destroySession S1 manager_prompting) = clients manager_prompting.
Proof.
  assert (H : exists session,
             find_session S1 manager_prompting = Some (0%nat, session)
             /\ wsConnections session = [0%nat]
             /\ promptResolvers session
                = [(prompt_id S1 prompt_time, {| promise := 0; timeout := 1 |})])
    by (eexists; split; [|split]; vm_compute; reflexivity).
  destruct H as (session & H1 & H2 & H3).
  destruct (destroySession_releases_the_session S1 manager_prompting 0%nat session H1)
    as (Hgone & Hprompts & _ & _ & Hclients).
  - rewrite H2. apply NoDup_singleton.
  - split; [exact Hgone|]. split; [|exact Hclients].
    apply (Hprompts (prompt_id S1 prompt_time) {| promise := 0; timeout := 1 |}).
    + rewrite H3. apply list_elem_of_here.
    + vm_compute; reflexivity.
Defined.

Lemma shutdown_destroys_every_session_witness :
  sessions (shutdown manager_two_sessions) = []
  /\ cleanupInterval (shutdown manager_two_sessions) = false.
Proof.
  destruct (shutdown_destroys_every_session manager_two_sessions) as (H1 & H2 & _).
  - apply registry_check; vm_compute; reflexivity.
  - split; [exact H1|exact H2].
Defined.

Lemma prompt_is_sent_to_every_open_connection_witness :
  let m' := fst (handlePromptForSession S1 (obj [("name", str "login")]) prompt_time
                   manager_attached) in
  promises m' !! 0%nat = Some None
  /\ timers m' !! 1%nat = Some (PromptTimeout 0 (prompt_id S1 prompt_time) 0 120000).
Proof.
  cbv zeta.
  assert (H : exists session,
             find_session S1 manager_attached = Some (0%nat, session)
             /\ wsConnections session = [0%nat])
    by (eexists; split; vm_compute; reflexivity).
  destruct H as (session & H1 & H2).
  destruct (prompt_is_sent_to_every_open_connection S1 (obj [("name", str "login")]) prompt_time
              manager_attached 0%nat session 0%nat H1) as (_ & _ & Hp & Ht & _).
  - rewrite H2. apply NoDup_singleton.
  - rewrite H2. apply list_elem_of_here.
  - vm_compute; reflexivity.
  - split; [exact Hp|exact Ht].
Defined.

Lemma failed_configuration_leaves_the_session_unconfigured_witness :
  snd (initializeMcpClient S1 config false manager_created)
  = Threw (Error (js "MCP server binary not found at path: /app/bin/pingone-mcp-server"))
  /\ getSessionMcpClient S1 (fst (initializeMcpClient S1 config false manager_created)) = None.
Proof.
  assert (H : exists session,
             find_session S1 manager_created = Some (0%nat, session)
             /\ mcpClient session = None)
    by (eexists; split; vm_compute; reflexivity).
  destruct H as (session & H1 & H2).
  destruct (failed_configuration_leaves_the_session_unconfigured S1 config manager_created
              0%nat session H1 H2) as (Hthrew & _ & _ & Hnone & _).
  split; [rewrite Hthrew; vm_compute; reflexivity|exact Hnone].
Defined.


Lemma prompt_id_inj_witness : prompt_time = prompt_time.
Proof. exact (prompt_id_inj S1 prompt_time prompt_time eq_refl). Defined.

Lemma converted_tools_are_complete_witness :
  is_Some (convertMcpToolsToOpenAI (listTools client_ready))
  /\ match convertMcpToolsToOpenAI (listTools client_ready) with
     | Some [t] => get (get t "function") "description"
     | _ => VUndefined
     end = str "Execute list-x".
Proof.
  split.
  - apply (proj1 (converted_tools_are_complete (listTools client_ready))).
    exists [obj [("name", str "list-x")]]. split; [vm_compute; reflexivity|].
    repeat constructor; discriminate.
  - vm_compute; reflexivity.
Defined.

Lemma prompt_answer_reaches_the_child_witness :
  let m := fst (child_data 0 one_prompt prompt_time manager_attached) in
  exists st,
    clients m !! 0%nat = Some st
    /\ clients (prompt_response S1 (prompt_id S1 prompt_time) (str "yes") m) !! 0%nat
       = Some (emit (StdinWrite 0 (wire "{'jsonrpc':'2.0','id':'p1','result':'yes'}" ++ [LF])) st)
    /\ awaiting (prompt_response S1 (prompt_id S1 prompt_time) (str "yes") m) = [].
Proof.
  cbv zeta.
  assert (H : exists session st,
             find_session S1 (fst (child_data 0 one_prompt prompt_time manager_attached))
             = Some (0%nat, session)
             /\ JsMap.get (prompt_id S1 prompt_time) (promptResolvers session)
                = Some {| promise := 0; timeout := 1 |}
             /\ clients (fst (child_data 0 one_prompt prompt_time manager_attached)) !! 0%nat
                = Some st
             /\ child st = Some 0%nat)
    by (do 2 eexists; split; [|split; [|split]]; vm_compute; reflexivity).
  destruct H as (session & st & H1 & H2 & H3 & H4).
  destruct (prompt_answer_reaches_the_child S1 (prompt_id S1 prompt_time) (str "yes") 120000
              (fst (child_data 0 one_prompt prompt_time manager_attached))
              0%nat session {| promise := 0; timeout := 1 |} [] 0%nat (str "p1") [] st 0%nat
              H1 H2) as [[Hsent Hdone] _].
  - vm_compute; reflexivity.
  - vm_compute; reflexivity.
  - vm_compute; reflexivity.
  - constructor.
  - exact H3.
  - exact H4.
  - exists st. split; [exact H3|]. split; [|exact Hdone].
    rewrite Hsent. vm_compute; reflexivity.
Defined.

Lemma reaper_leaves_nothing_to_reap_witness :
  let now := (1000 + IDLE_TIMEOUT + 1)%Z in
  cleanupIdleSessions now (cleanupIdleSessions now manager_two_sessions)
  = cleanupIdleSessions now manager_two_sessions.
Proof.
  cbv zeta. apply reaper_leaves_nothing_to_reap.
  apply registry_check; vm_compute; reflexivity.
Defined.

End ConcreteFurther.
